(** * moactl: the [upgrade cluster] and [revoke user] commands

    A shallow embedding of the two command handlers of the repository
    ([package cluster], [func run] of the upgrade command, and
    [cmd/revoke/user/cmd.go]) together with the pieces of the Go runtime
    they rely on: [strings.Split], [fmt.Sprintf], [strconv.ParseFloat],
    [time.Format], [time.Parse], [defer], [os.Exit] and run-time panics.

    A command is a computation in a small monad that threads the trace of
    observable events (reporter messages, remote calls, prompts) and stops
    on [os.Exit] or on a panic.  Everything the commands obtain from
    outside (flags, the clock, the remote service, the operator) is a
    field of a [World] record. *)

From Stdlib Require Import ZArith List String Ascii Bool Lia.
From Stdlib Require Import Floats.SpecFloat.
Import ListNotations.

Open Scope string_scope.
Open Scope Z_scope.

(** ** Go values shared by every package *)

(** A Go [error] is represented by its message. *)
Definition error := string.

(** The pair [(value, err)] a fallible Go function returns. *)
Inductive result (A : Type) : Type :=
| Ok (a : A)
| Err (e : error).
Arguments Ok {A} a.
Arguments Err {A} e.

(** ** Package [strings] and the integer verbs of [fmt] *)
Module GoStrings.

Definition isDigit (c : ascii) : bool :=
  let n := Z.of_nat (nat_of_ascii c) in (48 <=? n) && (n <=? 57).

Definition digitVal (c : ascii) : Z := Z.of_nat (nat_of_ascii c) - 48.

(** [byte('0' + u)] for a decimal digit [u]. *)
Definition digitChar (u : Z) : ascii := ascii_of_nat (Z.to_nat (48 + u)).

(** [strings.Split(s, sep)] for a one-byte separator: the pieces between
    the separators, one more than there are separators. *)
Fixpoint Split (s : string) (sep : ascii) : list string :=
  match s with
  | EmptyString => [EmptyString]
  | String c rest =>
      if Ascii.eqb c sep then EmptyString :: Split rest sep
      else match Split rest sep with
           | [] => [String c EmptyString]
           | w :: ws => String c w :: ws
           end
  end.

(** The digit loop shared by [fmt]'s [%d] and [time]'s [appendInt]:
    digits are produced from the least significant one into a buffer
    of [fuel] bytes, in front of [acc]. *)
Fixpoint digitsInto (fuel : nat) (u : Z) (acc : string) : string :=
  match fuel with
  | O => acc
  | S fuel' =>
      if u <? 10 then String (digitChar u) acc
      else digitsInto fuel' (u / 10) (String (digitChar (u mod 10)) acc)
  end.

(** [fmt.Sprintf("%d", x)] for an [int]: 20 digits hold any 64-bit value. *)
Definition FormatInt (x : Z) : string :=
  if x <? 0 then String "-" (digitsInto 20 (- x) "")
  else digitsInto 20 x "".

(** The longest prefix of decimal digits of [s], read as a number the way
    Go's scanners accumulate it ([n = n*10 + digit]), with the number of
    digits read and the rest of the string. *)
Fixpoint scanDigits (s : string) (acc : Z) (count : Z) : Z * Z * string :=
  match s with
  | String c rest =>
      if isDigit c then scanDigits rest (acc * 10 + digitVal c) (count + 1)
      else (acc, count, s)
  | EmptyString => (acc, count, s)
  end.

(** [fmt]'s [%s] of a [[]string]: the elements between brackets,
    separated by single spaces. *)
Fixpoint joinSpace (l : list string) : string :=
  match l with
  | [] => ""
  | [x] => x
  | x :: rest => x ++ " " ++ joinSpace rest
  end.

Definition FormatStrings (l : list string) : string :=
  "[" ++ joinSpace l ++ "]".

End GoStrings.

(** ** Package [time]

    The commands use [time.Now], [UTC], [Add], [Format] and [Parse] with
    the layouts ["2006-01-02"], ["15:04"], ["2006-01-02 15:04"] and
    ["2006-01-02 15:04 MST"].  The calendar arithmetic follows the
    library's: whole 400-, 100-, 4- and 1-year cycles are cut off a day
    count.  The library counts days from a year that is 1 modulo 400;
    here they are counted from 0001-01-01 with floor division, which
    gives the same cycles. *)
Module GoTime.
Import GoStrings.

(** A [time.Time]: an instant (seconds and nanoseconds since the Unix
    epoch) and the zone in effect at that instant, which is all that
    [Format] reads of the location. *)
Record Time : Type := mkTime {
  unixSec : Z;
  nsec : Z;
  zoneName : string;
  zoneOffset : Z
}.

(** A [time.Duration] counts nanoseconds. *)
Definition Duration := Z.
Definition Second : Duration := 1000000000.
Definition Minute : Duration := 60 * Second.

Definition UnixNano (t : Time) : Z := unixSec t * 1000000000 + nsec t.

Definition UTC (t : Time) : Time := mkTime (unixSec t) (nsec t) "UTC" 0.

(** [t.Add(d)].  The zone is kept: the commands only add to UTC times. *)
Definition Add (t : Time) (d : Duration) : Time :=
  let dsec := Z.quot d 1000000000 in
  let ns := nsec t + Z.rem d 1000000000 in
  if 1000000000 <=? ns then
    mkTime (unixSec t + dsec + 1) (ns - 1000000000) (zoneName t) (zoneOffset t)
  else if ns <? 0 then
    mkTime (unixSec t + dsec - 1) (ns + 1000000000) (zoneName t) (zoneOffset t)
  else mkTime (unixSec t + dsec) ns (zoneName t) (zoneOffset t).

Definition secondsPerMinute := 60.
Definition secondsPerHour := 60 * secondsPerMinute.
Definition secondsPerDay := 24 * secondsPerHour.
Definition daysPer400Years := 365 * 400 + 97.
Definition daysPer100Years := 365 * 100 + 24.
Definition daysPer4Years := 365 * 4 + 1.

(** Days from 0001-01-01 to 1970-01-01. *)
Definition unixEpochDays := 1969 * 365 + 1969 / 4 - 1969 / 100 + 1969 / 400.

Definition isLeap (year : Z) : bool :=
  (year mod 4 =? 0) && (negb (year mod 100 =? 0) || (year mod 400 =? 0)).

(** [daysBefore[m]]: the days of a non-leap year before month [m+1]. *)
Definition daysBefore (m : Z) : Z :=
  nth (Z.to_nat m)
      [0; 31; 59; 90; 120; 151; 181; 212; 243; 273; 304; 334; 365] 0.

Definition daysIn (month year : Z) : Z :=
  if (month =? 2) && isLeap year then 29
  else daysBefore month - daysBefore (month - 1).

(** The year (from 1) and the day within it of day [d] of a 400-year
    cycle. *)
Definition yearInCycle (d : Z) : Z * Z :=
  let n := d / daysPer100Years in
  let n := n - Z.shiftr n 2 in
  let y := 100 * n in
  let d := d - daysPer100Years * n in
  let n := d / daysPer4Years in
  let y := y + 4 * n in
  let d := d - daysPer4Years * n in
  let n := d / 365 in
  let n := n - Z.shiftr n 2 in
  let y := y + n in
  let d := d - 365 * n in
  (y + 1, d).

(** The month and the day of the month of day [yday] of a year, leap
    or not. *)
Definition monthDay (leap : bool) (yday : Z) : Z * Z :=
  if leap && (yday =? 31 + 29 - 1) then (2, 29)
  else
    let day := if leap && (31 + 29 - 1 <? yday) then yday - 1 else yday in
    let month := day / 31 in
    let end_ := daysBefore (month + 1) in
    if end_ <=? day then (month + 2, day - end_ + 1)
    else (month + 1, day - daysBefore month + 1).

(** [absDate]: year, month and day of the day count [days]. *)
Definition absDate (days : Z) : Z * Z * Z :=
  let n := days / daysPer400Years in
  let '(y, yday) := yearInCycle (days - daysPer400Years * n) in
  let year := 400 * n + y in
  let '(month, day) := monthDay (isLeap year) yday in
  (year, month, day).

(** [daysSinceEpoch]: the days before the first day of [year]. *)
Definition daysSinceEpoch (year : Z) : Z :=
  let y := year - 1 in
  let n := y / 400 in
  let y := y - 400 * n in
  let d := daysPer400Years * n in
  let n := y / 100 in
  let y := y - 100 * n in
  let d := d + daysPer100Years * n in
  let n := y / 4 in
  let y := y - 4 * n in
  let d := d + daysPer4Years * n in
  d + 365 * y.

(** The day count of a calendar date. *)
Definition dateDays (year month day : Z) : Z :=
  daysSinceEpoch year + daysBefore (month - 1)
  + (if isLeap year && (3 <=? month) then 1 else 0)
  + (day - 1).

(** [time.Date(year, month, day, hour, min, 0, 0, time.UTC)] for fields
    that are in range, which [Parse] has checked before it calls [Date]. *)
Definition Date (year month day hour min : Z) : Time :=
  mkTime ((dateDays year month day - unixEpochDays) * secondsPerDay
          + hour * secondsPerHour + min * secondsPerMinute)
         0 "UTC" 0.

(** The broken-down fields [Format] prints. *)
Definition abs (t : Time) : Z := unixSec t + zoneOffset t.
Definition absDays (t : Time) : Z := abs t / secondsPerDay + unixEpochDays.
Definition Year (t : Time) : Z := let '(y, _, _) := absDate (absDays t) in y.
Definition Month (t : Time) : Z := let '(_, m, _) := absDate (absDays t) in m.
Definition Day (t : Time) : Z := let '(_, _, d) := absDate (absDays t) in d.
Definition Hour (t : Time) : Z := (abs t mod secondsPerDay) / secondsPerHour.
Definition Minute_ (t : Time) : Z :=
  (abs t mod secondsPerHour) / secondsPerMinute.

(** The elements of a layout: literal text and the reference-time
    fields the commands' layouts contain. *)
Inductive Chunk : Type :=
| Lit (text : string)
| stdLongYear      (* "2006" *)
| stdZeroMonth     (* "01" *)
| stdZeroDay       (* "02" *)
| stdHour          (* "15" *)
| stdZeroMinute    (* "04" *)
| stdTZ.           (* "MST" *)

Definition Layout := list Chunk.

(** "2006-01-02" *)
Definition layoutDate : Layout :=
  [stdLongYear; Lit "-"; stdZeroMonth; Lit "-"; stdZeroDay].
(** "15:04" *)
Definition layoutClock : Layout := [stdHour; Lit ":"; stdZeroMinute].
(** "2006-01-02 15:04" *)
Definition layoutDateClock : Layout :=
  (layoutDate ++ [Lit " "] ++ layoutClock)%list.
(** "2006-01-02 15:04 MST" *)
Definition layoutDateClockZone : Layout :=
  (layoutDateClock ++ [Lit " "; stdTZ])%list.

Fixpoint zeros (n : nat) : string :=
  match n with O => "" | S n' => String "0" (zeros n') end.

(** [appendInt(b, x, width)]: the decimal form of [x], zero-padded to
    [width] digits, after a minus sign when [x] is negative. *)
Definition appendInt (x : Z) (width : nat) : string :=
  let digits := digitsInto 20 (Z.abs x) "" in
  (if x <? 0 then "-" else "")
  ++ zeros (width - String.length digits) ++ digits.

Definition formatChunk (t : Time) (c : Chunk) : string :=
  match c with
  | Lit text => text
  | stdLongYear => appendInt (Year t) 4
  | stdZeroMonth => appendInt (Month t) 2
  | stdZeroDay => appendInt (Day t) 2
  | stdHour => appendInt (Hour t) 2
  | stdZeroMinute => appendInt (Minute_ t) 2
  | stdTZ =>
      if negb (String.eqb (zoneName t) "") then zoneName t
      else
        let zone := Z.quot (zoneOffset t) 60 in
        (if zone <? 0 then "-" else "+")
        ++ appendInt (Z.quot (Z.abs zone) 60) 2
        ++ appendInt (Z.rem (Z.abs zone) 60) 2
  end.

(** [t.Format(layout)]. *)
Fixpoint Format (t : Time) (layout : Layout) : string :=
  match layout with
  | [] => ""
  | c :: rest => formatChunk t c ++ Format t rest
  end.

Fixpoint cutspace (s : string) : string :=
  match s with
  | String c rest => if Ascii.eqb c " " then cutspace rest else s
  | EmptyString => s
  end.

(** [skip(value, prefix)]: [value] without the literal [prefix]; a run
    of spaces in the prefix matches any run of spaces, or the end of
    the value. *)
Fixpoint skipLoop (fuel : nat) (value prefix : string) : option string :=
  match fuel with
  | O => None
  | S fuel' =>
      match prefix with
      | EmptyString => Some value
      | String p prefix' =>
          if Ascii.eqb p " " then
            match value with
            | String v _ =>
                if negb (Ascii.eqb v " ") then None
                else skipLoop fuel' (cutspace value) (cutspace prefix)
            | EmptyString => skipLoop fuel' (cutspace value) (cutspace prefix)
            end
          else
            match value with
            | String v value' =>
                if Ascii.eqb v p then skipLoop fuel' value' prefix' else None
            | EmptyString => None
            end
      end
  end.

Definition skip (value prefix : string) : option string :=
  skipLoop (S (String.length prefix)) value prefix.

(** [getnum(s, fixed)]: a number of one or two digits, of exactly two
    when [fixed]. *)
Definition getnum (s : string) (fixed : bool) : option (Z * string) :=
  match s with
  | String a rest =>
      if negb (isDigit a) then None
      else
        match rest with
        | String b rest' =>
            if isDigit b then Some (digitVal a * 10 + digitVal b, rest')
            else if fixed then None else Some (digitVal a, rest)
        | EmptyString => if fixed then None else Some (digitVal a, rest)
        end
  | EmptyString => None
  end.

(** The four-digit year: at least four bytes, all of them digits. *)
Definition getyear (s : string) : option (Z * string) :=
  match s with
  | String a (String b (String c (String d rest))) =>
      if isDigit a && isDigit b && isDigit c && isDigit d then
        Some (((digitVal a * 10 + digitVal b) * 10 + digitVal c) * 10
              + digitVal d, rest)
      else None
  | _ => None
  end.

(** The fields [Parse] collects, with the library's defaults. *)
Record Fields : Type := mkFields {
  fYear : Z; fMonth : Z; fDay : Z; fHour : Z; fMin : Z
}.

Definition noFields : Fields := mkFields 0 1 1 0 0.

(** One element of the layout consumed from [value].  The texts of the
    library's parse errors are abbreviated.  The commands never parse a
    zone abbreviation; the model refuses the element. *)
Definition parseChunk (c : Chunk) (f : Fields) (value : string)
  : result (Fields * string) :=
  match c with
  | Lit text =>
      match skip value text with
      | Some value' => Ok (f, value')
      | None => Err "cannot parse value as layout"
      end
  | stdLongYear =>
      match getyear value with
      | Some (n, value') =>
          Ok (mkFields n (fMonth f) (fDay f) (fHour f) (fMin f), value')
      | None => Err "cannot parse value as layout"
      end
  | stdZeroMonth =>
      match getnum value true with
      | Some (n, value') =>
          if (n <=? 0) || (12 <? n) then Err "month out of range"
          else Ok (mkFields (fYear f) n (fDay f) (fHour f) (fMin f), value')
      | None => Err "cannot parse value as layout"
      end
  | stdZeroDay =>
      match getnum value true with
      | Some (n, value') =>
          Ok (mkFields (fYear f) (fMonth f) n (fHour f) (fMin f), value')
      | None => Err "cannot parse value as layout"
      end
  | stdHour =>
      match getnum value false with
      | Some (n, value') =>
          if 24 <=? n then Err "hour out of range"
          else Ok (mkFields (fYear f) (fMonth f) (fDay f) n (fMin f), value')
      | None => Err "cannot parse value as layout"
      end
  | stdZeroMinute =>
      match getnum value true with
      | Some (n, value') =>
          if 60 <=? n then Err "minute out of range"
          else Ok (mkFields (fYear f) (fMonth f) (fDay f) (fHour f) n, value')
      | None => Err "cannot parse value as layout"
      end
  | stdTZ => Err "zone abbreviations are not parsed in this model"
  end.

Fixpoint parseLoop (layout : Layout) (f : Fields) (value : string)
  : result Fields :=
  match layout with
  | [] =>
      match value with
      | EmptyString => Ok f
      | String _ _ => Err "extra text"
      end
  | c :: rest =>
      match parseChunk c f value with
      | Ok (f', value') => parseLoop rest f' value'
      | Err e => Err e
      end
  end.

(** [time.Parse(layout, value)]: the fields are read along the layout,
    the day is checked against the month, and the time is in UTC. *)
Definition Parse (layout : Layout) (value : string) : result Time :=
  match parseLoop layout noFields value with
  | Ok f =>
      if (fDay f <? 1) || (daysIn (fMonth f) (fYear f) <? fDay f) then
        Err "day out of range"
      else Ok (Date (fYear f) (fMonth f) (fDay f) (fHour f) (fMin f))
  | Err e => Err e
  end.

End GoTime.

(** ** [float64] and [strconv.ParseFloat]

    A [float64] is an IEEE-754 binary64 value, with the arithmetic of the
    standard library's specification of floating-point numbers. *)
Module GoFloat.
Import GoStrings.

Definition float64 := spec_float.
Definition prec := 53.
Definition emax := 1024.

(** The conversion [float64(n)] of an integer, rounded to nearest even. *)
Definition ofInt (n : Z) : float64 := binary_normalize prec emax n 0 false.

(** The product [x * y] of two [float64]. *)
Definition mul (x y : float64) : float64 := SFmul prec emax x y.

(** The conversion [int(f)]: the fraction is discarded.  Go leaves the
    result open when [f] does not fit an [int]; the value is the one
    amd64 gives, the smallest [int64]. *)
Definition toInt (f : float64) : Z :=
  match f with
  | S754_zero _ => 0
  | S754_finite s m e =>
      let v := if 0 <=? e then Zpos m * 2 ^ e else Zpos m / 2 ^ (- e) in
      let r := if s then - v else v in
      if (- 2 ^ 63 <=? r) && (r <? 2 ^ 63) then r else - 2 ^ 63
  | S754_infinity _ | S754_nan => - 2 ^ 63
  end.

(** The binary64 nearest to [n / d], for positive [n] and [d]: the
    quotient is computed to 56 bits or more and a sticky bit records a
    remainder, so that rounding the quotient rounds the fraction. *)
Definition roundFraction (neg : bool) (n d : Z) : float64 :=
  let s := Z.max 0 (Z.log2 d - Z.log2 n + 57) in
  let q := (n * 2 ^ s) / d in
  let sticky := if (n * 2 ^ s) mod d =? 0 then 0 else 1 in
  let m := 2 * q + sticky in
  binary_normalize prec emax (if neg then - m else m) (- s - 1) false.

(** The binary64 nearest to [mant * 10 ^ exp10], signed. *)
Definition decimalToFloat (neg : bool) (mant exp10 : Z) : float64 :=
  if mant =? 0 then S754_zero neg
  else if 0 <=? exp10 then
    binary_normalize prec emax
      (if neg then - (mant * 10 ^ exp10) else mant * 10 ^ exp10) 0 false
  else roundFraction neg mant (10 ^ (- exp10)).

(** The binary64 nearest to [mant * 2 ^ exp2], signed. *)
Definition hexToFloat (neg : bool) (mant exp2 : Z) : float64 :=
  if mant =? 0 then S754_zero neg
  else binary_normalize prec emax (if neg then - mant else mant) exp2 false.

(** [lower(c)] of [strconv]: the byte with the case bit set,
    [c | ('x' ^ 'X')]. *)
Definition lower (c : ascii) : ascii :=
  match c with
  | Ascii b0 b1 b2 b3 b4 _ b6 b7 => Ascii b0 b1 b2 b3 b4 true b6 b7
  end.

(** A letter from [A] to [Z] in lower case, any other byte as it is. *)
Definition lowerLetter (c : ascii) : ascii :=
  let n := Z.of_nat (nat_of_ascii c) in
  if (65 <=? n) && (n <=? 90) then ascii_of_nat (Z.to_nat (n + 32)) else c.

(** [equalIgnoreCase]: the same length and, byte by byte, the same
    once the letters [A] to [Z] are lowered. *)
Fixpoint equalIgnoreCase (s1 s2 : string) : bool :=
  match s1, s2 with
  | EmptyString, EmptyString => true
  | String c1 s1', String c2 s2' =>
      Ascii.eqb (lowerLetter c1) (lowerLetter c2) && equalIgnoreCase s1' s2'
  | _, _ => false
  end.

(** [special]: the names of the infinities and of NaN, looked up by
    the first byte.  (The library of Go 1.15 and later matches the
    names as prefixes and [ParseFloat] then rejects what is left over:
    the texts accepted are the same.) *)
Definition special (s : string) : option float64 :=
  match s with
  | EmptyString => None
  | String c _ =>
      if Ascii.eqb c "+" then
        if equalIgnoreCase s "+inf" || equalIgnoreCase s "+infinity"
        then Some (S754_infinity false) else None
      else if Ascii.eqb c "-" then
        if equalIgnoreCase s "-inf" || equalIgnoreCase s "-infinity"
        then Some (S754_infinity true) else None
      else if Ascii.eqb c "n" || Ascii.eqb c "N" then
        if equalIgnoreCase s "nan" then Some S754_nan else None
      else if Ascii.eqb c "i" || Ascii.eqb c "I" then
        if equalIgnoreCase s "inf" || equalIgnoreCase s "infinity"
        then Some (S754_infinity false) else None
      else None
  end.

(** The letters [a] to [f], in either case, and their values. *)
Definition isHexLetter (c : ascii) : bool :=
  let n := Z.of_nat (nat_of_ascii (lower c)) in (97 <=? n) && (n <=? 102).

Definition hexLetterVal (c : ascii) : Z :=
  Z.of_nat (nat_of_ascii (lower c)) - 97 + 10.

(** What the digit loop of [readFloat] keeps: the digits read as one
    number, how many there are once the leading zeros are left out,
    where the point is, and what was seen.  The library keeps 19
    digits (16 in base 16) and a flag for the rest, and goes back to
    the text when the flag is set; here [mantissa] holds every digit,
    so that the value rounded in the end is the value of the text. *)
Record Digits : Type := mkDigits {
  mantissa : Z;
  nd : Z;
  dp : Z;
  sawdot : bool;
  sawdigits : bool;
  underscores : bool
}.

(** The digit loop: underscores are passed over and checked later, a
    second point ends the parse, zeros in front of the first other
    digit only move the point.  The result is [None] when the parse
    has failed, otherwise the state and the text left. *)
Fixpoint scanMantissa (hex : bool) (s : string) (st : Digits)
  : option (Digits * string) :=
  match s with
  | EmptyString => Some (st, s)
  | String c rest =>
      if Ascii.eqb c "_" then
        scanMantissa hex rest
          (mkDigits (mantissa st) (nd st) (dp st) (sawdot st) (sawdigits st)
                    true)
      else if Ascii.eqb c "." then
        if sawdot st then None
        else
          scanMantissa hex rest
            (mkDigits (mantissa st) (nd st) (nd st) true (sawdigits st)
                      (underscores st))
      else if isDigit c then
        if Ascii.eqb c "0" && (nd st =? 0) then
          (* ignore leading zeros *)
          scanMantissa hex rest
            (mkDigits (mantissa st) (nd st) (dp st - 1) (sawdot st) true
                      (underscores st))
        else
          scanMantissa hex rest
            (mkDigits (mantissa st * (if hex then 16 else 10) + digitVal c)
                      (nd st + 1) (dp st) (sawdot st) true (underscores st))
      else if hex && isHexLetter c then
        scanMantissa hex rest
          (mkDigits (mantissa st * 16 + hexLetterVal c)
                    (nd st + 1) (dp st) (sawdot st) true (underscores st))
      else Some (st, s)
  end.

(** The digits of an exponent, underscores passed over; the scanner
    stops accumulating once the exponent reaches 10000. *)
Fixpoint scanExponent (s : string) (e : Z) (us : bool) : Z * bool * string :=
  match s with
  | String c rest =>
      if Ascii.eqb c "_" then scanExponent rest e true
      else if isDigit c then
        scanExponent rest (if e <? 10000 then e * 10 + digitVal c else e) us
      else (e, us, s)
  | EmptyString => (e, us, s)
  end.

(** The exponent part, introduced by [e] in base 10 and by [p] in base
    16, where it is required: [None] when it is malformed, otherwise
    the exponent, whether an underscore was seen, and the text left. *)
Definition readExponent (hex : bool) (s : string) (us : bool)
  : option (Z * bool * string) :=
  let none := if hex then None else Some (0, us, s) in
  match s with
  | String c rest =>
      if Ascii.eqb (lower c) (if hex then "p" else "e") then
        let '(esign, rest) :=
          match rest with
          | String "+" r => (1, r)
          | String "-" r => (-1, r)
          | _ => (1, rest)
          end in
        match rest with
        | String d _ =>
            if isDigit d then
              let '(e, us, rest') := scanExponent rest 0 us in
              Some (e * esign, us, rest')
            else None
        | EmptyString => None
        end
      else none
  | EmptyString => none
  end.

(** What [underscoreOK] has last seen. *)
Inductive Saw : Type := SawBegin | SawDigit | SawUnderscore | SawOther.

Fixpoint underscoreLoop (hex : bool) (s : string) (saw : Saw) : bool :=
  match s with
  | EmptyString =>
      match saw with SawUnderscore => false | _ => true end
  | String c rest =>
      if isDigit c || (hex && isHexLetter c) then
        (* digits are always okay *)
        underscoreLoop hex rest SawDigit
      else if Ascii.eqb c "_" then
        (* underscore must follow digit *)
        match saw with
        | SawDigit => underscoreLoop hex rest SawUnderscore
        | _ => false
        end
      else
        (* underscore must also be followed by digit *)
        match saw with
        | SawUnderscore => false
        | _ => underscoreLoop hex rest SawOther
        end
  end.

(** [underscoreOK]: every underscore stands between two digits, or
    between a base prefix and a digit. *)
Definition underscoreOK (s : string) : bool :=
  let s :=
    match s with
    | String "-" r => r
    | String "+" r => r
    | _ => s
    end in
  match s with
  | String "0" (String x rest) =>
      if Ascii.eqb (lower x) "b" || Ascii.eqb (lower x) "o"
         || Ascii.eqb (lower x) "x"
      then underscoreLoop (Ascii.eqb (lower x) "x") rest SawDigit
      else underscoreLoop false s SawBegin
  | _ => underscoreLoop false s SawBegin
  end.

(** [readFloat]: an optional sign, [0x] when at least one byte
    follows it, digits with at most one point, an exponent.  The
    result is the sign, the base (true for 16), the digits read as one
    number, and the power of the base (of 2 in base 16) that scales
    them. *)
Definition readFloat (s : string) : option (bool * bool * Z * Z) :=
  let '(neg, s1) :=
    match s with
    | String "+" r => (false, r)
    | String "-" r => (true, r)
    | _ => (false, s)
    end in
  let '(hex, s2) :=
    match s1 with
    | String "0" (String x (String c r)) =>
        if Ascii.eqb (lower x) "x" then (true, String c r) else (false, s1)
    | _ => (false, s1)
    end in
  match scanMantissa hex s2 (mkDigits 0 0 0 false false false) with
  | None => None
  | Some (st, rest) =>
      if negb (sawdigits st) then None
      else
        let dp := if sawdot st then dp st else nd st in
        let dp := if hex then dp * 4 else dp in
        let ndMant := if hex then nd st * 4 else nd st in
        match readExponent hex rest (underscores st) with
        | Some (e, us, EmptyString) =>
            if us && negb (underscoreOK s) then None
            else
              Some (neg, hex, mantissa st,
                    if mantissa st =? 0 then 0 else dp + e - ndMant)
        | _ => None
        end
  end.

(** [strconv.ParseFloat(s, 64)]: the special names, then the decimal
    or hexadecimal text, rounded to the nearest [float64], ties to
    even.  A value too large for a [float64] is an error (the library
    returns an infinity together with [ErrRange]); a value too small
    rounds to zero.  The text of an error quotes the input with
    [strconv.Quote], which is given as [quote]. *)
Definition ParseFloat (quote : string -> string) (s : string)
  : result float64 :=
  match special s with
  | Some f => Ok f
  | None =>
      match readFloat s with
      | Some (neg, hex, mant, exp) =>
          match (if hex then hexToFloat neg mant exp
                 else decimalToFloat neg mant exp) with
          | S754_infinity _ =>
              Err ("strconv.ParseFloat: parsing " ++ quote s
                   ++ ": value out of range")
          | f => Ok f
          end
      | None =>
          Err ("strconv.ParseFloat: parsing " ++ quote s
               ++ ": invalid syntax")
      end
  end.

End GoFloat.

(** ** The run of a command

    A command emits events and either returns, calls [os.Exit] or
    panics.  [os.Exit] ends the process at once: the deferred calls of
    the function do not run.  A panic unwinds the function and runs
    them. *)
Module Runtime.

Inductive Stop : Type :=
| Exit (code : Z)
| Panic (msg : string).

Section WithEvents.
Context {E : Type}.

(** A computation yields a value or stops, and the events it emitted,
    oldest first. *)
Definition Cmd (A : Type) : Type := (A + Stop) * list E.

Definition ret {A} (a : A) : Cmd A := (inl a, []).

Definition bind {A B} (m : Cmd A) (k : A -> Cmd B) : Cmd B :=
  match m with
  | (inl a, t) => let '(r, t') := k a in (r, t ++ t')%list
  | (inr s, t) => (inr s, t)
  end.

Definition emit (e : E) : Cmd unit := (inl tt, [e]).

(** [os.Exit(code)] *)
Definition os_Exit {A} (code : Z) : Cmd A := (inr (Exit code), []).

Definition panic {A} (msg : string) : Cmd A := (inr (Panic msg), []).

(** [defer d] followed by [body]: [d] runs when [body] returns or
    panics, not when it exits the process. *)
Definition defer {A} (d : Cmd unit) (body : Cmd A) : Cmd A :=
  match body with
  | (inr (Exit code), t) => (inr (Exit code), t)
  | (r, t) =>
      match d with
      | (inl _, t') => (r, t ++ t')%list
      | (inr s, t') => (inr s, t ++ t')%list
      end
  end.

(** [l[i]], with the run-time bounds check. *)
Definition index (l : list string) (i : nat) : Cmd string :=
  match nth_error l i with
  | Some x => ret x
  | None =>
      panic ("runtime error: index out of range ["
             ++ GoStrings.FormatInt (Z.of_nat i) ++ "] with length "
             ++ GoStrings.FormatInt (Z.of_nat (List.length l)))
  end.

End WithEvents.

Arguments Cmd : clear implicits.

Declare Scope cmd_scope.
Delimit Scope cmd_scope with cmd.
Notation "x <- m ;; k" := (bind m (fun x => k))
  (at level 100, m at next level, right associativity) : cmd_scope.
Notation "' pat <- m ;; k" := (bind m (fun x => match x with pat => k end))
  (at level 100, pat pattern, m at next level, right associativity)
  : cmd_scope.
Notation "m ;; k" := (bind m (fun _ => k))
  (at level 100, right associativity) : cmd_scope.

End Runtime.

(** ** The remote service and the other collaborators *)
Module Ocm.
Import GoTime GoFloat.

(** [cmv1.ClusterState] is a string type. *)
Definition ClusterState := string.
Definition ClusterStateReady : ClusterState := "ready".

(** [cmv1.Value]: a number and its unit, each of them optional. *)
Record Value : Type := mkValue {
  valueOf : option float64;
  unitOf : option string
}.

(** The getters of a [*cmv1.Value], which accept the nil pointer. *)
Definition GetValue (nd : option Value) : float64 * bool :=
  match nd with
  | Some (mkValue (Some v) _) => (v, true)
  | _ => (S754_zero false, false)
  end.

Definition Value_ (nd : option Value) : float64 := fst (GetValue nd).

Definition Unit_ (nd : option Value) : string :=
  match nd with
  | Some (mkValue _ (Some u)) => u
  | _ => ""
  end.

(** [cmv1.Cluster], reduced to what the commands read of it. *)
Record Cluster : Type := mkCluster {
  ID : string;
  State : ClusterState;
  versionID : string;
  NodeDrainGracePeriod : option Value
}.

(** Modelled from the spec: [versions.GetVersionID], which is not among
    the sources; the identifier of the current version of the cluster,
    for which the available upgrades are asked. *)
Definition GetVersionID (cluster : Cluster) : string := versionID cluster.

(** [cmv1.UpgradePolicy], as built by the command and as returned for an
    existing schedule. *)
Record UpgradePolicy : Type := mkUpgradePolicy {
  ScheduleType : string;
  Version : string;
  NextRun : Time
}.

(** The body of the cluster update: a cluster that carries nothing but
    the node-drain grace period. *)
Record ClusterSpec : Type := mkClusterSpec {
  specNodeDrainGracePeriod : Value
}.

(** [interactive.Input] *)
Record Input : Type := mkInput {
  Question : string;
  Help : string;
  Options : list string;
  Default : string;
  Required : bool
}.

Inductive Level : Type := LError | LWarn | LInfo | LDebug.

(** What a run does that can be observed from outside. *)
Inductive Event : Type :=
| Report (level : Level) (msg : string)
| AwsNewClient
| AwsGetCreator
| OcmNewConnection
| OcmClose
| OcmGetCluster (key creatorARN : string)
| OcmGetScheduledUpgrade (clusterID : string)
| OcmGetAvailableUpgrades (version : string)
| AskOption (input : Input)
| AskString (input : Input)
| AskConfirm (prompt : string)
| AddUpgradePolicy (clusterID : string) (body : UpgradePolicy)
| UpdateCluster (clusterID : string) (body : ClusterSpec)
| DeleteGroupUser (clusterID group username : string).

(** Everything a command obtains from outside: the answers of the
    cloud provider, of the remote service and of the operator, and the
    clock.  The commands use the helpers behind these answers
    ([ocm.GetCluster], [upgrades.GetScheduledUpgrade],
    [versions.GetAvailableUpgrades], [interactive.Enabled], [GetOption]
    and [GetString], [confirm.Confirm]) as black boxes; a world fixes
    what each of them answers.  The reporter and the logger are taken to
    be created. *)
Record World : Type := mkWorld {
  awsBuild : result unit;
  awsGetCreator : result string;
  ocmBuild : result unit;
  ocmClose : option error;
  getCluster : string -> string -> result Cluster;
  getScheduledUpgrade : string -> result (option UpgradePolicy);
  getAvailableUpgrades : string -> result (list string);
  interactiveEnabled : bool;
  getOption : Input -> result string;
  getString : Input -> result string;
  confirm : string -> bool;
  timeNow : Time;
  sendAddUpgradePolicy : string -> UpgradePolicy -> result unit;
  sendUpdateCluster : string -> ClusterSpec -> result unit;
  (** the error and the reason of the response, when the call fails *)
  sendDeleteGroupUser : string -> string -> string -> option (error * string);
  (** [strconv.Quote], which the errors of [strconv] apply to their
      input; its escapes rest on the library's tables of printable
      runes, and it is taken as given *)
  quote : string -> string
}.

Definition isKeyChar (c : ascii) : bool :=
  let n := Z.of_nat (nat_of_ascii c) in
  ((65 <=? n) && (n <=? 90)) || ((97 <=? n) && (n <=? 122))
  || ((48 <=? n) && (n <=? 57)) || (n =? 45) || (n =? 95).

Fixpoint allKeyChars (s : string) : bool :=
  match s with
  | EmptyString => true
  | String c rest => isKeyChar c && allKeyChars rest
  end.

(** Modelled from the spec: [IsValidClusterKey] of [pkg/cluster] and
    [pkg/ocm], which is not among the sources: true iff the key is not
    empty and holds only letters, digits, dashes and underscores. *)
Definition IsValidClusterKey (s : string) : bool :=
  negb (String.eqb s "") && allKeyChars s.

(** Modelled from the spec: [ocm.IsValidUsername], which is not among
    the sources; the same test as for cluster keys. *)
Definition IsValidUsername (s : string) : bool :=
  negb (String.eqb s "") && allKeyChars s.

Section Actions.
Import Runtime.
Local Open Scope cmd_scope.

Definition M := Cmd Event.

Definition Errorf (msg : string) : M unit := emit (Report LError msg).
Definition Warnf (msg : string) : M unit := emit (Report LWarn msg).
Definition Infof (msg : string) : M unit := emit (Report LInfo msg).
Definition Debugf (msg : string) : M unit := emit (Report LDebug msg).

(** An outside call: the event, then the answer of the world. *)
Definition call {A} (e : Event) (answer : A) : M A :=
  emit e ;; ret answer.

(** An [if] without [else]. *)
Definition when (b : bool) (m : M unit) : M unit :=
  if b then m else ret tt.

(** The idiom [if err != nil { reporter.Errorf(...); os.Exit(1) }]. *)
Definition orExit {A} (r : result A) (msg : error -> string) : M A :=
  match r with
  | Ok a => ret a
  | Err e => Errorf (msg e) ;; os_Exit 1
  end.

(** The deferred function of both commands. *)
Definition closeConnection (w : World) : M unit :=
  err <- call OcmClose (ocmClose w) ;;
  match err with
  | Some e => Errorf ("Failed to close OCM connection: " ++ e)
  | None => ret tt
  end.

End Actions.

End Ocm.

(** ** [upgrade cluster] *)
Module UpgradeCluster.
Import GoStrings GoTime GoFloat Runtime Ocm.
Local Open Scope cmd_scope.

(** The flags of the command.  [--node-drain-grace-period] is [None]
    when it was not passed; its value is then the default of the flag. *)
Record Args : Type := mkArgs {
  clusterKey : string;
  version : string;
  scheduleDate : string;
  scheduleTime : string;
  nodeDrainGracePeriodFlag : option string
}.

Definition nodeDrainGracePeriod (a : Args) : string :=
  match nodeDrainGracePeriodFlag a with
  | Some s => s
  | None => "1 hour"
  end.

(** [cmd.Flags().Changed("node-drain-grace-period")] *)
Definition nodeDrainGracePeriodChanged (a : Args) : bool :=
  match nodeDrainGracePeriodFlag a with
  | Some _ => true
  | None => false
  end.

Definition newline : string := String (ascii_of_nat 10) "".

Definition versionUsage : string :=
  "Version of OpenShift that the cluster will be upgraded to".

Definition nodeDrainUsage : string :=
  "You may set a grace period for how long Pod Disruption Budget-protected workloads will be "
  ++ "respected during upgrades." ++ newline
  ++ "After this grace period, any workloads protected by Pod Disruption "
  ++ "Budgets that have not been successfully drained from a node will be forcibly evicted".

Definition nodeDrainOptions : list string :=
  ["15 minutes"; "30 minutes"; "45 minutes"; "1 hour"; "2 hours";
   "4 hours"; "8 hours"].

Definition isErr {A} (r : result A) : bool :=
  match r with Ok _ => false | Err _ => true end.

(** The version to upgrade to: the flag, or the first available
    version, or the operator's choice; it has to be an available one. *)
Definition resolveVersion (w : World) (a : Args)
  (availableUpgrades : list string) : M string :=
  let version := version a in
  version <-
    (if String.eqb version "" || interactiveEnabled w then
       version <-
         (if String.eqb version "" then index availableUpgrades 0
          else ret version) ;;
       let input :=
         mkInput "Version" versionUsage availableUpgrades version true in
       r <- call (AskOption input) (getOption w input) ;;
       orExit r (fun e => "Expected a valid version to upgrade to: " ++ e)
     else ret version) ;;
  (* Check that the version is valid *)
  let validVersion :=
    existsb (fun v => String.eqb v version) availableUpgrades in
  when (negb validVersion)
    (Errorf "Expected a valid version to upgrade to" ;; os_Exit 1) ;;
  ret version.

(** The next run: ten minutes from now unless the flags or the
    operator say otherwise. *)
Definition resolveSchedule (w : World) (a : Args) : M Time :=
  (* Set the default next run within the next 10 minutes *)
  let now := Add (UTC (timeNow w)) (Minute * 10) in
  let scheduleDate :=
    if String.eqb (scheduleDate a) "" then Format now layoutDate
    else scheduleDate a in
  let scheduleTime :=
    if String.eqb (scheduleTime a) "" then Format now layoutClock
    else scheduleTime a in
  '(scheduleDate, scheduleTime) <-
    (if interactiveEnabled w then
       (* If datetimes are set, use them in the interactive form,
          otherwise fallback to 'now' *)
       let scheduleParsed :=
         match Parse layoutDateClock (scheduleDate ++ " " ++ scheduleTime) with
         | Ok t => t
         | Err _ => now
         end in
       let scheduleDate := Format scheduleParsed layoutDate in
       let scheduleTime := Format scheduleParsed layoutClock in
       let input :=
         mkInput "Please input desired date in format yyyy-mm-dd" "" []
                 scheduleDate true in
       r <- call (AskString input) (getString w input) ;;
       scheduleDate <- orExit r (fun e => "Expected a valid date: " ++ e) ;;
       when (isErr (Parse layoutDate scheduleDate))
         (Errorf ("Date format '" ++ scheduleDate ++ "' invalid") ;;
          os_Exit 1) ;;
       let input :=
         mkInput "Please input desired UTC time in format HH:mm" "" []
                 scheduleTime true in
       r <- call (AskString input) (getString w input) ;;
       scheduleTime <- orExit r (fun e => "Expected a valid time: " ++ e) ;;
       when (isErr (Parse layoutClock scheduleTime))
         (Errorf ("Time format '" ++ scheduleTime ++ "' invalid") ;;
          os_Exit 1) ;;
       ret (scheduleDate, scheduleTime)
     else ret (scheduleDate, scheduleTime)) ;;
  (* Parse next run to time.Time *)
  orExit (Parse layoutDateClock (scheduleDate ++ " " ++ scheduleTime))
         (fun e => "Time format invalid: " ++ e).

(** The grace period the cluster already has, rendered as text; empty
    when the cluster has none. *)
Definition storedNodeDrain (cluster : Cluster) : string :=
  let nd := NodeDrainGracePeriod cluster in
  if snd (GetValue nd) then
    (* Convert larger times to hours, since the API only stores minutes *)
    let val := toInt (Value_ nd) in
    let unit := Unit_ nd in
    let '(val, unit) :=
      if 60 <=? val then
        let val := Z.quot val 60 in
        (val, if val =? 1 then "hour" else "hours")
      else (val, unit) in
    FormatInt val ++ " " ++ unit
  else "".

(** The text of the grace period to submit. *)
Definition resolveNodeDrain (w : World) (a : Args) (cluster : Cluster)
  : M string :=
  let nodeDrain := storedNodeDrain cluster in
  (* If node drain grace period is not set, or the user sent it as a
     CLI argument, use that instead *)
  let nodeDrain :=
    if String.eqb nodeDrain "" || nodeDrainGracePeriodChanged a
    then nodeDrainGracePeriod a else nodeDrain in
  if interactiveEnabled w then
    let input :=
      mkInput "Node draining" nodeDrainUsage nodeDrainOptions nodeDrain
              true in
    r <- call (AskOption input) (getOption w input) ;;
    orExit r (fun e => "Expected a valid node drain grace period: " ++ e)
  else ret nodeDrain.

(** The grace period in minutes. *)
Definition parseNodeDrain (w : World) (nodeDrainGracePeriod : string)
  : M float64 :=
  let nodeDrainParsed := Split nodeDrainGracePeriod " " in
  numberText <- index nodeDrainParsed 0 ;;
  nodeDrainValue <-
    orExit (ParseFloat (quote w) numberText)
           (fun e => "Expected a valid node drain grace period: " ++ e) ;;
  unitText <- index nodeDrainParsed 1 ;;
  ret (if String.eqb unitText "hours" || String.eqb unitText "hour"
       then mul nodeDrainValue (ofInt 60)
       else nodeDrainValue).

(** The builders of the SDK only assemble their fields. *)
Definition buildClusterSpec (minutes : float64) : result ClusterSpec :=
  Ok (mkClusterSpec (mkValue (Some minutes) (Some "minutes"))).

Definition buildUpgradePolicy (version : string) (nextRun : Time)
  : result UpgradePolicy :=
  Ok (mkUpgradePolicy "manual" version nextRun).

(** The two requests, the policy first. *)
Definition submit (w : World) (clusterKey : string) (cluster : Cluster)
  (upgradePolicy : UpgradePolicy) (clusterSpec : ClusterSpec) : M unit :=
  r <- call (AddUpgradePolicy (ID cluster) upgradePolicy)
            (sendAddUpgradePolicy w (ID cluster) upgradePolicy) ;;
  orExit r (fun e => "Failed to schedule upgrade for cluster '"
                     ++ clusterKey ++ "': " ++ e) ;;
  r <- call (UpdateCluster (ID cluster) clusterSpec)
            (sendUpdateCluster w (ID cluster) clusterSpec) ;;
  orExit r (fun e => "Failed to update cluster '" ++ clusterKey ++ "': " ++ e).

(** What [run] does once the connection is open. *)
Definition connected (w : World) (a : Args) (creatorARN : string) : M unit :=
  let clusterKey := clusterKey a in
  (* Try to find the cluster: *)
  Debugf ("Loading cluster '" ++ clusterKey ++ "'") ;;
  r <- call (OcmGetCluster clusterKey creatorARN)
            (getCluster w clusterKey creatorARN) ;;
  cluster <- orExit r (fun e => "Failed to get cluster '" ++ clusterKey
                                ++ "': " ++ e) ;;
  when (negb (String.eqb (State cluster) ClusterStateReady))
    (Errorf ("Cluster '" ++ clusterKey ++ "' is not yet ready") ;;
     os_Exit 1) ;;
  r <- call (OcmGetScheduledUpgrade (ID cluster))
            (getScheduledUpgrade w (ID cluster)) ;;
  scheduledUpgrade <-
    orExit r (fun e => "Failed to get scheduled upgrades for cluster '"
                       ++ clusterKey ++ "': " ++ e) ;;
  match scheduledUpgrade with
  | Some scheduled =>
      Warnf ("There is already a scheduled upgrade to version "
             ++ Version scheduled ++ " on "
             ++ Format (NextRun scheduled) layoutDateClockZone) ;;
      os_Exit 0
  | None => ret tt
  end ;;
  r <- call (OcmGetAvailableUpgrades (GetVersionID cluster))
            (getAvailableUpgrades w (GetVersionID cluster)) ;;
  availableUpgrades <-
    orExit r (fun e => "Failed to find available upgrades: " ++ e) ;;
  when (Nat.eqb (List.length availableUpgrades) 0)
    (Warnf "There are no available upgrades" ;; os_Exit 0) ;;
  version <- resolveVersion w a availableUpgrades ;;
  nextRun <- resolveSchedule w a ;;
  nodeDrainGracePeriod <- resolveNodeDrain w a cluster ;;
  nodeDrainValue <- parseNodeDrain w nodeDrainGracePeriod ;;
  clusterSpec <-
    orExit (buildClusterSpec nodeDrainValue)
           (fun e => "Failed to update cluster '" ++ clusterKey ++ "': " ++ e) ;;
  upgradePolicy <-
    orExit (buildUpgradePolicy version nextRun)
           (fun e => "Failed to schedule upgrade for cluster '"
                     ++ clusterKey ++ "': " ++ e) ;;
  submit w clusterKey cluster upgradePolicy clusterSpec ;;
  Infof ("Upgrade successfully scheduled for cluster '" ++ clusterKey ++ "'").

(** [func run] of the upgrade command. *)
Definition run (w : World) (a : Args) : M unit :=
  (* Check that the cluster key (name, identifier or external
     identifier) given by the user is reasonably safe *)
  let clusterKey := clusterKey a in
  when (negb (IsValidClusterKey clusterKey))
    (Errorf ("Cluster name, identifier or external identifier '"
             ++ clusterKey ++ "' isn't valid: it "
             ++ "must contain only letters, digits, dashes and underscores") ;;
     os_Exit 1) ;;
  (* Create the AWS client: *)
  r <- call AwsNewClient (awsBuild w) ;;
  orExit r (fun e => "Failed to create AWS client: " ++ e) ;;
  r <- call AwsGetCreator (awsGetCreator w) ;;
  creatorARN <- orExit r (fun e => "Failed to get AWS creator: " ++ e) ;;
  (* Create the client for the OCM API: *)
  r <- call OcmNewConnection (ocmBuild w) ;;
  orExit r (fun e => "Failed to create OCM connection: " ++ e) ;;
  defer (closeConnection w) (connected w a creatorARN).

End UpgradeCluster.

(** ** [revoke user] *)
Module RevokeUser.
Import GoStrings Runtime Ocm.
Local Open Scope cmd_scope.

Record Args : Type := mkArgs {
  clusterKey : string;
  username : string
}.

Definition validRoles : list string := ["cluster-admins"; "dedicated-admins"].
Definition validRolesAliases : list string :=
  ["cluster-admin"; "dedicated-admin"].

(** The loop over the aliases: a role equal to an alias gets its [s]. *)
Definition canonicalRole (role : string) : string :=
  fold_left
    (fun role validAlias =>
       if String.eqb role validAlias then role ++ "s" else role)
    validRolesAliases role.

(** The loop over the valid roles. *)
Definition isRoleValid (role : string) : bool :=
  fold_left
    (fun valid validRole =>
       if String.eqb role validRole then true else valid)
    validRoles false.

(** What [run] does once the connection is open. *)
Definition connected (w : World) (a : Args) (role creatorARN : string)
  : M unit :=
  let clusterKey := clusterKey a in
  let username := username a in
  (* Try to find the cluster: *)
  Debugf ("Loading cluster '" ++ clusterKey ++ "'") ;;
  r <- call (OcmGetCluster clusterKey creatorARN)
            (getCluster w clusterKey creatorARN) ;;
  cluster <- orExit r (fun e => "Failed to get cluster '" ++ clusterKey
                                ++ "': " ++ e) ;;
  let prompt := "revoke role " ++ role ++ " from user " ++ username
                ++ " in cluster " ++ clusterKey in
  yes <- call (AskConfirm prompt) (confirm w prompt) ;;
  when (negb yes) (os_Exit 0) ;;
  Debugf ("Removing user '" ++ username ++ "' from group '" ++ role
          ++ "' in cluster '" ++ clusterKey ++ "'") ;;
  res <- call (DeleteGroupUser (ID cluster) role username)
              (sendDeleteGroupUser w (ID cluster) role username) ;;
  match res with
  | Some (err, reason) =>
      Debugf err ;;
      Errorf ("Failed to revoke '" ++ role ++ "' from user '" ++ username
              ++ "' in cluster '" ++ clusterKey ++ "': " ++ reason) ;;
      os_Exit 1
  | None => ret tt
  end.

(** [func run] of the revoke command; [argv] holds the positional
    arguments. *)
Definition run (w : World) (a : Args) (argv : list string) : M unit :=
  let clusterKey := clusterKey a in
  when (negb (IsValidClusterKey clusterKey))
    (Errorf ("Cluster name, identifier or external identifier '"
             ++ clusterKey ++ "' isn't valid: it "
             ++ "must contain only letters, digits, dashes and underscores") ;;
     os_Exit 1) ;;
  let username := username a in
  when (negb (IsValidUsername username))
    (Errorf ("username '" ++ username ++ "' isn't valid: it must contain "
             ++ "only letters, digits, dashes and underscores") ;;
     os_Exit 1) ;;
  when (negb (Nat.eqb (List.length argv) 1))
    (Errorf ("Expected exactly one command line argument or flag containing the name "
             ++ "of the group or role to grant the user.") ;;
     os_Exit 1) ;;
  role <- index argv 0 ;;
  (* Allow role aliases *)
  let role := canonicalRole role in
  (* Determine if role is valid *)
  when (negb (isRoleValid role))
    (Errorf ("Expected at least one of " ++ FormatStrings validRoles)) ;;
  (* Create the AWS client: *)
  r <- call AwsNewClient (awsBuild w) ;;
  orExit r (fun e => "Failed to create AWS client: " ++ e) ;;
  r <- call AwsGetCreator (awsGetCreator w) ;;
  creatorARN <- orExit r (fun e => "Failed to get AWS creator: " ++ e) ;;
  (* Create the client for the OCM API: *)
  r <- call OcmNewConnection (ocmBuild w) ;;
  orExit r (fun e => "Failed to create OCM connection: " ++ e) ;;
  defer (closeConnection w) (connected w a role creatorARN).

End RevokeUser.

(** ** Scenarios

    Concrete worlds on which the commands are run. *)
Module Scenario.
Import GoTime GoFloat Ocm.

Definition readyCluster : Cluster :=
  mkCluster "1a2b3c" ClusterStateReady "openshift-v4.5.19" None.

Definition installingCluster : Cluster :=
  mkCluster "1a2b3c" "installing" "openshift-v4.5.19" None.

(** 2020-11-23 09:41:17.25 UTC, read on a clock two hours east. *)
Definition clock : Time := mkTime 1606124477 250000000 "CET" 7200.

(** A ready cluster that stores a grace period of [v] minutes. *)
Definition drainingCluster (v : Z) : Cluster :=
  mkCluster "1a2b3c" ClusterStateReady "openshift-v4.5.19"
            (Some (mkValue (Some (ofInt v)) (Some "minutes"))).

Definition arn : string := "arn:aws:iam::123456789012:user/admin".

(** [strconv.Quote] on the texts of the scenarios, which hold nothing
    but printable ASCII without quotes and backslashes: the text
    between two quotes. *)
Definition quotePlain (s : string) : string :=
  let q := String (ascii_of_nat 34) "" in q ++ s ++ q.

(** Every call succeeds, the operator accepts every default and
    confirms, the cluster is ready and has no upgrade scheduled. *)
Definition world : World :=
  mkWorld (Ok tt) (Ok arn) (Ok tt) None
          (fun _ _ => Ok readyCluster)
          (fun _ => Ok None)
          (fun _ => Ok ["4.5.20"; "4.5.21"])
          false
          (fun input => Ok (Default input))
          (fun input => Ok (Default input))
          (fun _ => true)
          clock
          (fun _ _ => Ok tt)
          (fun _ _ => Ok tt)
          (fun _ _ _ => None)
          quotePlain.

Definition withCluster (w : World) (c : result Cluster) : World :=
  mkWorld (awsBuild w) (awsGetCreator w) (ocmBuild w) (ocmClose w)
          (fun _ _ => c)
          (getScheduledUpgrade w) (getAvailableUpgrades w)
          (interactiveEnabled w) (getOption w) (getString w) (confirm w)
          (timeNow w) (sendAddUpgradePolicy w) (sendUpdateCluster w)
          (sendDeleteGroupUser w) (quote w).

Definition withScheduled (w : World) (s : option UpgradePolicy) : World :=
  mkWorld (awsBuild w) (awsGetCreator w) (ocmBuild w) (ocmClose w)
          (getCluster w)
          (fun _ => Ok s) (getAvailableUpgrades w)
          (interactiveEnabled w) (getOption w) (getString w) (confirm w)
          (timeNow w) (sendAddUpgradePolicy w) (sendUpdateCluster w)
          (sendDeleteGroupUser w) (quote w).

(** The operator is prompted and picks the first option of every
    list, and keeps the default of every free-text question. *)
Definition interactiveWorld (w : World) : World :=
  mkWorld (awsBuild w) (awsGetCreator w) (ocmBuild w) (ocmClose w)
          (getCluster w)
          (getScheduledUpgrade w) (getAvailableUpgrades w)
          true
          (fun input => Ok (hd (Default input) (Options input)))
          (getString w) (confirm w)
          (timeNow w) (sendAddUpgradePolicy w) (sendUpdateCluster w)
          (sendDeleteGroupUser w) (quote w).

Definition withSubmission (w : World) (add update : result unit) : World :=
  mkWorld (awsBuild w) (awsGetCreator w) (ocmBuild w) (ocmClose w)
          (getCluster w)
          (getScheduledUpgrade w) (getAvailableUpgrades w)
          (interactiveEnabled w) (getOption w) (getString w) (confirm w)
          (timeNow w) (fun _ _ => add) (fun _ _ => update)
          (sendDeleteGroupUser w) (quote w).

Definition upgradeArgs : UpgradeCluster.Args :=
  UpgradeCluster.mkArgs "mycluster" "4.5.20" "" "" None.

(** The same flags with a version that is not available. *)
Definition staleArgs : UpgradeCluster.Args :=
  UpgradeCluster.mkArgs "mycluster" "9.9.9" "" "" None.

(** The same flags with a grace period that has no unit. *)
Definition bareNumberArgs : UpgradeCluster.Args :=
  UpgradeCluster.mkArgs "mycluster" "4.5.20" "" "" (Some "60").

(** An upgrade to 4.5.19 scheduled for 2020-11-24 03:00 UTC. *)
Definition scheduled : UpgradePolicy :=
  mkUpgradePolicy "manual" "4.5.19" (mkTime 1606186800 0 "UTC" 0).


Definition revokeArgs : RevokeUser.Args :=
  RevokeUser.mkArgs "mycluster" "myusername".

End Scenario.

(** ** Observations on a run *)
Module Observe.
Import Runtime Ocm.

Definition outcome {A} (m : M A) : A + Stop := fst m.
Definition trace {A} (m : M A) : list Event := snd m.

(** The requests that change the remote service. *)
Definition isMutation (e : Event) : bool :=
  match e with
  | AddUpgradePolicy _ _ | UpdateCluster _ _ | DeleteGroupUser _ _ _ => true
  | _ => false
  end.

Definition noMutation (t : list Event) : Prop :=
  Forall (fun e => isMutation e = false) t.

Definition mutations (t : list Event) : list Event := filter isMutation t.

Definition isErrorReport (e : Event) : bool :=
  match e with
  | Report LError _ => true
  | _ => false
  end.

(** [m] is [tail] run after the events [pre]. *)
Definition after {A} (pre : list Event) (tail : M A) : M A :=
  (fst tail, (pre ++ snd tail)%list).

(** A run either stops before any mutation, or gets to a computation
    in [T] without having issued a mutation. *)
Definition Shape {A} (T : M A -> Prop) (m : M A) : Prop :=
  (exists s t, m = (inr s, t) /\ noMutation t)
  \/ (exists pre tail, T tail /\ noMutation pre /\ m = after pre tail).

(** The events of both commands up to the open connection. *)
Definition prelude : list Event :=
  [AwsNewClient; AwsGetCreator; OcmNewConnection].

(** [tail] is the submission step of the upgrade command, reached with
    the values the earlier steps resolved. *)
Definition Submits (w : World) (a : UpgradeCluster.Args) (arn : string)
  (tail : M unit) : Prop :=
  exists cl avail version nextRun nodeDrain minutes,
    getCluster w (UpgradeCluster.clusterKey a) arn = Ok cl /\
    State cl = ClusterStateReady /\
    getScheduledUpgrade w (ID cl) = Ok None /\
    getAvailableUpgrades w (GetVersionID cl) = Ok avail /\
    fst (UpgradeCluster.resolveVersion w a avail) = inl version /\
    fst (UpgradeCluster.resolveSchedule w a) = inl nextRun /\
    fst (UpgradeCluster.resolveNodeDrain w a cl) = inl nodeDrain /\
    fst (UpgradeCluster.parseNodeDrain w nodeDrain) = inl minutes /\
    tail =
      bind (UpgradeCluster.submit w (UpgradeCluster.clusterKey a) cl
              (mkUpgradePolicy "manual" version nextRun)
              (mkClusterSpec (mkValue (Some minutes) (Some "minutes"))))
           (fun _ => Infof ("Upgrade successfully scheduled for cluster '"
                            ++ UpgradeCluster.clusterKey a ++ "'")).

End Observe.

(** ** Checks over a finite range *)
Module Range.

(** [P] holds of the [n] integers from [lo] on. *)
Fixpoint allFrom (n : nat) (lo : Z) (P : Z -> bool) : bool :=
  match n with
  | O => true
  | S k => P lo && allFrom k (lo + 1) P
  end.

(** [P] holds of every integer from 0 up to [n], [n] excluded. *)
Definition allBelow (n : Z) (P : Z -> bool) : bool :=
  allFrom (Z.to_nat n) 0 P.

(** The checks of the calendar on day [yday] of a year: the date is a
    valid one and it is the date of that day. *)
Definition yearDayOk (leap : bool) (yday : Z) : bool :=
  let '(m, d) := GoTime.monthDay leap yday in
  (1 <=? m) && (m <=? 12) && (1 <=? d)
  && (d <=? (if (m =? 2) && leap then 29
             else GoTime.daysBefore m - GoTime.daysBefore (m - 1)))
  && (GoTime.daysBefore (m - 1) + (if leap && (3 <=? m) then 1 else 0)
      + (d - 1) =? yday).

(** The bytes of the decimal digits. *)
Definition digitOk (d : Z) : bool :=
  GoStrings.isDigit (GoStrings.digitChar d)
  && (GoStrings.digitVal (GoStrings.digitChar d) =? d)
  && negb (Ascii.eqb (GoStrings.digitChar d) " ").

End Range.

(** ** Further observations on a run *)
Module Behaviour.
Import Runtime Ocm Observe.

Definition isClose (e : Event) : bool :=
  match e with
  | OcmClose => true
  | _ => false
  end.

(** The questions put to the operator. *)
Definition isPrompt (e : Event) : bool :=
  match e with
  | AskOption _ | AskString _ | AskConfirm _ => true
  | _ => false
  end.

(** Every event of [t] passes the test [p]. *)
Definition Only (p : Event -> bool) (t : list Event) : Prop :=
  Forall (fun e => p e = true) t.

(** A panic of [m], if there is one, carries a message in [Q]. *)
Definition PanicsWith {A} (Q : string -> Prop) (m : M A) : Prop :=
  forall msg, fst m = inr (Panic msg) -> Q msg.

(** The message of the read of a second element in a slice of one. *)
Definition indexPanic : string :=
  "runtime error: index out of range [1] with length 1".

(** What the deferred function emits: the close, and the report of its
    failure. *)
Definition closeEvents (w : World) : list Event :=
  OcmClose ::
  match ocmClose w with
  | Some e => [Report LError ("Failed to close OCM connection: " ++ e)]
  | None => []
  end.

(** What the upgrade command does once it has a ready cluster without
    a schedule and a list of available upgrades that is not empty: the
    rest of [connected]. *)
Definition resolved (w : World) (a : UpgradeCluster.Args) (cluster : Cluster)
  (availableUpgrades : list string) : M unit :=
  let clusterKey := UpgradeCluster.clusterKey a in
  bind (UpgradeCluster.resolveVersion w a availableUpgrades) (fun version =>
  bind (UpgradeCluster.resolveSchedule w a) (fun nextRun =>
  bind (UpgradeCluster.resolveNodeDrain w a cluster) (fun nodeDrainGracePeriod =>
  bind (UpgradeCluster.parseNodeDrain w nodeDrainGracePeriod) (fun nodeDrainValue =>
  bind (orExit (UpgradeCluster.buildClusterSpec nodeDrainValue)
          (fun e => "Failed to update cluster '" ++ clusterKey ++ "': " ++ e))
       (fun clusterSpec =>
  bind (orExit (UpgradeCluster.buildUpgradePolicy version nextRun)
          (fun e => "Failed to schedule upgrade for cluster '"
                    ++ clusterKey ++ "': " ++ e))
       (fun upgradePolicy =>
  bind (UpgradeCluster.submit w clusterKey cluster upgradePolicy clusterSpec)
       (fun _ =>
  Infof ("Upgrade successfully scheduled for cluster '" ++ clusterKey
         ++ "'")))))))).

(** The events of [connected] before [resolved]. *)
Definition lookups (a : UpgradeCluster.Args) (arn : string) (cluster : Cluster)
  : list Event :=
  [Report LDebug ("Loading cluster '" ++ UpgradeCluster.clusterKey a ++ "'");
   OcmGetCluster (UpgradeCluster.clusterKey a) arn;
   OcmGetScheduledUpgrade (ID cluster);
   OcmGetAvailableUpgrades (GetVersionID cluster)].

(** The level of the report that goes before an exit: a warning before
    code 0, an error before the others. *)
Definition exitLevel (code : Z) : Level :=
  if code =? 0 then LWarn else LError.

(** An exit of [m], if there is one, has code 0 or 1 and comes right
    after a report of the level of its code. *)
Definition ExitsReported {A} (m : M A) : Prop :=
  forall code, fst m = inr (Exit code) ->
    (code = 0 \/ code = 1)
    /\ exists t msg, snd m = (t ++ [Report (exitLevel code) msg])%list.

(** The events on the way to the open connection: the reports and the
    three calls of [prelude]. *)
Definition isOpening (e : Event) : bool :=
  match e with
  | Report _ _ | AwsNewClient | AwsGetCreator | OcmNewConnection => true
  | _ => false
  end.

(** What the revoke command says about a role that is not valid. *)
Definition roleReport (role : string) : list Event :=
  if RevokeUser.isRoleValid role then []
  else [Report LError ("Expected at least one of "
                       ++ GoStrings.FormatStrings RevokeUser.validRoles)].

(** The text of the confirmation the revoke command asks for. *)
Definition revokePrompt (a : RevokeUser.Args) (role : string) : string :=
  "revoke role " ++ role ++ " from user " ++ RevokeUser.username a
  ++ " in cluster " ++ RevokeUser.clusterKey a.

(** The events of the revoke command from the open connection to the
    question. *)
Definition revokeLookup (a : RevokeUser.Args) (arn role : string)
  : list Event :=
  [Report LDebug ("Loading cluster '" ++ RevokeUser.clusterKey a ++ "'");
   OcmGetCluster (RevokeUser.clusterKey a) arn;
   AskConfirm (revokePrompt a role)].

(** The delete request and the report that goes before it. *)
Definition revokeRequest (a : RevokeUser.Args) (cluster : Cluster)
  (role : string) : list Event :=
  [Report LDebug ("Removing user '" ++ RevokeUser.username a
                  ++ "' from group '" ++ role ++ "' in cluster '"
                  ++ RevokeUser.clusterKey a ++ "'");
   DeleteGroupUser (ID cluster) role (RevokeUser.username a)].

End Behaviour.

(** ** Further scenarios *)
Module Cases.
Import GoTime GoFloat Ocm.

Definition withAvailable (w : World) (l : result (list string)) : World :=
  mkWorld (awsBuild w) (awsGetCreator w) (ocmBuild w) (ocmClose w)
          (getCluster w) (getScheduledUpgrade w) (fun _ => l)
          (interactiveEnabled w) (getOption w) (getString w) (confirm w)
          (timeNow w) (sendAddUpgradePolicy w) (sendUpdateCluster w)
          (sendDeleteGroupUser w) (quote w).

(** 45.5 as a [float64]: 91 halves. *)
Definition fortyFiveAndAHalf : float64 :=
  S754_finite false 6403555720167424 (-47).

(** A ready cluster that stores a grace period of 45.5 minutes. *)
Definition fractionalCluster : Cluster :=
  mkCluster "1a2b3c" ClusterStateReady "openshift-v4.5.19"
            (Some (mkValue (Some fortyFiveAndAHalf) (Some "minutes"))).

(** The operator is prompted and keeps the default of every question. *)
Definition keepingDefaults (w : World) : World :=
  mkWorld (awsBuild w) (awsGetCreator w) (ocmBuild w) (ocmClose w)
          (getCluster w) (getScheduledUpgrade w) (getAvailableUpgrades w)
          true
          (fun input => Ok (Default input))
          (getString w) (confirm w)
          (timeNow w) (sendAddUpgradePolicy w) (sendUpdateCluster w)
          (sendDeleteGroupUser w) (quote w).

(** No [--version]. *)
Definition noVersionArgs : UpgradeCluster.Args :=
  UpgradeCluster.mkArgs "mycluster" "" "" "" None.

(** Both schedule flags. *)
Definition scheduledArgs (date time : string) : UpgradeCluster.Args :=
  UpgradeCluster.mkArgs "mycluster" "4.5.20" date time None.

(** The grace-period flag. *)
Definition graceArgs (grace : string) : UpgradeCluster.Args :=
  UpgradeCluster.mkArgs "mycluster" "4.5.20" "" "" (Some grace).

End Cases.

(** * Properties *)

Import GoStrings GoTime GoFloat Runtime Ocm Observe.

(** ** The monad *)

Lemma bind_ret_l {A B} (a : A) (k : A -> M B) t :
  bind ((inl a, t) : M A) k = after t (k a).
Proof. unfold bind, after. destruct (k a); reflexivity. Qed.

Lemma bind_stop {A B} (s : Stop) (k : A -> M B) t :
  bind ((inr s, t) : M A) k = (inr s, t).
Proof. reflexivity. Qed.

Lemma after_nil {A} (m : M A) : after [] m = m.
Proof. destruct m; reflexivity. Qed.

Lemma bind_ret {A B} (a : A) (k : A -> M B) : bind (ret a) k = k a.
Proof. unfold ret. rewrite bind_ret_l. apply after_nil. Qed.

Lemma noMutation_app t1 t2 :
  noMutation t1 -> noMutation t2 -> noMutation (t1 ++ t2).
Proof. unfold noMutation. intros. apply Forall_app. split; assumption. Qed.

Lemma noMutation_bind {A B} (m : M A) (k : A -> M B) :
  noMutation (snd m) -> (forall a, fst m = inl a -> noMutation (snd (k a))) ->
  noMutation (snd (bind m k)).
Proof.
  destruct m as [[a | s] t]; simpl; intros Ht Hk.
  - specialize (Hk a eq_refl). destruct (k a) as [r t']. simpl in *.
    apply noMutation_app; assumption.
  - assumption.
Qed.

Lemma noMutation_orExit {A} (r : result A) msg :
  noMutation (snd (orExit r msg)).
Proof. destruct r; simpl; repeat constructor. Qed.

Lemma noMutation_when b (m : M unit) :
  noMutation (snd m) -> noMutation (snd (when b m)).
Proof. destruct b; simpl; [trivial | constructor]. Qed.

Lemma noMutation_index l i : noMutation (snd (index (E:=Event) l i)).
Proof. unfold index. destruct (nth_error l i); constructor. Qed.

Lemma Shape_here {A} (T : M A -> Prop) (m : M A) : T m -> Shape T m.
Proof.
  intros H. right. exists [], m. split; [assumption | split; [constructor |]].
  unfold after. destruct m; reflexivity.
Qed.

Lemma Shape_bind {A B} (T : M B -> Prop) (m : M A) (k : A -> M B) :
  noMutation (snd m) -> (forall a, fst m = inl a -> Shape T (k a)) ->
  Shape T (bind m k).
Proof.
  destruct m as [[a | s] t]; simpl; intros Ht Hk.
  - destruct (Hk a eq_refl) as [(s & t' & -> & Ht') | (pre & tail & HT & Hpre & ->)].
    + left. exists s, (t ++ t')%list. split; [reflexivity |].
      apply noMutation_app; assumption.
    + right. exists (t ++ pre)%list, tail.
      split; [assumption | split; [apply noMutation_app; assumption |]].
      unfold after. simpl. rewrite app_assoc. reflexivity.
  - left. exists s, t. split; [reflexivity | assumption].
Qed.

Lemma noMutation_ret {A} (a : A) : noMutation (snd (ret (E:=Event) a)).
Proof. constructor. Qed.

Lemma noMutation_os_Exit {A} c :
  noMutation (snd (os_Exit (E:=Event) (A:=A) c)).
Proof. constructor. Qed.

Lemma noMutation_report l msg : noMutation (snd (emit (Report l msg))).
Proof. repeat constructor. Qed.

Lemma noMutation_call {A} e (x : A) :
  isMutation e = false -> noMutation (snd (call e x)).
Proof. intros H. repeat constructor. assumption. Qed.

(** Walks a command and checks that none of its events is a mutation. *)
Ltac no_mutation :=
  repeat first
    [ apply noMutation_ret
    | apply noMutation_os_Exit
    | apply noMutation_report
    | apply noMutation_call; reflexivity
    | apply noMutation_orExit
    | apply noMutation_index
    | apply noMutation_when
    | apply noMutation_bind; [| intros ? ?]
    | progress cbv zeta
    | match goal with
      | |- noMutation (snd (if ?b then _ else _)) => destruct b
      | |- noMutation (snd (match ?x with _ => _ end)) => is_var x; destruct x
      end ].

Lemma orExit_inl {A} (r : result A) msg a :
  fst (orExit r msg) = inl a -> r = Ok a.
Proof. destruct r; simpl; intros H; [congruence | discriminate]. Qed.

Lemma call_inl {A} e (x a : A) : fst (call e x) = inl a -> a = x.
Proof. simpl. congruence. Qed.

Lemma when_exit_inl b (m : M unit) c u :
  fst (when b (bind m (fun _ => os_Exit c))) = inl u -> b = false.
Proof.
  destruct b; [| reflexivity].
  simpl. destruct m as [[x | s] t]; simpl; discriminate.
Qed.

Lemma closeConnection_inl w : fst (closeConnection w) = inl tt.
Proof. unfold closeConnection. destruct (ocmClose w); reflexivity. Qed.

Lemma noMutation_closeConnection w : noMutation (snd (closeConnection w)).
Proof. unfold closeConnection, Errorf. no_mutation. Qed.

Lemma defer_closeConnection {A} w (r : A + Stop) t :
  defer (closeConnection w) (r, t) =
  match r with
  | inr (Exit code) => (r, t)
  | _ => (r, (t ++ snd (closeConnection w))%list)
  end.
Proof.
  unfold defer. pose proof (closeConnection_inl w) as H.
  destruct (closeConnection w) as [r' t']. simpl in H. subst r'.
  destruct r as [x | [c | msg]]; reflexivity.
Qed.

(** ** The upgrade command, step by step *)

Lemma noMutation_resolveVersion w a avail :
  noMutation (snd (UpgradeCluster.resolveVersion w a avail)).
Proof. unfold UpgradeCluster.resolveVersion, Errorf. no_mutation. Qed.

Lemma noMutation_resolveSchedule w a :
  noMutation (snd (UpgradeCluster.resolveSchedule w a)).
Proof. unfold UpgradeCluster.resolveSchedule, Errorf. no_mutation. Qed.

Lemma noMutation_resolveNodeDrain w a cl :
  noMutation (snd (UpgradeCluster.resolveNodeDrain w a cl)).
Proof. unfold UpgradeCluster.resolveNodeDrain, Errorf. no_mutation. Qed.

Lemma noMutation_parseNodeDrain w s :
  noMutation (snd (UpgradeCluster.parseNodeDrain w s)).
Proof. unfold UpgradeCluster.parseNodeDrain, Errorf. no_mutation. Qed.

(** Once connected, the command stops without a mutation or reaches the
    submission step without one. *)
Lemma connected_shape w a arn :
  Shape (Submits w a arn) (UpgradeCluster.connected w a arn).
Proof.
  unfold UpgradeCluster.connected.
  apply Shape_bind; [no_mutation | intros _ _].
  apply Shape_bind; [no_mutation | intros r Hr]. apply call_inl in Hr. subst r.
  apply Shape_bind; [no_mutation | intros cl Hcl]. apply orExit_inl in Hcl.
  apply Shape_bind; [unfold Errorf; no_mutation | intros u Hready].
  apply when_exit_inl in Hready. apply negb_false_iff, String.eqb_eq in Hready.
  apply Shape_bind; [no_mutation | intros r Hr]. apply call_inl in Hr. subst r.
  apply Shape_bind; [no_mutation | intros su Hsu]. apply orExit_inl in Hsu.
  apply Shape_bind; [unfold Warnf; no_mutation | intros u' Hnone].
  destruct su as [su |]; [simpl in Hnone; discriminate |].
  apply Shape_bind; [no_mutation | intros r Hr]. apply call_inl in Hr. subst r.
  apply Shape_bind; [no_mutation | intros avail Havail].
  apply orExit_inl in Havail.
  apply Shape_bind; [unfold Warnf; no_mutation | intros _ _].
  apply Shape_bind; [apply noMutation_resolveVersion | intros version Hversion].
  apply Shape_bind; [apply noMutation_resolveSchedule | intros nextRun HnextRun].
  apply Shape_bind;
    [apply noMutation_resolveNodeDrain | intros nodeDrain HnodeDrain].
  apply Shape_bind; [apply noMutation_parseNodeDrain | intros minutes Hminutes].
  apply Shape_bind; [no_mutation | intros spec Hspec].
  apply orExit_inl in Hspec. injection Hspec as <-.
  apply Shape_bind; [no_mutation | intros policy Hpolicy].
  apply orExit_inl in Hpolicy. injection Hpolicy as <-.
  apply Shape_here.
  exists cl, avail, version, nextRun, nodeDrain, minutes.
  repeat (split; [assumption |]). reflexivity.
Qed.

(** The command fails before it connects, or runs [connected] under the
    deferred close. *)
Lemma upgrade_run_cases w a :
  (exists msg t,
      UpgradeCluster.run w a = (inr (Exit 1), (t ++ [Report LError msg])%list)
      /\ (forall e, In e t -> In e prelude))
  \/ (exists arn,
        IsValidClusterKey (UpgradeCluster.clusterKey a) = true /\
        awsBuild w = Ok tt /\ awsGetCreator w = Ok arn /\ ocmBuild w = Ok tt /\
        UpgradeCluster.run w a =
          after prelude
                (defer (closeConnection w) (UpgradeCluster.connected w a arn))).
Proof.
  unfold UpgradeCluster.run.
  destruct (IsValidClusterKey (UpgradeCluster.clusterKey a)) eqn:Hkey.
  2:{ left. eexists _, []. split; [reflexivity | intros e []]. }
  destruct (awsBuild w) as [[] | e1] eqn:Haws.
  2:{ left. exists ("Failed to create AWS client: " ++ e1), [AwsNewClient].
      split; [reflexivity | simpl; tauto]. }
  destruct (awsGetCreator w) as [arn | e2] eqn:Hcreator.
  2:{ left.
      exists ("Failed to get AWS creator: " ++ e2), [AwsNewClient; AwsGetCreator].
      split; [reflexivity | simpl; tauto]. }
  destruct (ocmBuild w) as [[] | e3] eqn:Hocm.
  2:{ left. exists ("Failed to create OCM connection: " ++ e3), prelude.
      split; [reflexivity | simpl; tauto]. }
  right. exists arn. repeat (split; [reflexivity |]).
  simpl. destruct (defer _ _). reflexivity.
Qed.

Lemma defer_after {A} (d : M unit) pre (tail : M A) :
  defer d (after pre tail) = after pre (defer d tail).
Proof.
  unfold defer, after. destruct tail as [[x | [c | msg]] t];
    destruct d as [[u | s] t']; simpl; rewrite ?app_assoc; reflexivity.
Qed.

Lemma after_after {A} p1 p2 (m : M A) :
  after p1 (after p2 m) = after (p1 ++ p2) m.
Proof. unfold after. simpl. rewrite app_assoc. reflexivity. Qed.

Lemma upgrade_run_connected w a arn :
  IsValidClusterKey (UpgradeCluster.clusterKey a) = true ->
  awsBuild w = Ok tt -> awsGetCreator w = Ok arn -> ocmBuild w = Ok tt ->
  UpgradeCluster.run w a =
  after prelude (defer (closeConnection w) (UpgradeCluster.connected w a arn)).
Proof.
  intros Hkey Haws Harn Hocm. unfold UpgradeCluster.run.
  rewrite Hkey, Haws, Harn, Hocm. simpl. destruct (defer _ _). reflexivity.
Qed.

Lemma connected_not_ready w a arn cl :
  getCluster w (UpgradeCluster.clusterKey a) arn = Ok cl ->
  State cl <> ClusterStateReady ->
  UpgradeCluster.connected w a arn =
  (inr (Exit 1),
   [Report LDebug ("Loading cluster '" ++ UpgradeCluster.clusterKey a ++ "'");
    OcmGetCluster (UpgradeCluster.clusterKey a) arn;
    Report LError ("Cluster '" ++ UpgradeCluster.clusterKey a
                   ++ "' is not yet ready")]).
Proof.
  intros Hcl Hstate. apply String.eqb_neq in Hstate.
  unfold UpgradeCluster.connected. rewrite Hcl.
  cbn [bind call emit ret orExit fst snd app Debugf].
  rewrite Hstate. reflexivity.
Qed.

Lemma connected_scheduled w a arn cl su :
  getCluster w (UpgradeCluster.clusterKey a) arn = Ok cl ->
  State cl = ClusterStateReady ->
  getScheduledUpgrade w (ID cl) = Ok (Some su) ->
  UpgradeCluster.connected w a arn =
  (inr (Exit 0),
   [Report LDebug ("Loading cluster '" ++ UpgradeCluster.clusterKey a ++ "'");
    OcmGetCluster (UpgradeCluster.clusterKey a) arn;
    OcmGetScheduledUpgrade (ID cl);
    Report LWarn ("There is already a scheduled upgrade to version "
                  ++ Version su ++ " on "
                  ++ Format (NextRun su) layoutDateClockZone)]).
Proof.
  intros Hcl Hstate Hsu. unfold UpgradeCluster.connected.
  rewrite Hcl. cbn [bind call emit ret orExit fst snd app Debugf].
  rewrite Hstate. cbn [String.eqb Ascii.eqb Bool.eqb ClusterStateReady negb when bind call emit ret orExit fst snd app Debugf].
  rewrite Hsu. reflexivity.
Qed.

Lemma noMutation_prelude_sub t :
  (forall e, In e t -> In e prelude) -> noMutation t.
Proof.
  intros H. apply Forall_forall. intros e He. apply H in He.
  simpl in He. intuition (subst; reflexivity).
Qed.

(** C4.  When the cluster the lookup resolves to is not in the ready
    state, the upgrade command ends with exit code 1 after an error
    report and its trace holds no mutation: neither an upgrade-policy
    creation nor a cluster update.  When the lookup was made, the report
    is the one that says the cluster is not yet ready. *)
Theorem upgrade_cluster_not_ready w a cl :
  (forall arn, getCluster w (UpgradeCluster.clusterKey a) arn = Ok cl) ->
  State cl <> ClusterStateReady ->
  outcome (UpgradeCluster.run w a) = inr (Exit 1)
  /\ noMutation (trace (UpgradeCluster.run w a))
  /\ (exists t msg, trace (UpgradeCluster.run w a) = (t ++ [Report LError msg])%list)
  /\ (forall arn,
        In (OcmGetCluster (UpgradeCluster.clusterKey a) arn)
           (trace (UpgradeCluster.run w a)) ->
        In (Report LError ("Cluster '" ++ UpgradeCluster.clusterKey a
                           ++ "' is not yet ready"))
           (trace (UpgradeCluster.run w a))).
Proof.
  intros Hcl Hstate. unfold outcome, trace.
  destruct (upgrade_run_cases w a)
    as [(msg & t & -> & Ht) | (arn & _ & _ & _ & _ & ->)].
  - simpl. split; [reflexivity |]. split.
    + apply noMutation_app; [apply noMutation_prelude_sub; assumption |].
      repeat constructor.
    + split; [exists t, msg; reflexivity |].
      intros arn Hin. apply in_app_or in Hin. destruct Hin as [Hin | Hin].
      * apply Ht in Hin. simpl in Hin. intuition discriminate.
      * simpl in Hin. intuition discriminate.
  - rewrite (connected_not_ready w a arn cl (Hcl arn) Hstate).
    rewrite defer_closeConnection. unfold after. cbn [fst snd].
    split; [reflexivity |].
    split; [apply noMutation_app; repeat (constructor; [reflexivity |]);
            constructor |].
    split.
    + eexists (prelude ++ [_; _])%list, _. reflexivity.
    + intros _ _. simpl. tauto.
Qed.

(** C5.  When the run gets to the existing-schedule query and the query
    returns a scheduled upgrade, the command warns with the version and
    the time of that upgrade, exits with code 0, and the query and the
    warning are its last events: no policy creation and no cluster
    update follow. *)
Theorem upgrade_already_scheduled w a arn cl scheduled :
  IsValidClusterKey (UpgradeCluster.clusterKey a) = true ->
  awsBuild w = Ok tt -> awsGetCreator w = Ok arn -> ocmBuild w = Ok tt ->
  getCluster w (UpgradeCluster.clusterKey a) arn = Ok cl ->
  State cl = ClusterStateReady ->
  getScheduledUpgrade w (ID cl) = Ok (Some scheduled) ->
  outcome (UpgradeCluster.run w a) = inr (Exit 0)
  /\ noMutation (trace (UpgradeCluster.run w a))
  /\ trace (UpgradeCluster.run w a) =
     (prelude ++
      [Report LDebug ("Loading cluster '" ++ UpgradeCluster.clusterKey a ++ "'");
       OcmGetCluster (UpgradeCluster.clusterKey a) arn;
       OcmGetScheduledUpgrade (ID cl);
       Report LWarn ("There is already a scheduled upgrade to version "
                     ++ Version scheduled ++ " on "
                     ++ Format (NextRun scheduled) layoutDateClockZone)])%list.
Proof.
  intros Hkey Haws Harn Hocm Hcl Hstate Hsu. unfold outcome, trace.
  rewrite (upgrade_run_connected w a arn Hkey Haws Harn Hocm).
  rewrite (connected_scheduled w a arn cl scheduled Hcl Hstate Hsu).
  rewrite defer_closeConnection. unfold after. cbn [fst snd].
  split; [reflexivity |]. split; [| reflexivity].
  apply noMutation_app; repeat (constructor; [reflexivity |]); constructor.
Qed.

Lemma upgrade_run_shape w a :
  (exists s t, UpgradeCluster.run w a = (inr s, t) /\ noMutation t)
  \/ (exists arn pre tail,
        Submits w a arn tail /\ noMutation pre /\
        IsValidClusterKey (UpgradeCluster.clusterKey a) = true /\
        awsBuild w = Ok tt /\ awsGetCreator w = Ok arn /\ ocmBuild w = Ok tt /\
        UpgradeCluster.run w a = after pre (defer (closeConnection w) tail)).
Proof.
  destruct (upgrade_run_cases w a)
    as [(msg & t & -> & Ht) | (arn & Hkey & Haws & Harn & Hocm & ->)].
  - left. exists (Exit 1), (t ++ [Report LError msg])%list.
    split; [reflexivity |].
    apply noMutation_app; [| repeat constructor].
    apply Forall_forall. intros e He. apply Ht in He.
    simpl in He. intuition (subst; reflexivity).
  - destruct (connected_shape w a arn)
      as [(s & t & -> & Ht) | (pre & tail & HT & Hpre & ->)].
    + left. rewrite defer_closeConnection. unfold after.
      destruct s as [c | msg]; simpl.
      * exists (Exit c), (prelude ++ t)%list. split; [reflexivity |].
        apply noMutation_app; [repeat constructor | assumption].
      * exists (Panic msg), (prelude ++ t ++ snd (closeConnection w))%list.
        split; [reflexivity |].
        apply noMutation_app; [repeat constructor |].
        apply noMutation_app; [assumption | apply noMutation_closeConnection].
    + right. exists arn, (prelude ++ pre)%list, tail.
      split; [assumption |].
      split; [apply noMutation_app; [repeat constructor | assumption] |].
      repeat (split; [assumption |]).
      rewrite defer_after, after_after. reflexivity.
Qed.

Lemma submit_cases w key cl policy spec msg :
  let tail := bind (UpgradeCluster.submit w key cl policy spec)
                   (fun _ => Infof msg) in
  match sendAddUpgradePolicy w (ID cl) policy with
  | Err e =>
      tail = (inr (Exit 1),
              [AddUpgradePolicy (ID cl) policy;
               Report LError ("Failed to schedule upgrade for cluster '"
                              ++ key ++ "': " ++ e)])
  | Ok _ =>
      match sendUpdateCluster w (ID cl) spec with
      | Err e =>
          tail = (inr (Exit 1),
                  [AddUpgradePolicy (ID cl) policy;
                   UpdateCluster (ID cl) spec;
                   Report LError ("Failed to update cluster '" ++ key
                                  ++ "': " ++ e)])
      | Ok _ =>
          tail = (inl tt,
                  [AddUpgradePolicy (ID cl) policy;
                   UpdateCluster (ID cl) spec;
                   Report LInfo msg])
      end
  end.
Proof.
  unfold UpgradeCluster.submit.
  destruct (sendAddUpgradePolicy w (ID cl) policy) as [[] | e];
    [| reflexivity].
  destruct (sendUpdateCluster w (ID cl) spec) as [[] | e]; reflexivity.
Qed.

(** The second request fails after the first went through: the error is
    reported, the run exits with code 1, and nothing undoes the policy. *)
Example upgrade_update_failure_keeps_policy :
  UpgradeCluster.run
    (Scenario.withSubmission Scenario.world (Ok tt) (Err "status is 500"))
    Scenario.upgradeArgs =
  (inr (Exit 1),
   [AwsNewClient; AwsGetCreator; OcmNewConnection;
    Report LDebug "Loading cluster 'mycluster'";
    OcmGetCluster "mycluster" Scenario.arn;
    OcmGetScheduledUpgrade "1a2b3c";
    OcmGetAvailableUpgrades "openshift-v4.5.19";
    AddUpgradePolicy "1a2b3c"
      (mkUpgradePolicy "manual" "4.5.20" (mkTime 1606125060 0 "UTC" 0));
    UpdateCluster "1a2b3c"
      (mkClusterSpec (mkValue (Some (ofInt 60)) (Some "minutes")));
    Report LError "Failed to update cluster 'mycluster': status is 500"]).
Proof. vm_compute. reflexivity. Qed.

Lemma existsb_not_In version avail :
  ~ In version avail -> existsb (fun v => String.eqb v version) avail = false.
Proof.
  intros H. destruct (existsb _ avail) eqn:E; [| reflexivity].
  exfalso. apply existsb_exists in E. destruct E as (v & Hv & Heq).
  apply String.eqb_eq in Heq. subst. contradiction.
Qed.

Lemma resolveVersion_rejects w a avail :
  interactiveEnabled w = false ->
  UpgradeCluster.version a <> "" ->
  ~ In (UpgradeCluster.version a) avail ->
  UpgradeCluster.resolveVersion w a avail =
  (inr (Exit 1), [Report LError "Expected a valid version to upgrade to"]).
Proof.
  intros Hi Hv Hin. unfold UpgradeCluster.resolveVersion.
  apply String.eqb_neq in Hv. rewrite Hv, Hi. simpl orb. cbv iota.
  unfold ret. rewrite bind_ret_l. rewrite (existsb_not_In _ _ Hin). reflexivity.
Qed.

Lemma upgrade_cluster_not_ready_witness :
  outcome (UpgradeCluster.run
             (Scenario.withCluster Scenario.world (Ok Scenario.installingCluster))
             Scenario.upgradeArgs) = inr (Exit 1)
  /\ In (Report LError "Cluster 'mycluster' is not yet ready")
        (trace (UpgradeCluster.run
                  (Scenario.withCluster Scenario.world
                                        (Ok Scenario.installingCluster))
                  Scenario.upgradeArgs)).
Proof.
  destruct (upgrade_cluster_not_ready
              (Scenario.withCluster Scenario.world (Ok Scenario.installingCluster))
              Scenario.upgradeArgs Scenario.installingCluster)
    as (Hexit & _ & _ & Hmsg).
  - intros arn. reflexivity.
  - vm_compute. discriminate.
  - split; [exact Hexit |].
    apply (Hmsg Scenario.arn). vm_compute. tauto.
Defined.

Lemma upgrade_already_scheduled_witness :
  outcome (UpgradeCluster.run
             (Scenario.withScheduled Scenario.world (Some Scenario.scheduled))
             Scenario.upgradeArgs) = inr (Exit 0)
  /\ In (Report LWarn
           "There is already a scheduled upgrade to version 4.5.19 on 2020-11-24 03:00 UTC")
        (trace (UpgradeCluster.run
                  (Scenario.withScheduled Scenario.world (Some Scenario.scheduled))
                  Scenario.upgradeArgs)).
Proof.
  destruct (upgrade_already_scheduled
              (Scenario.withScheduled Scenario.world (Some Scenario.scheduled))
              Scenario.upgradeArgs Scenario.arn Scenario.readyCluster
              Scenario.scheduled)
    as (Hexit & _ & Htrace); try reflexivity.
  split; [exact Hexit |].
  rewrite Htrace. vm_compute. tauto.
Defined.

(** ** The revoke command and the connection *)

(** C1 (the code departs from the claim).  The role [foo] is no valid
    role, and the command reports it; it then goes on, asks for the
    confirmation, sends the delete request for the group [foo] and
    returns normally. *)
Theorem revoke_unknown_role_still_deletes :
  RevokeUser.run Scenario.world Scenario.revokeArgs ["foo"] =
  (inl tt,
   [Report LError "Expected at least one of [cluster-admins dedicated-admins]";
    AwsNewClient; AwsGetCreator; OcmNewConnection;
    Report LDebug "Loading cluster 'mycluster'";
    OcmGetCluster "mycluster" Scenario.arn;
    AskConfirm "revoke role foo from user myusername in cluster mycluster";
    Report LDebug
      "Removing user 'myusername' from group 'foo' in cluster 'mycluster'";
    DeleteGroupUser "1a2b3c" "foo" "myusername";
    OcmClose]).
Proof. vm_compute. reflexivity. Qed.

(** A grace period without a second piece: once the number has parsed,
    the read of the unit is out of range. *)
Lemma parseNodeDrain_without_unit w s number x :
  Split s " " = [number] ->
  ParseFloat (quote w) number = Ok x ->
  UpgradeCluster.parseNodeDrain w s =
  (inr (Panic "runtime error: index out of range [1] with length 1"), []).
Proof.
  intros Hsplit Hparse. unfold UpgradeCluster.parseNodeDrain.
  rewrite Hsplit. cbn [index nth_error]. unfold ret. rewrite bind_ret_l.
  rewrite Hparse. cbn [orExit]. unfold ret. rewrite bind_ret_l.
  reflexivity.
Qed.

(** A number that does not parse is reported and ends the run with
    exit code 1. *)
Lemma parseNodeDrain_bad_number w s number rest e :
  Split s " " = number :: rest ->
  ParseFloat (quote w) number = Err e ->
  UpgradeCluster.parseNodeDrain w s =
  (inr (Exit 1),
   [Report LError ("Expected a valid node drain grace period: " ++ e)]).
Proof.
  intros Hsplit Hparse. unfold UpgradeCluster.parseNodeDrain.
  rewrite Hsplit. cbn [index nth_error]. unfold ret. rewrite bind_ret_l.
  rewrite Hparse. reflexivity.
Qed.

(** C2 (the code departs from the claim).  With the grace period [60],
    which has no unit, the number parses, the read of the second piece
    is out of range and the command panics; no error is reported. *)
Theorem upgrade_grace_period_without_unit_panics :
  UpgradeCluster.run Scenario.world Scenario.bareNumberArgs =
  (inr (Panic "runtime error: index out of range [1] with length 1"),
   [AwsNewClient; AwsGetCreator; OcmNewConnection;
    Report LDebug "Loading cluster 'mycluster'";
    OcmGetCluster "mycluster" Scenario.arn;
    OcmGetScheduledUpgrade "1a2b3c";
    OcmGetAvailableUpgrades "openshift-v4.5.19";
    OcmClose])
  /\ existsb isErrorReport
       (trace (UpgradeCluster.run Scenario.world Scenario.bareNumberArgs))
     = false.
Proof. split; vm_compute; reflexivity. Qed.

(** C3 (the code departs from the claim).  Both commands open the
    connection and leave through [os.Exit] without closing it: the
    upgrade command on a cluster that is not ready, the revoke command
    on a cluster that is not found. *)
Theorem connection_left_open_on_exit :
  UpgradeCluster.run
    (Scenario.withCluster Scenario.world (Ok Scenario.installingCluster))
    Scenario.upgradeArgs =
  (inr (Exit 1),
   [AwsNewClient; AwsGetCreator; OcmNewConnection;
    Report LDebug "Loading cluster 'mycluster'";
    OcmGetCluster "mycluster" Scenario.arn;
    Report LError "Cluster 'mycluster' is not yet ready"])
  /\ RevokeUser.run (Scenario.withCluster Scenario.world (Err "not found"))
       Scenario.revokeArgs ["cluster-admins"] =
     (inr (Exit 1),
      [AwsNewClient; AwsGetCreator; OcmNewConnection;
       Report LDebug "Loading cluster 'mycluster'";
       OcmGetCluster "mycluster" Scenario.arn;
       Report LError "Failed to get cluster 'mycluster': not found"]).
Proof. split; vm_compute; reflexivity. Qed.

(** ** The calendar *)

Lemma allFrom_spec n : forall lo P,
  Range.allFrom n lo P = true ->
  forall x, lo <= x < lo + Z.of_nat n -> P x = true.
Proof.
  induction n as [| k IH]; intros lo P H x Hx; [lia |].
  simpl in H. apply andb_true_iff in H. destruct H as [Hlo Hrest].
  destruct (Z.eq_dec x lo) as [-> | Hne]; [assumption |].
  apply (IH (lo + 1)); [assumption | lia].
Qed.

Lemma allBelow_range N P :
  Range.allBelow N P = true -> forall x, 0 <= x < N -> P x = true.
Proof.
  intros H x Hx. apply (allFrom_spec (Z.to_nat N) 0); [assumption |].
  rewrite Z2Nat.id; lia.
Qed.

Lemma isLeap_spec y :
  isLeap y = true <-> (y mod 4 = 0 /\ (y mod 100 <> 0 \/ y mod 400 = 0)).
Proof.
  unfold isLeap. rewrite andb_true_iff, orb_true_iff, negb_true_iff.
  rewrite !Z.eqb_eq, Z.eqb_neq. tauto.
Qed.

Lemma yearInCycle_spec r :
  0 <= r < 146097 ->
  exists y yday,
    yearInCycle r = (y, yday) /\ 1 <= y <= 400
    /\ 0 <= yday < (if isLeap y then 366 else 365)
    /\ daysSinceEpoch y + yday = r
    /\ (r < 145731 -> y <= 399) /\ (145731 <= r -> y = 400).
Proof.
  intros Hr. unfold yearInCycle, daysSinceEpoch.
  unfold daysPer400Years, daysPer100Years, daysPer4Years.
  rewrite !Z.shiftr_div_pow2 by lia. change (2 ^ 2) with 4.
  do 2 eexists. split; [reflexivity |].
  match goal with |- context [isLeap ?t] => pose proof (isLeap_spec t) as Hleap end.
  destruct (isLeap _).
  - destruct Hleap as [Hleap _]. specialize (Hleap eq_refl).
    Z.div_mod_to_equations. lia.
  - destruct Hleap as [_ Hleap].
    pose proof (fun X => Bool.diff_false_true (Hleap X)) as Hn. clear Hleap.
    Z.div_mod_to_equations. lia.
Qed.

Lemma yearDay_all (leap : bool) (yday : Z) :
  0 <= yday < (if leap then 366 else 365) -> Range.yearDayOk leap yday = true.
Proof.
  intros H. destruct leap.
  - apply (allBelow_range 366 (Range.yearDayOk true)); [| assumption].
    vm_compute. reflexivity.
  - apply (allBelow_range 365 (Range.yearDayOk false)); [| assumption].
    vm_compute. reflexivity.
Qed.

Lemma isLeap_cycle n y : isLeap (400 * n + y) = isLeap y.
Proof.
  unfold isLeap.
  replace ((400 * n + y) mod 4) with (y mod 4)
    by (replace (400 * n + y) with (y + (100 * n) * 4) by lia;
        rewrite Z_mod_plus_full; reflexivity).
  replace ((400 * n + y) mod 100) with (y mod 100)
    by (replace (400 * n + y) with (y + (4 * n) * 100) by lia;
        rewrite Z_mod_plus_full; reflexivity).
  replace ((400 * n + y) mod 400) with (y mod 400)
    by (replace (400 * n + y) with (y + n * 400) by lia;
        rewrite Z_mod_plus_full; reflexivity).
  reflexivity.
Qed.

Lemma daysSinceEpoch_cycle n y :
  1 <= y <= 400 -> daysSinceEpoch (400 * n + y) = 146097 * n + daysSinceEpoch y.
Proof.
  intros Hy. unfold daysSinceEpoch, daysPer400Years, daysPer100Years, daysPer4Years.
  Z.div_mod_to_equations. lia.
Qed.

(** The date of a day count is a valid date, and the day count of that
    date is the one we started from. *)
Lemma absDate_dateDays days :
  exists y m d,
    absDate days = (y, m, d)
    /\ 1 <= m <= 12 /\ 1 <= d <= daysIn m y
    /\ dateDays y m d = days
    /\ (- 366 <= days < 3652059 -> 0 <= y <= 9999).
Proof.
  unfold absDate, daysPer400Years.
  set (n := days / (365 * 400 + 97)).
  set (r := days - (365 * 400 + 97) * n).
  assert (Hr : 0 <= r < 146097) by (subst r n; Z.div_mod_to_equations; lia).
  destruct (yearInCycle_spec r Hr)
    as (y & yday & -> & Hy & Hyday & Hdays & Hlo & Hhi).
  rewrite isLeap_cycle.
  pose proof (yearDay_all (isLeap y) yday Hyday) as Hok.
  unfold Range.yearDayOk in Hok.
  destruct (monthDay (isLeap y) yday) as [m d].
  rewrite !andb_true_iff, !Z.leb_le, Z.eqb_eq in Hok.
  destruct Hok as ((((Hm1 & Hm2) & Hd1) & Hd2) & Hsum).
  exists (400 * n + y), m, d. split; [reflexivity |].
  split; [lia |].
  split; [unfold daysIn; rewrite isLeap_cycle; lia |].
  split.
  - unfold dateDays. rewrite isLeap_cycle, daysSinceEpoch_cycle by lia.
    subst r. lia.
  - intros Hrange. subst r n. Z.div_mod_to_equations. lia.
Qed.

(** ** Printing and parsing a time *)

Lemma digit_all d : 0 <= d < 10 -> Range.digitOk d = true.
Proof. apply allBelow_range. vm_compute. reflexivity. Qed.

Lemma digitChar_facts d :
  0 <= d < 10 ->
  isDigit (digitChar d) = true /\ digitVal (digitChar d) = d
  /\ Ascii.eqb (digitChar d) " " = false.
Proof.
  intros Hd. pose proof (digit_all d Hd) as H. unfold Range.digitOk in H.
  rewrite !andb_true_iff, Z.eqb_eq, negb_true_iff in H. tauto.
Qed.

Lemma digitsInto_small fuel u acc :
  u < 10 -> digitsInto (S fuel) u acc = String (digitChar u) acc.
Proof.
  intros Hu. cbn [digitsInto].
  replace (u <? 10) with true by (symmetry; apply Z.ltb_lt; lia). reflexivity.
Qed.

Lemma digitsInto_large fuel u acc :
  10 <= u ->
  digitsInto (S fuel) u acc
  = digitsInto fuel (u / 10) (String (digitChar (u mod 10)) acc).
Proof.
  intros Hu. cbn [digitsInto].
  replace (u <? 10) with false by (symmetry; apply Z.ltb_ge; lia). reflexivity.
Qed.

Lemma appendInt_two n :
  0 <= n < 100 ->
  appendInt n 2 = String (digitChar (n / 10)) (String (digitChar (n mod 10)) "").
Proof.
  intros Hn. unfold appendInt.
  replace (n <? 0) with false by (symmetry; apply Z.ltb_ge; lia).
  rewrite Z.abs_eq by lia.
  destruct (Z.lt_ge_cases n 10) as [H1 | H1].
  - rewrite digitsInto_small by lia.
    replace (n / 10) with 0 by (Z.div_mod_to_equations; lia).
    replace (n mod 10) with n by (Z.div_mod_to_equations; lia).
    reflexivity.
  - rewrite digitsInto_large by lia.
    rewrite digitsInto_small by (Z.div_mod_to_equations; lia).
    reflexivity.
Qed.

Lemma appendInt_four n :
  0 <= n < 10000 ->
  appendInt n 4 =
  String (digitChar (n / 1000))
    (String (digitChar (n / 100 mod 10))
       (String (digitChar (n / 10 mod 10))
          (String (digitChar (n mod 10)) ""))).
Proof.
  intros Hn. unfold appendInt.
  replace (n <? 0) with false by (symmetry; apply Z.ltb_ge; lia).
  rewrite Z.abs_eq by lia.
  destruct (Z.lt_ge_cases n 10) as [H1 | H1].
  { rewrite digitsInto_small by lia.
    replace (n / 1000) with 0 by (Z.div_mod_to_equations; lia).
    replace (n / 100 mod 10) with 0 by (Z.div_mod_to_equations; lia).
    replace (n / 10 mod 10) with 0 by (Z.div_mod_to_equations; lia).
    replace (n mod 10) with n by (Z.div_mod_to_equations; lia).
    reflexivity. }
  rewrite digitsInto_large by lia.
  destruct (Z.lt_ge_cases n 100) as [H2 | H2].
  { rewrite digitsInto_small by (Z.div_mod_to_equations; lia).
    replace (n / 1000) with 0 by (Z.div_mod_to_equations; lia).
    replace (n / 100 mod 10) with 0 by (Z.div_mod_to_equations; lia).
    replace (n / 10 mod 10) with (n / 10) by (Z.div_mod_to_equations; lia).
    reflexivity. }
  rewrite digitsInto_large by (Z.div_mod_to_equations; lia).
  replace (n / 10 / 10) with (n / 100) by (Z.div_mod_to_equations; lia).
  destruct (Z.lt_ge_cases n 1000) as [H3 | H3].
  { rewrite digitsInto_small by (Z.div_mod_to_equations; lia).
    replace (n / 1000) with 0 by (Z.div_mod_to_equations; lia).
    replace (n / 100 mod 10) with (n / 100) by (Z.div_mod_to_equations; lia).
    reflexivity. }
  rewrite digitsInto_large by (Z.div_mod_to_equations; lia).
  replace (n / 100 / 10) with (n / 1000) by (Z.div_mod_to_equations; lia).
  rewrite digitsInto_small by (Z.div_mod_to_equations; lia).
  reflexivity.
Qed.

Lemma getnum_appendInt n fixed rest :
  0 <= n < 100 -> getnum (appendInt n 2 ++ rest) fixed = Some (n, rest).
Proof.
  intros Hn. rewrite (appendInt_two n Hn). cbn [String.append getnum].
  destruct (digitChar_facts (n / 10)) as (-> & -> & _);
    [Z.div_mod_to_equations; lia |].
  destruct (digitChar_facts (n mod 10)) as (-> & -> & _);
    [Z.div_mod_to_equations; lia |].
  cbn [negb]. f_equal. f_equal. Z.div_mod_to_equations. lia.
Qed.

Lemma getyear_appendInt n rest :
  0 <= n < 10000 -> getyear (appendInt n 4 ++ rest) = Some (n, rest).
Proof.
  intros Hn. rewrite (appendInt_four n Hn). cbn [String.append getyear].
  destruct (digitChar_facts (n / 1000)) as (-> & -> & _);
    [Z.div_mod_to_equations; lia |].
  destruct (digitChar_facts (n / 100 mod 10)) as (-> & -> & _);
    [Z.div_mod_to_equations; lia |].
  destruct (digitChar_facts (n / 10 mod 10)) as (-> & -> & _);
    [Z.div_mod_to_equations; lia |].
  destruct (digitChar_facts (n mod 10)) as (-> & -> & _);
    [Z.div_mod_to_equations; lia |].
  cbn [andb]. f_equal. f_equal. Z.div_mod_to_equations. lia.
Qed.

Lemma cutspace_appendInt n rest :
  0 <= n < 100 -> cutspace (appendInt n 2 ++ rest) = appendInt n 2 ++ rest.
Proof.
  intros Hn. rewrite (appendInt_two n Hn). cbn [String.append cutspace].
  destruct (digitChar_facts (n / 10)) as (_ & _ & ->);
    [Z.div_mod_to_equations; lia | reflexivity].
Qed.

Lemma clock_fields t :
  0 <= Hour t < 24 /\ 0 <= Minute_ t < 60
  /\ (abs t / secondsPerDay) * secondsPerDay + Hour t * secondsPerHour
     + Minute_ t * secondsPerMinute = abs t - abs t mod 60.
Proof.
  unfold Hour, Minute_, secondsPerDay, secondsPerHour, secondsPerMinute.
  generalize (abs t). intros s. Z.div_mod_to_equations. lia.
Qed.

Lemma append_assoc (a b c : string) : (a ++ b) ++ c = a ++ (b ++ c).
Proof. induction a as [| x a IH]; simpl; [reflexivity | rewrite IH; reflexivity]. Qed.

Lemma skip_char c rest :
  Ascii.eqb c " " = false -> skip (String c rest) (String c "") = Some rest.
Proof.
  intros Hc. unfold skip. cbn [String.length skipLoop].
  rewrite Hc, Ascii.eqb_refl. reflexivity.
Qed.

Lemma skip_space rest : skip (String " " rest) " " = Some (cutspace rest).
Proof. reflexivity. Qed.

(** Parsing the date and the clock that [Format] printed gives the
    instant back, cut to the minute and in UTC. *)
Lemma Parse_Format t :
  - 366 <= absDays t < 3652059 ->
  Parse layoutDateClock (Format t layoutDate ++ " " ++ Format t layoutClock)
  = Ok (mkTime (abs t - abs t mod 60) 0 "UTC" 0).
Proof.
  intros Hrange.
  destruct (absDate_dateDays (absDays t))
    as (y & m & d & Hdate & Hm & Hd & Hdays & Hy).
  specialize (Hy Hrange).
  destruct (clock_fields t) as (Hh & Hmin & Hclock).
  assert (Hdin : daysIn m y <= 31).
  { unfold daysIn. destruct ((m =? 2) && isLeap y); [lia |].
    assert (Hc : m = 1 \/ m = 2 \/ m = 3 \/ m = 4 \/ m = 5 \/ m = 6 \/ m = 7
                 \/ m = 8 \/ m = 9 \/ m = 10 \/ m = 11 \/ m = 12) by lia.
    repeat (destruct Hc as [-> | Hc]; [vm_compute; discriminate |]).
    subst m. vm_compute. discriminate. }
  unfold Parse, layoutDateClock, layoutDate, layoutClock.
  cbn [Format formatChunk app]. unfold Year, Month, Day. rewrite Hdate.
  rewrite !append_assoc. cbn [parseLoop parseChunk].
  rewrite getyear_appendInt by lia.
  cbn [noFields fMonth fDay fHour fMin fYear].
  change ("-" ++ ?x) with (String "-" x). rewrite skip_char by reflexivity.
  rewrite getnum_appendInt by lia.
  replace ((m <=? 0) || (12 <? m)) with false
    by (symmetry; apply orb_false_iff; split; [apply Z.leb_gt | apply Z.ltb_ge]; lia).
  cbn [fMonth fDay fHour fMin fYear].
  change ("-" ++ ?x) with (String "-" x). rewrite skip_char by reflexivity.
  rewrite getnum_appendInt by lia.
  cbn [fMonth fDay fHour fMin fYear].
  change ("" ++ ?x) with x.
  change (" " ++ ?x) with (String " " x). rewrite skip_space.
  rewrite cutspace_appendInt by lia.
  rewrite getnum_appendInt by lia.
  replace (24 <=? Hour t) with false by (symmetry; apply Z.leb_gt; lia).
  cbn [fMonth fDay fHour fMin fYear].
  change (":" ++ ?x) with (String ":" x). rewrite skip_char by reflexivity.
  rewrite getnum_appendInt by lia.
  replace (60 <=? Minute_ t) with false by (symmetry; apply Z.leb_gt; lia).
  cbn [fMonth fDay fHour fMin fYear].
  replace ((d <? 1) || (daysIn m y <? d)) with false
    by (symmetry; apply orb_false_iff; split; apply Z.ltb_ge; lia).
  unfold Date. rewrite Hdays. f_equal. f_equal.
  unfold absDays in *. rewrite <- Hclock. lia.
Qed.

(** ** What a submitted request carries *)

Lemma upgrade_mutation_reached w a e :
  In e (trace (UpgradeCluster.run w a)) -> isMutation e = true ->
  exists arn cl avail version nextRun nodeDrain minutes,
    getCluster w (UpgradeCluster.clusterKey a) arn = Ok cl
    /\ getAvailableUpgrades w (GetVersionID cl) = Ok avail
    /\ fst (UpgradeCluster.resolveVersion w a avail) = inl version
    /\ fst (UpgradeCluster.resolveSchedule w a) = inl nextRun
    /\ fst (UpgradeCluster.resolveNodeDrain w a cl) = inl nodeDrain
    /\ fst (UpgradeCluster.parseNodeDrain w nodeDrain) = inl minutes
    /\ (e = AddUpgradePolicy (ID cl) (mkUpgradePolicy "manual" version nextRun)
        \/ e = UpdateCluster (ID cl)
                 (mkClusterSpec (mkValue (Some minutes) (Some "minutes")))).
Proof.
  unfold trace. intros Hin Hmut.
  assert (Hno : forall t, noMutation t -> In e t -> False).
  { intros t Ht Het. unfold noMutation in Ht. rewrite Forall_forall in Ht.
    apply Ht in Het. congruence. }
  destruct (upgrade_run_shape w a)
    as [(s & t & Hrun & Ht)
       | (arn & pre & tail & HT & Hpre & _ & _ & _ & _ & Hrun)];
    rewrite Hrun in Hin.
  - exfalso. exact (Hno t Ht Hin).
  - destruct HT as (cl & avail & version & nextRun & nodeDrain & minutes
                    & Hcl & _ & _ & Havail & Hversion & HnextRun & HnodeDrain
                    & Hminutes & ->).
    exists arn, cl, avail, version, nextRun, nodeDrain, minutes.
    repeat (split; [assumption |]).
    unfold after in Hin. cbn [snd] in Hin. apply in_app_or in Hin.
    destruct Hin as [Hin | Hin]; [exfalso; exact (Hno pre Hpre Hin) |].
    pose proof (submit_cases w (UpgradeCluster.clusterKey a) cl
                  (mkUpgradePolicy "manual" version nextRun)
                  (mkClusterSpec (mkValue (Some minutes) (Some "minutes")))
                  ("Upgrade successfully scheduled for cluster '"
                   ++ UpgradeCluster.clusterKey a ++ "'")) as Hs.
    cbv zeta in Hs.
    destruct (sendAddUpgradePolicy w (ID cl) _) as [[] | e1].
    + destruct (sendUpdateCluster w (ID cl) _) as [[] | e2];
        rewrite Hs, defer_closeConnection in Hin; cbn [snd] in Hin.
      * apply in_app_or in Hin. destruct Hin as [Hin | Hin].
        -- cbn [In] in Hin.
           destruct Hin as [<- | [<- | [<- | []]]];
             [left; reflexivity | right; reflexivity | discriminate].
        -- exfalso. exact (Hno _ (noMutation_closeConnection w) Hin).
      * cbn [In] in Hin.
        destruct Hin as [<- | [<- | [<- | []]]];
          [left; reflexivity | right; reflexivity | discriminate].
    + rewrite Hs, defer_closeConnection in Hin. cbn [snd In] in Hin.
      destruct Hin as [<- | [<- | []]]; [left; reflexivity | discriminate].
Qed.


(** ** Whole numbers as [float64] *)

Lemma iter_pos_iter {A} (f : A -> A) n : forall x, iter_pos f n x = Pos.iter f x n.
Proof.
  induction n as [n IH | n IH |]; intros x; simpl.
  - rewrite !IH. rewrite <- !Pos.iter_swap. reflexivity.
  - rewrite !IH. reflexivity.
  - reflexivity.
Qed.

Lemma iter_succ_r {A} (f : A -> A) x p :
  Pos.iter f x (Pos.succ p) = Pos.iter f (f x) p.
Proof. rewrite Pos.iter_succ, Pos.iter_swap. reflexivity. Qed.

Lemma shr_shifted k : forall q,
  Pos.iter shr_1 (Build_shr_record (Zpos (Pos.iter xO q k)) false false) k
  = Build_shr_record (Zpos q) false false.
Proof.
  induction k as [| k IH] using Pos.peano_ind; intros q.
  - reflexivity.
  - rewrite iter_succ_r. rewrite Pos.iter_succ. cbn [shr_1 orb]. apply IH.
Qed.

Lemma digits2_shifted k : forall q,
  digits2_pos (Pos.iter xO q k) = (digits2_pos q + k)%positive.
Proof.
  induction k as [| k IH] using Pos.peano_ind; intros q.
  - simpl. lia.
  - rewrite Pos.iter_succ. cbn [digits2_pos]. rewrite IH. lia.
Qed.

Lemma value_shifted k : forall q,
  Zpos (Pos.iter xO q k) = Zpos q * 2 ^ Zpos k.
Proof.
  induction k as [| k IH] using Pos.peano_ind; intros q.
  - simpl. lia.
  - rewrite Pos.iter_succ, Pos2Z.inj_xO, IH, Pos2Z.inj_succ, Z.pow_succ_r by lia.
    lia.
Qed.

Lemma digits2_bounds p :
  2 ^ (Zpos (digits2_pos p) - 1) <= Zpos p < 2 ^ Zpos (digits2_pos p).
Proof.
  induction p as [p IH | p IH |]; cbn [digits2_pos].
  - rewrite Pos2Z.inj_succ, Z.pow_succ_r by lia.
    replace (Z.succ (Zpos (digits2_pos p)) - 1)
      with (Z.succ (Zpos (digits2_pos p) - 1)) by lia.
    rewrite Z.pow_succ_r by lia. lia.
  - rewrite Pos2Z.inj_succ, Z.pow_succ_r by lia.
    replace (Z.succ (Zpos (digits2_pos p)) - 1)
      with (Z.succ (Zpos (digits2_pos p) - 1)) by lia.
    rewrite Z.pow_succ_r by lia. lia.
  - simpl. lia.
Qed.

Lemma digits2_le p n : 0 <= n -> Zpos p < 2 ^ n -> Zpos (digits2_pos p) <= n.
Proof.
  intros Hn Hp. destruct (Z.le_gt_cases (Zpos (digits2_pos p)) n) as [H | H];
    [assumption | exfalso].
  pose proof (digits2_bounds p) as [Hlo _].
  assert (2 ^ n <= 2 ^ (Zpos (digits2_pos p) - 1))
    by (apply Z.pow_le_mono_r; lia).
  lia.
Qed.

Lemma digits2_mono p q :
  Zpos p <= Zpos q -> Zpos (digits2_pos p) <= Zpos (digits2_pos q).
Proof.
  intros H. apply digits2_le; [lia |].
  pose proof (digits2_bounds q). lia.
Qed.

(** A mantissa of 53 bits and an exponent in range is left as it is. *)
Lemma binary_round_aux_canonical s m e :
  Zpos (digits2_pos m) = 53 -> - 1074 <= e <= 971 ->
  binary_round_aux 53 1024 s (Zpos m) e loc_Exact = S754_finite s m e.
Proof.
  intros Hd He. unfold binary_round_aux, shr_fexp, fexp, emin.
  cbn [Zdigits2 shr_record_of_loc]. rewrite Hd.
  replace (Z.max (53 + e - 53) (3 - 1024 - 53) - e) with 0 by lia.
  cbn [shr shr_m loc_of_shr_record round_nearest_even Zdigits2].
  rewrite Hd.
  replace (Z.max (53 + e - 53) (3 - 1024 - 53) - e) with 0 by lia.
  cbn [shr shr_m].
  replace (e <=? 1024 - 53) with true by (symmetry; apply Z.leb_le; lia).
  reflexivity.
Qed.

(** The binary64 of a positive integer of at most 53 bits: the integer
    itself, shifted to 53 bits. *)
Lemma binary_round_int s p :
  Zpos (digits2_pos p) <= 53 ->
  binary_round 53 1024 s p 0 =
  S754_finite s (Pos.shiftl p (Z.to_N (53 - Zpos (digits2_pos p))))
              (Zpos (digits2_pos p) - 53).
Proof.
  intros Hd. unfold binary_round, shl_align, fexp, emin.
  replace (Z.max (Zpos (digits2_pos p) + 0 - 53) (3 - 1024 - 53) - 0)
    with (Zpos (digits2_pos p) - 53) by lia.
  replace (Z.max (Zpos (digits2_pos p) + 0 - 53) (3 - 1024 - 53))
    with (Zpos (digits2_pos p) - 53) by lia.
  destruct (Zpos (digits2_pos p) - 53) as [| k | k] eqn:Hk; [| lia |].
  - replace (53 - Zpos (digits2_pos p)) with 0 by lia. cbn [Z.to_N Pos.shiftl].
    apply binary_round_aux_canonical; lia.
  - replace (53 - Zpos (digits2_pos p)) with (Zpos k) by lia.
    cbn [Z.to_N Pos.shiftl].
    apply binary_round_aux_canonical; [| lia].
    rewrite digits2_shifted. lia.
Qed.

Lemma value_shiftl p k :
  0 <= k -> Zpos (Pos.shiftl p (Z.to_N k)) = Zpos p * 2 ^ k.
Proof.
  intros Hk. destruct k as [| k | k]; [simpl; lia | | lia].
  cbn [Z.to_N Pos.shiftl]. apply value_shifted.
Qed.

Lemma digits2_shiftl p k :
  0 <= k -> Zpos (digits2_pos (Pos.shiftl p (Z.to_N k))) = Zpos (digits2_pos p) + k.
Proof.
  intros Hk. destruct k as [| k | k]; [simpl; lia | | lia].
  cbn [Z.to_N Pos.shiftl]. rewrite digits2_shifted. lia.
Qed.

Lemma ofInt_pos p :
  Zpos p < 2 ^ 53 ->
  ofInt (Zpos p) =
  S754_finite false (Pos.shiftl p (Z.to_N (53 - Zpos (digits2_pos p))))
              (Zpos (digits2_pos p) - 53).
Proof.
  intros Hp. unfold ofInt, prec, emax, binary_normalize.
  apply binary_round_int. apply digits2_le; [lia | assumption].
Qed.

Lemma ofInt_neg p :
  Zpos p < 2 ^ 53 ->
  ofInt (Zneg p) =
  S754_finite true (Pos.shiftl p (Z.to_N (53 - Zpos (digits2_pos p))))
              (Zpos (digits2_pos p) - 53).
Proof.
  intros Hp. unfold ofInt, prec, emax, binary_normalize.
  apply binary_round_int. apply digits2_le; [lia | assumption].
Qed.

(** An integer below [2 ^ 53] in magnitude survives the conversion to
    [float64] and back. *)
Lemma toInt_ofInt v : - 2 ^ 53 < v < 2 ^ 53 -> toInt (ofInt v) = v.
Proof.
  intros Hv.
  assert (Hpos : forall p s, Zpos p < 2 ^ 53 ->
            toInt (S754_finite s (Pos.shiftl p (Z.to_N (53 - Zpos (digits2_pos p))))
                     (Zpos (digits2_pos p) - 53))
            = if s then - Zpos p else Zpos p).
  { intros p s Hp.
    assert (Hd : Zpos (digits2_pos p) <= 53) by (apply digits2_le; lia).
    unfold toInt. rewrite value_shiftl by lia.
    assert (Hval : (if 0 <=? Zpos (digits2_pos p) - 53
                    then Zpos p * 2 ^ (53 - Zpos (digits2_pos p))
                         * 2 ^ (Zpos (digits2_pos p) - 53)
                    else Zpos p * 2 ^ (53 - Zpos (digits2_pos p))
                         / 2 ^ (- (Zpos (digits2_pos p) - 53))) = Zpos p).
    { destruct (Z.leb_spec 0 (Zpos (digits2_pos p) - 53)).
      - replace (Zpos (digits2_pos p) - 53) with 0 by lia.
        replace (53 - Zpos (digits2_pos p)) with 0 by lia. simpl. lia.
      - replace (- (Zpos (digits2_pos p) - 53)) with (53 - Zpos (digits2_pos p))
          by lia.
        apply Z.div_mul. apply Z.pow_nonzero; lia. }
    rewrite Hval.
    assert (H63 : 2 ^ 53 < 2 ^ 63) by (apply Z.pow_lt_mono_r; lia).
    destruct s.
    - replace ((- 2 ^ 63 <=? - Zpos p) && (- Zpos p <? 2 ^ 63)) with true;
        [reflexivity |].
      symmetry. apply andb_true_iff. split; [apply Z.leb_le | apply Z.ltb_lt]; lia.
    - replace ((- 2 ^ 63 <=? Zpos p) && (Zpos p <? 2 ^ 63)) with true;
        [reflexivity |].
      symmetry. apply andb_true_iff. split; [apply Z.leb_le | apply Z.ltb_lt]; lia. }
  destruct v as [| p | p].
  - reflexivity.
  - rewrite ofInt_pos by lia. apply (Hpos p false). lia.
  - rewrite ofInt_neg by lia. apply (Hpos p true). lia.
Qed.

(** Rounding a mantissa that ends in enough zeros only drops the zeros. *)
Lemma binary_round_aux_exact s q k e :
  Zpos (digits2_pos q) = 53 -> - 1074 <= e + Zpos k <= 971 ->
  binary_round_aux 53 1024 s (Zpos (Pos.iter xO q k)) e loc_Exact
  = S754_finite s q (e + Zpos k).
Proof.
  intros Hd He. unfold binary_round_aux, shr_fexp, fexp, emin.
  cbn [Zdigits2 shr_record_of_loc]. rewrite digits2_shifted.
  rewrite Pos2Z.inj_add, Hd.
  replace (Z.max (53 + Zpos k + e - 53) (3 - 1024 - 53) - e) with (Zpos k) by lia.
  cbn [shr]. rewrite iter_pos_iter, shr_shifted.
  cbn [shr_m loc_of_shr_record round_nearest_even Zdigits2].
  rewrite Hd.
  replace (Z.max (53 + (e + Zpos k) - 53) (3 - 1024 - 53) - (e + Zpos k))
    with 0 by lia.
  cbn [shr shr_m].
  replace (e + Zpos k <=? 1024 - 53) with true by (symmetry; apply Z.leb_le; lia).
  reflexivity.
Qed.

(** Multiplying a whole number of hours by 60 is exact as long as the
    minutes stay below [2 ^ 53]. *)
Lemma mul_ofInt_60 n :
  0 <= n -> 60 * n < 2 ^ 53 -> mul (ofInt n) (ofInt 60) = ofInt (60 * n).
Proof.
  intros Hn Hlt. destruct n as [| a | a]; [reflexivity | | lia].
  change (60 * Zpos a) with (Zpos (60 * a)%positive).
  rewrite (ofInt_pos a) by lia. rewrite (ofInt_pos (60 * a)%positive) by lia.
  change (ofInt 60) with (S754_finite false (Pos.iter xO 60%positive 47%positive) (- 47)).
  unfold mul, SFmul, prec, emax. cbn [xorb].
  set (da := Zpos (digits2_pos a)). set (dp := Zpos (digits2_pos (60 * a)%positive)).
  assert (Hda : da <= dp) by (apply digits2_mono; lia).
  assert (Hdp : dp <= 53) by (apply digits2_le; lia).
  assert (Hda0 : 0 < da) by (subst da; lia).
  set (q := Pos.shiftl (60 * a)%positive (Z.to_N (53 - dp))).
  assert (Hk : exists k, Zpos k = dp - da + 47).
  { exists (Z.to_pos (dp - da + 47)). rewrite Z2Pos.id; lia. }
  destruct Hk as [k Hk].
  assert (Hprod : (Pos.shiftl a (Z.to_N (53 - da)) * Pos.iter xO 60%positive 47%positive)%positive
                  = Pos.iter xO q k).
  { apply Pos2Z.inj. rewrite Pos2Z.inj_mul, value_shifted.
    subst q. rewrite value_shifted, Hk. rewrite !value_shiftl by lia.
    rewrite Pos2Z.inj_mul.
    replace (dp - da + 47) with ((53 - da) + 47 - (53 - dp)) by lia.
    assert (H2 : 2 ^ (53 - da) * 2 ^ Zpos 47
                 = 2 ^ (53 - dp) * 2 ^ ((53 - da) + 47 - (53 - dp))).
    { rewrite <- !Z.pow_add_r by lia. f_equal. lia. }
    nia. }
  rewrite Hprod.
  rewrite binary_round_aux_exact.
  - f_equal. lia.
  - subst q. rewrite digits2_shiftl by lia. fold dp. lia.
  - lia.
Qed.

Lemma ofInt_finite v :
  - 2 ^ 53 < v < 2 ^ 53 ->
  match ofInt v with S754_infinity _ => False | _ => True end.
Proof.
  intros Hv. destruct v as [| p | p].
  - exact I.
  - rewrite ofInt_pos by lia. exact I.
  - rewrite ofInt_neg by lia. exact I.
Qed.

(** ** The text of the grace period *)

Lemma scanDigits_digit d rest a c :
  0 <= d < 10 ->
  scanDigits (String (digitChar d) rest) a c = scanDigits rest (a * 10 + d) (c + 1).
Proof.
  intros Hd. cbn [scanDigits].
  destruct (digitChar_facts d Hd) as (-> & -> & _). reflexivity.
Qed.

Lemma digitsInto_scan fuel : forall u acc,
  0 <= u < 10 ^ Z.of_nat (S fuel) ->
  exists k, 0 < k /\
    forall a c, scanDigits (digitsInto (S fuel) u acc) a c
                = scanDigits acc (a * 10 ^ k + u) (c + k).
Proof.
  induction fuel as [| fuel IH]; intros u acc Hu.
  - exists 1. split; [lia |]. intros a c. cbn [digitsInto].
    change (10 ^ Z.of_nat 1) with 10 in Hu.
    replace (u <? 10) with true by (symmetry; apply Z.ltb_lt; lia).
    rewrite scanDigits_digit by lia. f_equal; lia.
  - cbn [digitsInto]. destruct (Z.ltb_spec u 10) as [Hlt | Hge].
    + exists 1. split; [lia |]. intros a c.
      rewrite scanDigits_digit by lia. f_equal; lia.
    + rewrite Nat2Z.inj_succ, Z.pow_succ_r in Hu by lia.
      destruct (IH (u / 10) (String (digitChar (u mod 10)) acc)) as (k & Hk & Hscan).
      { Z.div_mod_to_equations. lia. }
      exists (k + 1). split; [lia |]. intros a c.
      rewrite Hscan. rewrite scanDigits_digit by (Z.div_mod_to_equations; lia).
      rewrite Z.pow_add_r by lia. f_equal; [| lia].
      change (10 ^ 1) with 10. Z.div_mod_to_equations. nia.
Qed.

Lemma digitsInto_head fuel : forall u acc,
  0 <= u ->
  exists d rest, 0 <= d < 10 /\ digitsInto (S fuel) u acc = String (digitChar d) rest.
Proof.
  induction fuel as [| fuel IH]; intros u acc Hu; cbn [digitsInto].
  - destruct (Z.ltb_spec u 10).
    + exists u, acc. split; [lia | reflexivity].
    + exists (u mod 10), acc. split; [Z.div_mod_to_equations; lia | reflexivity].
  - destruct (Z.ltb_spec u 10).
    + exists u, acc. split; [lia | reflexivity].
    + apply IH. Z.div_mod_to_equations. lia.
Qed.

Lemma Split_cons c s :
  Ascii.eqb c " " = false -> Split s " " = [s] ->
  Split (String c s) " " = [String c s].
Proof. intros Hc Hs. cbn [Split]. rewrite Hc, Hs. reflexivity. Qed.

Lemma digitsInto_Split fuel : forall u acc,
  0 <= u -> Split acc " " = [acc] ->
  Split (digitsInto fuel u acc) " " = [digitsInto fuel u acc].
Proof.
  induction fuel as [| fuel IH]; intros u acc Hu Hacc; cbn [digitsInto];
    [assumption |].
  destruct (Z.ltb_spec u 10).
  - apply Split_cons; [| assumption].
    apply (digitChar_facts u). lia.
  - apply IH; [Z.div_mod_to_equations; lia |].
    apply Split_cons; [| assumption].
    apply (digitChar_facts (u mod 10)). Z.div_mod_to_equations. lia.
Qed.

Lemma FormatInt_Split n : Split (FormatInt n) " " = [FormatInt n].
Proof.
  unfold FormatInt. destruct (Z.ltb_spec n 0).
  - apply Split_cons; [reflexivity |]. apply digitsInto_Split; [lia | reflexivity].
  - apply digitsInto_Split; [lia | reflexivity].
Qed.

Lemma Split_nonempty s sep : Split s sep <> [].
Proof.
  destruct s as [| c s]; cbn [Split]; [discriminate |].
  destruct (Ascii.eqb c sep); [discriminate |].
  destruct (Split s sep); discriminate.
Qed.

(** A text without spaces, a space and a second text split in two. *)
Lemma Split_append s : forall t,
  Split s " " = [s] -> Split (s ++ String " " t) " " = s :: Split t " ".
Proof.
  induction s as [| c s IH]; intros t Hs.
  - reflexivity.
  - cbn [Split String.append] in *. revert Hs.
    destruct (Ascii.eqb c " "); [discriminate |].
    destruct (Split s " ") as [| w ws] eqn:Hsplit;
      [exfalso; exact (Split_nonempty s " " Hsplit) |].
    intros Hs. injection Hs as -> ->. rewrite (IH t eq_refl). reflexivity.
Qed.

Lemma special_digit d rest :
  0 <= d < 10 -> special (String (digitChar d) rest) = None.
Proof.
  intros Hd.
  assert (Hc : d = 0 \/ d = 1 \/ d = 2 \/ d = 3 \/ d = 4 \/ d = 5 \/ d = 6
               \/ d = 7 \/ d = 8 \/ d = 9) by lia.
  repeat (destruct Hc as [-> | Hc]; [reflexivity |]). subst d. reflexivity.
Qed.

Lemma special_minus_digit d rest :
  0 <= d < 10 -> special (String "-" (String (digitChar d) rest)) = None.
Proof.
  intros Hd.
  assert (Hc : d = 0 \/ d = 1 \/ d = 2 \/ d = 3 \/ d = 4 \/ d = 5 \/ d = 6
               \/ d = 7 \/ d = 8 \/ d = 9) by lia.
  repeat (destruct Hc as [-> | Hc]; [reflexivity |]). subst d. reflexivity.
Qed.

(** A decimal digit in the digit loop, when it is not a leading zero. *)
Lemma scanMantissa_digit d rest st :
  0 <= d < 10 -> d <> 0 \/ nd st <> 0 ->
  scanMantissa false (String (digitChar d) rest) st =
  scanMantissa false rest
    (mkDigits (mantissa st * 10 + d) (nd st + 1) (dp st) (sawdot st) true
              (underscores st)).
Proof.
  intros Hd Hnz.
  assert (Hc : d = 0 \/ d = 1 \/ d = 2 \/ d = 3 \/ d = 4 \/ d = 5 \/ d = 6
               \/ d = 7 \/ d = 8 \/ d = 9) by lia.
  destruct Hc as [-> | Hc].
  - destruct Hnz as [Hnz | Hnz]; [contradiction |].
    apply Z.eqb_neq in Hnz.
    change (scanMantissa false (String (digitChar 0) rest) st)
      with (if true && (nd st =? 0)
            then scanMantissa false rest
                   (mkDigits (mantissa st) (nd st) (dp st - 1) (sawdot st)
                             true (underscores st))
            else scanMantissa false rest
                   (mkDigits (mantissa st * 10 + 0) (nd st + 1) (dp st)
                             (sawdot st) true (underscores st))).
    rewrite Hnz. reflexivity.
  - repeat (destruct Hc as [-> | Hc]; [reflexivity |]). subst d. reflexivity.
Qed.

Lemma digitsInto_S fuel u acc :
  digitsInto (S fuel) u acc =
  if u <? 10 then String (digitChar u) acc
  else digitsInto fuel (u / 10) (String (digitChar (u mod 10)) acc).
Proof. reflexivity. Qed.

Lemma digitsInto_scanMantissa fuel : forall u acc st,
  0 <= u < 10 ^ Z.of_nat (S fuel) -> 0 < u \/ 0 < nd st -> 0 <= nd st ->
  exists k, 0 < k /\
    scanMantissa false (digitsInto (S fuel) u acc) st =
    scanMantissa false acc
      (mkDigits (mantissa st * 10 ^ k + u) (nd st + k) (dp st) (sawdot st)
                true (underscores st)).
Proof.
  induction fuel as [| fuel IH]; intros u acc st Hu Hnz Hnd.
  - exists 1. split; [lia |]. rewrite digitsInto_S.
    change (10 ^ Z.of_nat 1) with 10 in Hu.
    replace (u <? 10) with true by (symmetry; apply Z.ltb_lt; lia).
    rewrite scanMantissa_digit by lia. do 2 f_equal; lia.
  - rewrite digitsInto_S. destruct (Z.ltb_spec u 10) as [Hlt | Hge].
    + exists 1. split; [lia |].
      rewrite scanMantissa_digit by lia. do 2 f_equal; lia.
    + rewrite Nat2Z.inj_succ, Z.pow_succ_r in Hu by lia.
      destruct (IH (u / 10) (String (digitChar (u mod 10)) acc) st)
        as (k & Hk & Hscan).
      { Z.div_mod_to_equations. lia. }
      { left. Z.div_mod_to_equations. lia. }
      { assumption. }
      exists (k + 1). split; [lia |].
      rewrite Hscan.
      rewrite scanMantissa_digit;
        [| Z.div_mod_to_equations; lia | right; cbn [nd]; lia].
      cbn [mantissa nd dp sawdot sawdigits underscores].
      rewrite Z.pow_add_r by lia. change (10 ^ 1) with 10.
      f_equal. f_equal; [| lia].
      Z.div_mod_to_equations. nia.
Qed.

Lemma digitsInto_head_nonzero fuel : forall u acc,
  0 < u < 10 ^ Z.of_nat (S fuel) ->
  exists d rest,
    0 < d < 10 /\ digitsInto (S fuel) u acc = String (digitChar d) rest.
Proof.
  induction fuel as [| fuel IH]; intros u acc Hu; cbn [digitsInto].
  - change (10 ^ Z.of_nat 1) with 10 in Hu.
    replace (u <? 10) with true by (symmetry; apply Z.ltb_lt; lia).
    exists u, acc. split; [lia | reflexivity].
  - destruct (Z.ltb_spec u 10).
    + exists u, acc. split; [lia | reflexivity].
    + rewrite Nat2Z.inj_succ, Z.pow_succ_r in Hu by lia.
      apply IH. Z.div_mod_to_equations. lia.
Qed.

(** The decimal digits of a number, with or without a minus sign, read
    as that number in base 10, unscaled. *)
Lemma readFloat_digits u :
  0 <= u < 10 ^ 20 ->
  readFloat (digitsInto 20 u "") = Some (false, false, u, 0)
  /\ readFloat (String "-" (digitsInto 20 u "")) = Some (true, false, u, 0).
Proof.
  intros Hu. destruct (Z.eq_dec u 0) as [-> | Hnz].
  { split; reflexivity. }
  destruct (digitsInto_head_nonzero 19 u "") as (d & rest & Hd & Hhead);
    [change (10 ^ Z.of_nat 20) with (10 ^ 20); lia |].
  destruct (digitsInto_scanMantissa 19 u "" (mkDigits 0 0 0 false false false))
    as (k & Hk & Hscan);
    [change (10 ^ Z.of_nat 20) with (10 ^ 20); lia | left; lia
    | cbn [nd]; lia |].
  cbn [mantissa nd dp sawdot sawdigits underscores scanMantissa] in Hscan.
  replace (0 * 10 ^ k + u) with u in Hscan by lia.
  replace (0 + k) with k in Hscan by lia.
  assert (Hplain : forall (A : Type) (x y : string -> A) (z : A),
             match String (digitChar d) rest with
             | String "+" r => x r | String "-" r => y r | _ => z end = z).
  { intros A x y z.
    assert (Hc : d = 1 \/ d = 2 \/ d = 3 \/ d = 4 \/ d = 5 \/ d = 6
                 \/ d = 7 \/ d = 8 \/ d = 9) by lia.
    repeat (destruct Hc as [-> | Hc]; [reflexivity |]). subst d. reflexivity. }
  assert (Hprefix : forall (A : Type) (x : ascii -> ascii -> string -> A) (z : A),
             match String (digitChar d) rest with
             | String "0" (String c1 (String c2 r)) => x c1 c2 r
             | _ => z end = z).
  { intros A x z.
    assert (Hc : d = 1 \/ d = 2 \/ d = 3 \/ d = 4 \/ d = 5 \/ d = 6
                 \/ d = 7 \/ d = 8 \/ d = 9) by lia.
    repeat (destruct Hc as [-> | Hc]; [reflexivity |]). subst d. reflexivity. }
  assert (Hk0 : (u =? 0) = false) by (apply Z.eqb_neq; lia).
  split.
  - unfold readFloat. rewrite Hhead.
    rewrite (Hplain _ (fun r => (false, r)) (fun r => (true, r))).
    rewrite (Hprefix _ (fun c1 c2 r =>
               if Ascii.eqb (lower c1) "x" then (true, String c2 r)
               else (false, String (digitChar d) rest))).
    rewrite <- Hhead, Hscan.
    cbn [sawdigits negb sawdot nd mantissa underscores readExponent andb].
    rewrite Hk0. do 3 f_equal. lia.
  - unfold readFloat. rewrite Hhead.
    rewrite (Hprefix _ (fun c1 c2 r =>
               if Ascii.eqb (lower c1) "x" then (true, String c2 r)
               else (false, String (digitChar d) rest))).
    rewrite <- Hhead, Hscan.
    cbn [sawdigits negb sawdot nd mantissa underscores readExponent andb].
    rewrite Hk0. do 3 f_equal. lia.
Qed.

(** The decimal text of an integer below [2 ^ 53] in magnitude parses to
    the [float64] of that integer. *)
Lemma ParseFloat_FormatInt q n :
  - 2 ^ 53 < n < 2 ^ 53 -> ParseFloat q (FormatInt n) = Ok (ofInt n).
Proof.
  intros Hn.
  assert (H20 : 2 ^ 53 < 10 ^ 20) by (vm_compute; reflexivity).
  assert (Hdigits : forall u, 0 <= u < 2 ^ 53 ->
            special (digitsInto 20 u "") = None
            /\ special (String "-" (digitsInto 20 u "")) = None
            /\ readFloat (digitsInto 20 u "") = Some (false, false, u, 0)
            /\ readFloat (String "-" (digitsInto 20 u ""))
               = Some (true, false, u, 0)).
  { intros u Hu.
    destruct (digitsInto_head 19 u "") as (d & rest & Hd & Hhead); [lia |].
    destruct (readFloat_digits u) as [Hr1 Hr2]; [lia |].
    rewrite Hhead in *.
    repeat split; [apply special_digit | apply special_minus_digit | |];
      assumption. }
  assert (Hfin : forall v, - 2 ^ 53 < v < 2 ^ 53 ->
            match ofInt v with
            | S754_infinity _ =>
                Err ("strconv.ParseFloat: parsing " ++ q (FormatInt n)
                     ++ ": value out of range")
            | f => Ok f
            end = Ok (ofInt v)).
  { intros v Hv. pose proof (ofInt_finite v Hv) as Hf.
    destruct (ofInt v); [reflexivity | contradiction | reflexivity | reflexivity]. }
  unfold ParseFloat, FormatInt. destruct (Z.ltb_spec n 0) as [Hneg | Hpos].
  - destruct (Hdigits (- n)) as (_ & -> & _ & ->); [lia |].
    unfold decimalToFloat.
    replace (- n =? 0) with false by (symmetry; apply Z.eqb_neq; lia).
    cbn [Z.leb Z.compare]. rewrite Z.pow_0_r, Z.mul_1_r, Z.opp_involutive.
    fold (ofInt n). unfold FormatInt in Hfin.
    replace (n <? 0) with true in Hfin by (symmetry; apply Z.ltb_lt; lia).
    apply Hfin. lia.
  - destruct (Hdigits n) as (-> & _ & -> & _); [lia |].
    unfold decimalToFloat. destruct (Z.eqb_spec n 0) as [-> | Hnz];
      [reflexivity |].
    cbn [Z.leb Z.compare]. rewrite Z.pow_0_r, Z.mul_1_r.
    fold (ofInt n). unfold FormatInt in Hfin.
    replace (n <? 0) with false in Hfin by (symmetry; apply Z.ltb_ge; lia).
    apply Hfin. lia.
Qed.

(** Hexadecimal texts, underscores between digits and the special
    names. *)
Example ParseFloat_other_forms q :
  ParseFloat q "0x1p4" = Ok (ofInt 16)
  /\ ParseFloat q "0X1.8P+1" = Ok (ofInt 3)
  /\ ParseFloat q "1_5" = Ok (ofInt 15)
  /\ ParseFloat q "0x_1F.8p-3" = ParseFloat q "3.9375"
  /\ ParseFloat q "0x1" = Err ("strconv.ParseFloat: parsing " ++ q "0x1"
                               ++ ": invalid syntax")
  /\ ParseFloat q "_15" = Err ("strconv.ParseFloat: parsing " ++ q "_15"
                               ++ ": invalid syntax")
  /\ ParseFloat q "1__5" = Err ("strconv.ParseFloat: parsing " ++ q "1__5"
                                ++ ": invalid syntax")
  /\ ParseFloat q "+Inf" = Ok (S754_infinity false)
  /\ ParseFloat q "-infinity" = Ok (S754_infinity true)
  /\ ParseFloat q "NaN" = Ok S754_nan
  /\ ParseFloat q "+nan" = Err ("strconv.ParseFloat: parsing " ++ q "+nan"
                                ++ ": invalid syntax").
Proof. repeat split; vm_compute; reflexivity. Qed.

Lemma FormatInt_nonempty n t : String.eqb (FormatInt n ++ t) "" = false.
Proof.
  unfold FormatInt. destruct (Z.ltb_spec n 0); [reflexivity |].
  destruct (digitsInto_head 19 n "") as (d & rest & _ & ->); [lia |].
  reflexivity.
Qed.

Lemma parseNodeDrain_pieces w s number unit rest x :
  Split s " " = number :: unit :: rest ->
  ParseFloat (quote w) number = Ok x ->
  UpgradeCluster.parseNodeDrain w s =
  (inl (if String.eqb unit "hours" || String.eqb unit "hour"
        then mul x (ofInt 60) else x), []).
Proof.
  intros Hsplit Hparse. unfold UpgradeCluster.parseNodeDrain.
  rewrite Hsplit. cbn [index nth_error]. unfold ret. rewrite bind_ret_l.
  rewrite Hparse. cbn [orExit]. unfold ret. rewrite bind_ret_l.
  rewrite bind_ret_l. reflexivity.
Qed.

(** C8.  When the text splits at its spaces into a number, a unit and
    possibly more, and the number parses to [x], the grace period in
    minutes is [x * 60] if the unit is [hours] or [hour] and [x]
    otherwise.  In particular [2 hours] gives 120, [45 minutes] gives 45
    and [1 hour] gives 60. *)
Theorem grace_period_normalization w s number unit rest x :
  Split s " " = number :: unit :: rest ->
  ParseFloat (quote w) number = Ok x ->
  UpgradeCluster.parseNodeDrain w s =
    (inl (if String.eqb unit "hours" || String.eqb unit "hour"
          then mul x (ofInt 60) else x), [])
  /\ UpgradeCluster.parseNodeDrain w "2 hours" = (inl (ofInt 120), [])
  /\ UpgradeCluster.parseNodeDrain w "45 minutes" = (inl (ofInt 45), [])
  /\ UpgradeCluster.parseNodeDrain w "1 hour" = (inl (ofInt 60), []).
Proof.
  intros Hsplit Hparse.
  split; [exact (parseNodeDrain_pieces w s number unit rest x Hsplit Hparse) |].
  repeat split; vm_compute; reflexivity.
Qed.

Lemma grace_period_normalization_witness :
  UpgradeCluster.parseNodeDrain Scenario.world "8 hours"
  = (inl (ofInt 480), []).
Proof.
  destruct (grace_period_normalization Scenario.world "8 hours" "8" "hours"
              [] (ofInt 8))
    as [H _]; [reflexivity | vm_compute; reflexivity |].
  rewrite H. vm_compute. reflexivity.
Defined.

(** The text shown for a stored grace period in minutes: the whole
    part, in hours from 60 on. *)
Lemma storedNodeDrain_value cl x :
  NodeDrainGracePeriod cl = Some (mkValue (Some x) (Some "minutes")) ->
  UpgradeCluster.storedNodeDrain cl =
  if toInt x <? 60 then FormatInt (toInt x) ++ " minutes"
  else FormatInt (toInt x / 60)
       ++ (if toInt x / 60 =? 1 then " hour" else " hours").
Proof.
  intros Hnd. unfold UpgradeCluster.storedNodeDrain. rewrite Hnd.
  cbn [GetValue snd Value_ fst Unit_].
  destruct (Z.leb_spec 60 (toInt x)) as [Hge | Hlt].
  - replace (toInt x <? 60) with false by (symmetry; apply Z.ltb_ge; lia).
    rewrite Z.quot_div_nonneg by lia.
    destruct (toInt x / 60 =? 1); reflexivity.
  - replace (toInt x <? 60) with true by (symmetry; apply Z.ltb_lt; lia).
    reflexivity.
Qed.

Lemma storedNodeDrain_minutes cl v :
  - 2 ^ 53 < v < 2 ^ 53 ->
  NodeDrainGracePeriod cl = Some (mkValue (Some (ofInt v)) (Some "minutes")) ->
  UpgradeCluster.storedNodeDrain cl =
  if v <? 60 then FormatInt v ++ " minutes"
  else FormatInt (v / 60) ++ (if v / 60 =? 1 then " hour" else " hours").
Proof.
  intros Hv Hnd. rewrite (storedNodeDrain_value cl (ofInt v) Hnd).
  rewrite toInt_ofInt by assumption. reflexivity.
Qed.

Lemma parseNodeDrain_stored w cl x :
  - 2 ^ 53 < toInt x < 2 ^ 53 ->
  NodeDrainGracePeriod cl = Some (mkValue (Some x) (Some "minutes")) ->
  UpgradeCluster.parseNodeDrain w (UpgradeCluster.storedNodeDrain cl) =
  (inl (ofInt (if toInt x <? 60 then toInt x else 60 * (toInt x / 60))), []).
Proof.
  intros Hv Hnd. rewrite (storedNodeDrain_value cl x Hnd).
  set (v := toInt x) in *.
  destruct (Z.ltb_spec v 60) as [Hlt | Hge].
  - rewrite (parseNodeDrain_pieces w _ (FormatInt v) "minutes" [] (ofInt v)).
    + reflexivity.
    + change (FormatInt v ++ " minutes")
        with (FormatInt v ++ String " " "minutes").
      rewrite Split_append by apply FormatInt_Split. reflexivity.
    + apply ParseFloat_FormatInt. assumption.
  - assert (Hq : 0 <= v / 60 /\ 60 * (v / 60) <= v)
      by (Z.div_mod_to_equations; lia).
    destruct (v / 60 =? 1).
    + rewrite (parseNodeDrain_pieces w _ (FormatInt (v / 60)) "hour" []
                 (ofInt (v / 60))).
      * cbn [String.eqb Ascii.eqb Bool.eqb orb]. rewrite mul_ofInt_60 by lia.
        reflexivity.
      * change (FormatInt (v / 60) ++ " hour")
          with (FormatInt (v / 60) ++ String " " "hour").
        rewrite Split_append by apply FormatInt_Split. reflexivity.
      * apply ParseFloat_FormatInt. lia.
    + rewrite (parseNodeDrain_pieces w _ (FormatInt (v / 60)) "hours" []
                 (ofInt (v / 60))).
      * cbn [String.eqb Ascii.eqb Bool.eqb orb]. rewrite mul_ofInt_60 by lia.
        reflexivity.
      * change (FormatInt (v / 60) ++ " hours")
          with (FormatInt (v / 60) ++ String " " "hours").
        rewrite Split_append by apply FormatInt_Split. reflexivity.
      * apply ParseFloat_FormatInt. lia.
Qed.

Lemma resolveNodeDrain_stored w a cl x :
  interactiveEnabled w = false ->
  UpgradeCluster.nodeDrainGracePeriodFlag a = None ->
  NodeDrainGracePeriod cl = Some (mkValue (Some x) (Some "minutes")) ->
  UpgradeCluster.resolveNodeDrain w a cl =
  (inl (UpgradeCluster.storedNodeDrain cl), []).
Proof.
  intros Hi Hflag Hnd. unfold UpgradeCluster.resolveNodeDrain.
  unfold UpgradeCluster.nodeDrainGracePeriodChanged. rewrite Hi, Hflag.
  rewrite (storedNodeDrain_value cl x Hnd).
  destruct (toInt x <? 60); rewrite FormatInt_nonempty; reflexivity.
Qed.

(** C10, as amended.  When interactive mode is off, the grace-period
    flag is not passed and the cluster stores [x] minutes, the command
    first cuts the fraction of [x] off: with [n = int(x)], below
    [2 ^ 53] in magnitude, the cluster update carries [n] minutes if
    [n < 60] and [60 * (n / 60)] minutes otherwise, the division being
    the integer one.  What is submitted equals what is stored exactly
    when [x] is the whole number [n] and [n < 60] or [n] is a multiple
    of 60.  For a stored whole number [v], [n] is [v]. *)
Theorem upgrade_resubmits_stored_grace_period w a x id spec :
  interactiveEnabled w = false ->
  UpgradeCluster.nodeDrainGracePeriodFlag a = None ->
  - 2 ^ 53 < toInt x < 2 ^ 53 ->
  (forall key arn cl, getCluster w key arn = Ok cl ->
     NodeDrainGracePeriod cl = Some (mkValue (Some x) (Some "minutes"))) ->
  In (UpdateCluster id spec) (trace (UpgradeCluster.run w a)) ->
  let n := toInt x in
  let sent := if n <? 60 then n else 60 * (n / 60) in
  spec = mkClusterSpec (mkValue (Some (ofInt sent)) (Some "minutes"))
  /\ (ofInt sent = x <-> x = ofInt n /\ (n < 60 \/ n mod 60 = 0))
  /\ (forall v, - 2 ^ 53 < v < 2 ^ 53 -> x = ofInt v -> n = v).
Proof.
  intros Hi Hflag Hv Hstored Hin n sent.
  destruct (upgrade_mutation_reached w a _ Hin eq_refl)
    as (arn & cl & avail & version & nextRun & nodeDrain & minutes
        & Hcl & _ & _ & _ & HnodeDrain & Hminutes & [He | He]);
    [discriminate |].
  injection He as _ ->.
  pose proof (Hstored _ _ _ Hcl) as Hnd.
  rewrite (resolveNodeDrain_stored w a cl x Hi Hflag Hnd) in HnodeDrain.
  injection HnodeDrain as <-.
  rewrite (parseNodeDrain_stored w cl x Hv Hnd) in Hminutes.
  injection Hminutes as <-.
  split; [reflexivity |].
  assert (Hsent : - 2 ^ 53 < sent < 2 ^ 53).
  { unfold sent. fold n in Hv. destruct (Z.ltb_spec n 60);
      [assumption | Z.div_mod_to_equations; lia]. }
  split.
  - split.
    + intros Heq.
      assert (Hn : n = sent).
      { unfold n at 1. rewrite <- Heq. apply toInt_ofInt. assumption. }
      split; [rewrite Hn; symmetry; exact Heq |].
      unfold sent in Hn. destruct (Z.ltb_spec n 60) as [Hlt | Hge];
        [left; assumption | right; Z.div_mod_to_equations; lia].
    + intros [Hx Hcase]. transitivity (ofInt n); [| symmetry; exact Hx].
      f_equal. unfold sent.
      destruct (Z.ltb_spec n 60) as [Hlt | Hge]; [reflexivity |].
      destruct Hcase as [Hlt | Hmod]; [lia |].
      Z.div_mod_to_equations. lia.
  - intros v Hrange ->. apply toInt_ofInt. assumption.
Qed.

Lemma upgrade_resubmits_stored_grace_period_witness :
  In (UpdateCluster "1a2b3c"
        (mkClusterSpec (mkValue (Some (ofInt 60)) (Some "minutes"))))
     (trace (UpgradeCluster.run
               (Scenario.withCluster Scenario.world
                                     (Ok (Scenario.drainingCluster 90)))
               Scenario.upgradeArgs))
  /\ ofInt 60 <> ofInt 90.
Proof.
  assert (Hin : In (UpdateCluster "1a2b3c"
                      (mkClusterSpec (mkValue (Some (ofInt 60)) (Some "minutes"))))
                   (trace (UpgradeCluster.run
                             (Scenario.withCluster Scenario.world
                                (Ok (Scenario.drainingCluster 90)))
                             Scenario.upgradeArgs))).
  { vm_compute. tauto. }
  split; [exact Hin |].
  assert (Hv : - 2 ^ 53 < toInt (ofInt 90) < 2 ^ 53)
    by (vm_compute; split; reflexivity).
  assert (Hstored : forall key arn cl,
            getCluster (Scenario.withCluster Scenario.world
                          (Ok (Scenario.drainingCluster 90))) key arn = Ok cl ->
            NodeDrainGracePeriod cl
            = Some (mkValue (Some (ofInt 90)) (Some "minutes"))).
  { intros key arn cl Hcl. injection Hcl as <-. reflexivity. }
  destruct (upgrade_resubmits_stored_grace_period
              (Scenario.withCluster Scenario.world
                                    (Ok (Scenario.drainingCluster 90)))
              Scenario.upgradeArgs (ofInt 90) "1a2b3c"
              (mkClusterSpec (mkValue (Some (ofInt 60)) (Some "minutes")))
              eq_refl eq_refl Hv Hstored Hin) as (_ & Hiff & _).
  intros Heq. apply Hiff in Heq. destruct Heq as [_ Hcase].
  vm_compute in Hcase. destruct Hcase; discriminate.
Defined.

(** C10, as stated, fails on a stored value that is not whole: the
    cluster stores 45.5 minutes, which is below 60, interactive mode is
    off and the flag is not passed, and 45 minutes are submitted. *)
Lemma upgrade_fractional_grace_period_counterexample :
  mul Cases.fortyFiveAndAHalf (ofInt 2) = ofInt 91
  /\ SFltb Cases.fortyFiveAndAHalf (ofInt 60) = true
  /\ NodeDrainGracePeriod Cases.fractionalCluster
     = Some (mkValue (Some Cases.fortyFiveAndAHalf) (Some "minutes"))
  /\ interactiveEnabled
       (Scenario.withCluster Scenario.world (Ok Cases.fractionalCluster))
     = false
  /\ UpgradeCluster.nodeDrainGracePeriodFlag Scenario.upgradeArgs = None
  /\ In (UpdateCluster "1a2b3c"
           (mkClusterSpec (mkValue (Some (ofInt 45)) (Some "minutes"))))
        (trace (UpgradeCluster.run
                  (Scenario.withCluster Scenario.world
                                        (Ok Cases.fractionalCluster))
                  Scenario.upgradeArgs))
  /\ ofInt 45 <> Cases.fortyFiveAndAHalf.
Proof.
  split; [vm_compute; reflexivity |].
  split; [vm_compute; reflexivity |].
  split; [reflexivity |].
  split; [reflexivity |].
  split; [reflexivity |].
  split; [vm_compute; tauto |].
  vm_compute. discriminate.
Qed.

(** The bound on the stored number is needed for the equivalence:
    [2 ^ 60] minutes are not a multiple of 60, and yet the product of
    the rounded hours by 60 rounds back to [2 ^ 60], which is
    resubmitted as it is. *)
Example upgrade_huge_grace_period :
  toInt (ofInt (2 ^ 60)) = 2 ^ 60
  /\ (2 ^ 60) mod 60 = 16
  /\ In (UpdateCluster "1a2b3c"
           (mkClusterSpec (mkValue (Some (ofInt (2 ^ 60))) (Some "minutes"))))
        (trace (UpgradeCluster.run
                  (Scenario.withCluster Scenario.world
                     (Ok (Scenario.drainingCluster (2 ^ 60))))
                  Scenario.upgradeArgs)).
Proof.
  split; [vm_compute; reflexivity |].
  split; [vm_compute; reflexivity |].
  vm_compute. tauto.
Qed.

(** ** The default schedule *)

Lemma absDate_year_range days :
  exists y m d,
    absDate days = (y, m, d)
    /\ (days < - 366 -> y < 0) /\ (3652059 <= days -> 10000 <= y).
Proof.
  unfold absDate, daysPer400Years.
  set (n := days / (365 * 400 + 97)).
  set (r := days - (365 * 400 + 97) * n).
  assert (Hr : 0 <= r < 146097) by (subst r n; Z.div_mod_to_equations; lia).
  destruct (yearInCycle_spec r Hr)
    as (y & yday & -> & Hy & Hyday & Hdays & Hlo & Hhi).
  destruct (monthDay (isLeap (400 * n + y)) yday) as [m d].
  exists (400 * n + y), m, d. split; [reflexivity |].
  subst r n. split; intros H; Z.div_mod_to_equations; lia.
Qed.

Lemma digitsInto_scan_any fuel : forall u acc,
  0 <= u ->
  exists k, 0 < k /\
    forall a c, exists a',
      scanDigits (digitsInto (S fuel) u acc) a c = scanDigits acc a' (c + k).
Proof.
  induction fuel as [| fuel IH]; intros u acc Hu;
    destruct (Z.lt_ge_cases u 10) as [Hlt | Hge].
  - exists 1. split; [lia |]. intros a c. eexists.
    rewrite digitsInto_small, scanDigits_digit by lia. reflexivity.
  - exists 1. split; [lia |]. intros a c. eexists.
    rewrite digitsInto_large by lia. cbn [digitsInto].
    rewrite scanDigits_digit by (Z.div_mod_to_equations; lia). reflexivity.
  - exists 1. split; [lia |]. intros a c. eexists.
    rewrite digitsInto_small, scanDigits_digit by lia. reflexivity.
  - destruct (IH (u / 10) (String (digitChar (u mod 10)) acc))
      as (k & Hk & Hscan); [Z.div_mod_to_equations; lia |].
    exists (k + 1). split; [lia |]. intros a c.
    destruct (Hscan a c) as [a' Ha']. eexists.
    rewrite digitsInto_large by lia. rewrite Ha'.
    rewrite scanDigits_digit by (Z.div_mod_to_equations; lia).
    replace (c + (k + 1)) with (c + k + 1) by lia. reflexivity.
Qed.

(** A text that scans as five digits or more starts with five digits. *)
Lemma scanDigits_five s n k :
  scanDigits s 0 0 = (n, k, "") -> 5 <= k ->
  exists c1 c2 c3 c4 c5 rest,
    s = String c1 (String c2 (String c3 (String c4 (String c5 rest))))
    /\ isDigit c1 = true /\ isDigit c2 = true /\ isDigit c3 = true
    /\ isDigit c4 = true /\ isDigit c5 = true.
Proof.
  intros Hscan Hk.
  destruct s as [| c1 s]; [cbn in Hscan; injection Hscan as _ <-; lia |].
  cbn [scanDigits] in Hscan.
  destruct (isDigit c1) eqn:H1; [| discriminate].
  destruct s as [| c2 s]; [cbn in Hscan; injection Hscan as _ <-; lia |].
  cbn [scanDigits] in Hscan.
  destruct (isDigit c2) eqn:H2; [| discriminate].
  destruct s as [| c3 s]; [cbn in Hscan; injection Hscan as _ <-; lia |].
  cbn [scanDigits] in Hscan.
  destruct (isDigit c3) eqn:H3; [| discriminate].
  destruct s as [| c4 s]; [cbn in Hscan; injection Hscan as _ <-; lia |].
  cbn [scanDigits] in Hscan.
  destruct (isDigit c4) eqn:H4; [| discriminate].
  destruct s as [| c5 s]; [cbn in Hscan; injection Hscan as _ <-; lia |].
  cbn [scanDigits] in Hscan.
  destruct (isDigit c5) eqn:H5; [| discriminate].
  exists c1, c2, c3, c4, c5, s. repeat split; assumption.
Qed.

Lemma appendInt_long y :
  10000 <= y ->
  exists c1 c2 c3 c4 c5 rest,
    appendInt y 4 = String c1 (String c2 (String c3 (String c4 (String c5 rest))))
    /\ isDigit c1 = true /\ isDigit c2 = true /\ isDigit c3 = true
    /\ isDigit c4 = true /\ isDigit c5 = true.
Proof.
  intros Hy. unfold appendInt.
  replace (y <? 0) with false by (symmetry; apply Z.ltb_ge; lia).
  rewrite Z.abs_eq by lia.
  assert (Hscan : exists n k, scanDigits (digitsInto 20 y "") 0 0 = (n, k, "")
                              /\ 5 <= k).
  { do 4 (rewrite digitsInto_large by (Z.div_mod_to_equations; lia)).
    destruct (digitsInto_scan_any 15 (y / 10 / 10 / 10 / 10)
                (String (digitChar (y / 10 / 10 / 10 mod 10))
                   (String (digitChar (y / 10 / 10 mod 10))
                      (String (digitChar (y / 10 mod 10))
                         (String (digitChar (y mod 10)) "")))))
      as (k & Hk & Hscan); [Z.div_mod_to_equations; lia |].
    destruct (Hscan 0 0) as [a' Ha']. rewrite Ha'.
    do 4 (rewrite scanDigits_digit by (Z.div_mod_to_equations; lia)).
    cbn [scanDigits]. do 2 eexists. split; [reflexivity | lia]. }
  destruct Hscan as (n & k & Hscan & Hk).
  destruct (scanDigits_five _ n k Hscan Hk)
    as (c1 & c2 & c3 & c4 & c5 & rest & -> & H).
  exists c1, c2, c3, c4, c5, rest. split; [reflexivity | exact H].
Qed.

Lemma isDigit_not_dash c : isDigit c = true -> Ascii.eqb c "-" = false.
Proof.
  intros H. destruct (Ascii.eqb_spec c "-") as [-> | Hne];
    [discriminate | reflexivity].
Qed.

(** A year outside 0..9999 prints with a sign or with five digits, and
    the text does not parse. *)
Lemma Parse_Format_out_of_range t :
  ~ (- 366 <= absDays t < 3652059) ->
  exists e,
    Parse layoutDateClock (Format t layoutDate ++ " " ++ Format t layoutClock)
    = Err e.
Proof.
  intros Hrange.
  destruct (absDate_year_range (absDays t)) as (y & m & d & Hdate & Hlo & Hhi).
  unfold Parse, layoutDateClock, layoutDate, layoutClock.
  cbn [Format formatChunk app]. unfold Year. rewrite Hdate.
  rewrite !append_assoc. cbn [parseLoop parseChunk].
  destruct (Z.lt_ge_cases (absDays t) (- 366)) as [Hneg | Hnonneg].
  - specialize (Hlo Hneg). unfold appendInt.
    replace (y <? 0) with true by (symmetry; apply Z.ltb_lt; lia).
    cbn [String.append]. 
    match goal with
    | |- context [getyear (String "-" ?r)] =>
        assert (Hg : getyear (String "-" r) = None)
          by (destruct r as [| ? [| ? [| ? ?]]]; reflexivity)
    end.
    rewrite Hg. eexists. reflexivity.
  - assert (Hbig : 3652059 <= absDays t) by lia. specialize (Hhi Hbig).
    destruct (appendInt_long y Hhi)
      as (c1 & c2 & c3 & c4 & c5 & rest & -> & H1 & H2 & H3 & H4 & H5).
    cbn [String.append getyear]. rewrite H1, H2, H3, H4. cbn [andb].
    cbn [noFields fMonth fDay fHour fMin fYear].
    unfold skip. cbn [String.length skipLoop Ascii.eqb Bool.eqb].
    rewrite (isDigit_not_dash c5 H5). eexists. reflexivity.
Qed.

(** Without flags and without prompts the next run is the clock reading
    plus ten minutes, cut to the minute; a clock that reads a year the
    layout cannot print in four digits ends the run. *)
Lemma resolveSchedule_default w a :
  interactiveEnabled w = false ->
  UpgradeCluster.scheduleDate a = "" -> UpgradeCluster.scheduleTime a = "" ->
  0 <= nsec (timeNow w) < 1000000000 ->
  UpgradeCluster.resolveSchedule w a =
    (inl (mkTime (unixSec (timeNow w) + 600 - (unixSec (timeNow w) + 600) mod 60)
                 0 "UTC" 0), [])
  \/ exists msg,
       UpgradeCluster.resolveSchedule w a = (inr (Exit 1), [Report LError msg]).
Proof.
  intros Hi Hdate Htime Hns. unfold UpgradeCluster.resolveSchedule.
  rewrite Hi, Hdate, Htime. cbn [String.eqb].
  unfold ret. rewrite bind_ret_l.
  assert (Hnow : Add (UTC (timeNow w)) (Minute * 10)
                 = mkTime (unixSec (timeNow w) + 600) (nsec (timeNow w)) "UTC" 0).
  { unfold Add, UTC. cbn [nsec unixSec zoneName zoneOffset].
    change (Z.rem (Minute * 10) 1000000000) with 0.
    change (Z.quot (Minute * 10) 1000000000) with 600.
    rewrite Z.add_0_r.
    destruct (Z.leb_spec 1000000000 (nsec (timeNow w))); [lia |].
    destruct (Z.ltb_spec (nsec (timeNow w)) 0); [lia | reflexivity]. }
  rewrite Hnow.
  set (now := mkTime (unixSec (timeNow w) + 600) (nsec (timeNow w)) "UTC" 0).
  destruct (Z.le_gt_cases (- 366) (absDays now)) as [Hlo | Hlo];
    [destruct (Z.lt_ge_cases (absDays now) 3652059) as [Hhi | Hhi] |].
  - left. rewrite Parse_Format by lia.
    unfold abs, now. cbn [unixSec zoneOffset]. rewrite Z.add_0_r. reflexivity.
  - right. destruct (Parse_Format_out_of_range now) as [e ->]; [lia |].
    eexists. reflexivity.
  - right. destruct (Parse_Format_out_of_range now) as [e ->]; [lia |].
    eexists. reflexivity.
Qed.

(** C9.  Without interactive mode and with neither [--schedule-date]
    nor [--schedule-time], the next run of every upgrade policy the
    command submits is the clock reading plus ten minutes, in UTC, cut
    to the minute; it lies between nine and eleven minutes after the
    clock reading. *)
Theorem upgrade_default_next_run w a id policy :
  interactiveEnabled w = false ->
  UpgradeCluster.scheduleDate a = "" -> UpgradeCluster.scheduleTime a = "" ->
  0 <= nsec (timeNow w) < 1000000000 ->
  In (AddUpgradePolicy id policy) (trace (UpgradeCluster.run w a)) ->
  NextRun policy =
    mkTime (unixSec (timeNow w) + 600 - (unixSec (timeNow w) + 600) mod 60)
           0 "UTC" 0
  /\ UnixNano (timeNow w) + 9 * Minute <= UnixNano (NextRun policy)
     <= UnixNano (timeNow w) + 11 * Minute.
Proof.
  intros Hi Hdate Htime Hns Hin.
  destruct (upgrade_mutation_reached w a _ Hin eq_refl)
    as (arn & cl & avail & version & nextRun & nodeDrain & minutes
        & _ & _ & _ & HnextRun & _ & _ & [He | He]); [| discriminate].
  injection He as _ ->.
  destruct (resolveSchedule_default w a Hi Hdate Htime Hns) as [Hr | [msg Hr]];
    rewrite Hr in HnextRun; [| discriminate].
  injection HnextRun as <-. cbn [NextRun].
  split; [reflexivity |].
  unfold UnixNano, Minute, Second. cbn [unixSec nsec].
  Z.div_mod_to_equations. lia.
Qed.

Lemma upgrade_default_next_run_witness :
  In (AddUpgradePolicy "1a2b3c"
        (mkUpgradePolicy "manual" "4.5.20" (mkTime 1606125060 0 "UTC" 0)))
     (trace (UpgradeCluster.run Scenario.world Scenario.upgradeArgs))
  /\ UnixNano Scenario.clock + 9 * Minute
     <= UnixNano (mkTime 1606125060 0 "UTC" 0)
     <= UnixNano Scenario.clock + 11 * Minute.
Proof.
  assert (Hin : In (AddUpgradePolicy "1a2b3c"
                      (mkUpgradePolicy "manual" "4.5.20"
                                       (mkTime 1606125060 0 "UTC" 0)))
                   (trace (UpgradeCluster.run Scenario.world
                                              Scenario.upgradeArgs))).
  { vm_compute. tauto. }
  split; [exact Hin |].
  assert (Hns : 0 <= nsec (timeNow Scenario.world) < 1000000000)
    by (vm_compute; split; [discriminate | reflexivity]).
  exact (proj2 (upgrade_default_next_run Scenario.world Scenario.upgradeArgs
                  "1a2b3c"
                  (mkUpgradePolicy "manual" "4.5.20"
                                   (mkTime 1606125060 0 "UTC" 0))
                  eq_refl eq_refl eq_refl Hns Hin)).
Defined.

(** * Further properties *)

Import Behaviour.
(** ** Events of one kind *)

Section OnlyEvents.
Variable p : Event -> bool.

Lemma Only_app t1 t2 : Only p t1 -> Only p t2 -> Only p (t1 ++ t2).
Proof. unfold Only. intros. apply Forall_app. split; assumption. Qed.

Lemma Only_ret {A} (a : A) : Only p (snd (ret (E:=Event) a)).
Proof. constructor. Qed.

Lemma Only_os_Exit {A} c : Only p (snd (os_Exit (E:=Event) (A:=A) c)).
Proof. constructor. Qed.

Lemma Only_emit e : p e = true -> Only p (snd (emit e)).
Proof. intros H. repeat constructor. assumption. Qed.

Lemma Only_call {A} e (x : A) : p e = true -> Only p (snd (call e x)).
Proof. intros H. repeat constructor. assumption. Qed.

Lemma Only_index l i : Only p (snd (index (E:=Event) l i)).
Proof. unfold index. destruct (nth_error l i); constructor. Qed.

Lemma Only_bind {A B} (m : M A) (k : A -> M B) :
  Only p (snd m) -> (forall a, fst m = inl a -> Only p (snd (k a))) ->
  Only p (snd (bind m k)).
Proof.
  destruct m as [[a | s] t]; simpl; intros Ht Hk.
  - specialize (Hk a eq_refl). destruct (k a) as [r t']. simpl in *.
    apply Only_app; assumption.
  - assumption.
Qed.

Lemma Only_when b (m : M unit) : Only p (snd m) -> Only p (snd (when b m)).
Proof. destruct b; simpl; [trivial | constructor]. Qed.

Hypothesis reports : forall l msg, p (Report l msg) = true.

Lemma Only_orExit {A} (r : result A) msg : Only p (snd (orExit r msg)).
Proof.
  destruct r; simpl; [constructor |]. repeat constructor. apply reports.
Qed.

End OnlyEvents.

(** Walks a command and checks the test on each of its events. *)
Ltac only_events :=
  repeat first
    [ apply Only_ret
    | apply Only_os_Exit
    | apply Only_index
    | apply Only_orExit; reflexivity
    | apply Only_emit; reflexivity
    | apply Only_call; reflexivity
    | apply Only_when
    | apply Only_bind; [| intros ? ?]
    | progress cbv zeta
    | match goal with
      | |- Only _ (snd (if ?b then _ else _)) => destruct b
      | |- Only _ (snd (match ?x with _ => _ end)) => is_var x; destruct x
      end ].

Lemma Only_In p t e : Only p t -> In e t -> p e = true.
Proof. unfold Only. rewrite Forall_forall. auto. Qed.

Lemma Only_upgrade_connected_close w a arn :
  Only (fun e => negb (isClose e)) (snd (UpgradeCluster.connected w a arn)).
Proof.
  unfold UpgradeCluster.connected, UpgradeCluster.resolveVersion,
    UpgradeCluster.resolveSchedule, UpgradeCluster.resolveNodeDrain,
    UpgradeCluster.parseNodeDrain, UpgradeCluster.submit,
    Errorf, Warnf, Infof, Debugf.
  only_events.
Qed.

Lemma closeConnection_events w :
  closeConnection w = (inl tt, closeEvents w).
Proof.
  unfold closeConnection, closeEvents. destruct (ocmClose w); reflexivity.
Qed.

(** X1.  The connection of the upgrade command is closed exactly when
    the command does not leave through [os.Exit]: a run that exits holds
    no close at all, whether or not it had opened the connection; a run
    that returns or panics opened the connection and ends with the
    deferred close, and with the report of its failure if it failed,
    and holds no other close. *)
Theorem upgrade_connection_lifecycle w a :
  match outcome (UpgradeCluster.run w a) with
  | inr (Exit _) => ~ In OcmClose (trace (UpgradeCluster.run w a))
  | _ =>
      exists t, trace (UpgradeCluster.run w a) = (t ++ closeEvents w)%list
                /\ In OcmNewConnection t /\ ~ In OcmClose t
  end.
Proof.
  unfold outcome, trace.
  assert (Hno : forall t, Only (fun e => negb (isClose e)) t -> ~ In OcmClose t).
  { intros t Ht Hin. apply (Only_In _ _ _ Ht) in Hin. discriminate. }
  destruct (upgrade_run_cases w a)
    as [(msg & t & -> & Ht) | (arn & _ & _ & _ & _ & ->)].
  - cbn [fst snd]. intros Hin. apply in_app_or in Hin.
    destruct Hin as [Hin | Hin].
    + apply Ht in Hin. simpl in Hin. intuition discriminate.
    + simpl in Hin. intuition discriminate.
  - pose proof (Only_upgrade_connected_close w a arn) as Hc.
    destruct (UpgradeCluster.connected w a arn) as [r t]. cbn [snd] in Hc.
    rewrite defer_closeConnection.
    assert (Hpre : ~ In OcmClose (prelude ++ t)).
    { intros Hin. apply in_app_or in Hin. destruct Hin as [Hin | Hin].
      - simpl in Hin. intuition discriminate.
      - exact (Hno t Hc Hin). }
    rewrite closeConnection_events. unfold after.
    destruct r as [[] | [c | msg]]; cbn [fst snd].
    + exists (prelude ++ t)%list. rewrite app_assoc. split; [reflexivity |].
      split; [simpl; tauto | assumption].
    + assumption.
    + exists (prelude ++ t)%list. rewrite app_assoc. split; [reflexivity |].
      split; [simpl; tauto | assumption].
Qed.
(** ** Panics *)

Lemma PanicsWith_ret {A} Q (a : A) : PanicsWith Q (ret (E:=Event) a).
Proof. intros msg H. discriminate. Qed.

Lemma PanicsWith_os_Exit {A} Q c : PanicsWith Q (os_Exit (E:=Event) (A:=A) c).
Proof. intros msg H. discriminate. Qed.

Lemma PanicsWith_emit Q e : PanicsWith Q (emit e).
Proof. intros msg H. discriminate. Qed.

Lemma PanicsWith_call {A} Q e (x : A) : PanicsWith Q (call e x).
Proof. intros msg H. discriminate. Qed.

Lemma PanicsWith_orExit {A} Q (r : result A) f : PanicsWith Q (orExit r f).
Proof. intros msg H. destruct r; discriminate. Qed.

Lemma PanicsWith_bind {A B} Q (m : M A) (k : A -> M B) :
  PanicsWith Q m -> (forall a, fst m = inl a -> PanicsWith Q (k a)) ->
  PanicsWith Q (bind m k).
Proof.
  unfold PanicsWith. destruct m as [[a | s] t]; simpl; intros Hm Hk msg H.
  - apply (Hk a eq_refl). destruct (k a). exact H.
  - apply Hm. injection H as ->. reflexivity.
Qed.

Lemma PanicsWith_when Q b (m : M unit) :
  PanicsWith Q m -> PanicsWith Q (when b m).
Proof. destruct b; [trivial | intros _ msg H; discriminate]. Qed.

Lemma PanicsWith_index_first Q l :
  l <> [] -> PanicsWith Q (index (E:=Event) l 0).
Proof. destruct l; [contradiction | intros _ msg H; discriminate]. Qed.

Lemma PanicsWith_index_second l :
  l <> [] -> PanicsWith (eq indexPanic) (index (E:=Event) l 1).
Proof.
  destruct l as [| x [| y l]]; [contradiction | | intros _ msg H; discriminate].
  intros _ msg H. cbn in H. injection H as <-. reflexivity.
Qed.

Lemma PanicsWith_defer_close {A} Q w (body : M A) :
  PanicsWith Q body -> PanicsWith Q (defer (closeConnection w) body).
Proof.
  intros Hb msg H. destruct body as [r t].
  rewrite defer_closeConnection in H. apply Hb.
  destruct r as [x | [c | m]]; exact H.
Qed.

(** Walks a command that has no indexing in it. *)
Ltac no_panic :=
  repeat first
    [ apply PanicsWith_ret
    | apply PanicsWith_os_Exit
    | apply PanicsWith_emit
    | apply PanicsWith_call
    | apply PanicsWith_orExit
    | apply PanicsWith_when
    | apply PanicsWith_bind; [| intros ? ?]
    | progress cbv zeta
    | match goal with
      | |- PanicsWith _ (if ?b then _ else _) => destruct b
      | |- PanicsWith _ (match ?x with _ => _ end) => is_var x; destruct x
      end ].

Lemma PanicsWith_resolveVersion Q w a avail :
  avail <> [] -> PanicsWith Q (UpgradeCluster.resolveVersion w a avail).
Proof.
  intros Hne. unfold UpgradeCluster.resolveVersion, Errorf.
  apply PanicsWith_bind; [| intros ? ?; no_panic].
  destruct (_ || _); [| no_panic].
  apply PanicsWith_bind; [| intros ? ?; no_panic].
  destruct (String.eqb _ _); [apply PanicsWith_index_first; assumption | no_panic].
Qed.

Lemma PanicsWith_resolveSchedule Q w a :
  PanicsWith Q (UpgradeCluster.resolveSchedule w a).
Proof. unfold UpgradeCluster.resolveSchedule, Errorf. no_panic. Qed.

Lemma PanicsWith_resolveNodeDrain Q w a cl :
  PanicsWith Q (UpgradeCluster.resolveNodeDrain w a cl).
Proof. unfold UpgradeCluster.resolveNodeDrain. no_panic. Qed.

Lemma PanicsWith_parseNodeDrain w s :
  PanicsWith (eq indexPanic) (UpgradeCluster.parseNodeDrain w s).
Proof.
  unfold UpgradeCluster.parseNodeDrain.
  apply PanicsWith_bind;
    [apply PanicsWith_index_first; apply Split_nonempty | intros ? ?].
  apply PanicsWith_bind; [no_panic | intros ? ?].
  apply PanicsWith_bind;
    [apply PanicsWith_index_second; apply Split_nonempty | intros ? ?].
  no_panic.
Qed.

Lemma PanicsWith_upgrade_connected w a arn :
  PanicsWith (eq indexPanic) (UpgradeCluster.connected w a arn).
Proof.
  unfold UpgradeCluster.connected, UpgradeCluster.submit,
    Errorf, Warnf, Infof, Debugf.
  do 7 (apply PanicsWith_bind; [no_panic | intros ? ?]).
  apply PanicsWith_bind; [no_panic | intros r Hr].
  apply PanicsWith_bind; [no_panic | intros avail Havail].
  apply PanicsWith_bind; [no_panic | intros u Hu].
  apply when_exit_inl in Hu.
  assert (Hne : avail <> []) by (destruct avail; [discriminate | discriminate]).
  apply PanicsWith_bind; [apply PanicsWith_resolveVersion; assumption | intros ? ?].
  apply PanicsWith_bind; [apply PanicsWith_resolveSchedule | intros ? ?].
  apply PanicsWith_bind; [apply PanicsWith_resolveNodeDrain | intros ? ?].
  apply PanicsWith_bind; [apply PanicsWith_parseNodeDrain | intros ? ?].
  no_panic.
Qed.

(** X2.  The only panic of the upgrade command is the read of the unit
    of a grace period that has a single piece: the read of the first
    available version is guarded by the check that there is one, and
    the first piece of a split text always exists. *)
Theorem upgrade_only_panic w a msg :
  outcome (UpgradeCluster.run w a) = inr (Panic msg) -> msg = indexPanic.
Proof.
  unfold outcome. intros H. symmetry. revert msg H.
  change (PanicsWith (eq indexPanic) (UpgradeCluster.run w a)).
  unfold UpgradeCluster.run, Errorf.
  do 7 (apply PanicsWith_bind; [no_panic | intros ? ?]).
  apply PanicsWith_defer_close. apply PanicsWith_upgrade_connected.
Qed.
Lemma connected_resolved w a arn cl avail :
  getCluster w (UpgradeCluster.clusterKey a) arn = Ok cl ->
  State cl = ClusterStateReady ->
  getScheduledUpgrade w (ID cl) = Ok None ->
  getAvailableUpgrades w (GetVersionID cl) = Ok avail ->
  avail <> [] ->
  UpgradeCluster.connected w a arn = after (lookups a arn cl) (resolved w a cl avail).
Proof.
  intros Hcl Hstate Hsu Havail Hne. unfold UpgradeCluster.connected.
  rewrite Hcl. cbn [bind call emit ret orExit fst snd app Debugf].
  rewrite Hstate.
  cbn [String.eqb Ascii.eqb Bool.eqb ClusterStateReady negb when bind call
       emit ret orExit fst snd app Debugf].
  rewrite Hsu. cbn [bind call emit ret orExit fst snd app Debugf].
  rewrite Havail. cbn [bind call emit ret orExit fst snd app Debugf].
  destruct avail as [| v0 avail']; [contradiction |].
  cbn [List.length Nat.eqb when bind call emit ret orExit fst snd app].
  fold (resolved w a cl (v0 :: avail')).
  destruct (resolved w a cl (v0 :: avail')) as [r t]. reflexivity.
Qed.

(** X3.  When the list of available upgrades is empty, the upgrade
    command warns that there are none and exits with code 0 right after
    the three lookups: it asks nothing, submits nothing and does not
    close the connection. *)
Theorem upgrade_no_available_upgrades w a arn cl :
  IsValidClusterKey (UpgradeCluster.clusterKey a) = true ->
  awsBuild w = Ok tt -> awsGetCreator w = Ok arn -> ocmBuild w = Ok tt ->
  getCluster w (UpgradeCluster.clusterKey a) arn = Ok cl ->
  State cl = ClusterStateReady ->
  getScheduledUpgrade w (ID cl) = Ok None ->
  getAvailableUpgrades w (GetVersionID cl) = Ok [] ->
  UpgradeCluster.run w a =
  (inr (Exit 0),
   prelude ++ lookups a arn cl
   ++ [Report LWarn "There are no available upgrades"])%list.
Proof.
  intros Hkey Haws Harn Hocm Hcl Hstate Hsu Havail.
  rewrite (upgrade_run_connected w a arn Hkey Haws Harn Hocm).
  unfold UpgradeCluster.connected.
  rewrite Hcl. cbn [bind call emit ret orExit fst snd app Debugf].
  rewrite Hstate.
  cbn [String.eqb Ascii.eqb Bool.eqb ClusterStateReady negb when bind call
       emit ret orExit fst snd app Debugf].
  rewrite Hsu. cbn [bind call emit ret orExit fst snd app Debugf].
  rewrite Havail. reflexivity.
Qed.

Lemma resolveVersion_available w a avail version :
  fst (UpgradeCluster.resolveVersion w a avail) = inl version -> In version avail.
Proof.
  unfold UpgradeCluster.resolveVersion.
  match goal with |- fst (bind ?m _) = _ -> _ => destruct m as [[x | s] t] end;
    [| discriminate].
  rewrite bind_ret_l. unfold after. cbn [fst].
  destruct (existsb (fun v => String.eqb v x) avail) eqn:Hex.
  - cbn. intros H. injection H as <-.
    apply existsb_exists in Hex. destruct Hex as (v & Hv & Heq).
    apply String.eqb_eq in Heq. subst. assumption.
  - cbn. discriminate.
Qed.

(** Every mutation of a run of the upgrade command is one of the two
    requests of the submission step, with the values that step was
    reached with. *)
Lemma upgrade_mutation_facts w a e :
  In e (trace (UpgradeCluster.run w a)) -> isMutation e = true ->
  exists arn cl avail version nextRun nodeDrain minutes,
    awsGetCreator w = Ok arn
    /\ getCluster w (UpgradeCluster.clusterKey a) arn = Ok cl
    /\ State cl = ClusterStateReady
    /\ getScheduledUpgrade w (ID cl) = Ok None
    /\ getAvailableUpgrades w (GetVersionID cl) = Ok avail
    /\ fst (UpgradeCluster.resolveVersion w a avail) = inl version
    /\ fst (UpgradeCluster.resolveSchedule w a) = inl nextRun
    /\ fst (UpgradeCluster.resolveNodeDrain w a cl) = inl nodeDrain
    /\ fst (UpgradeCluster.parseNodeDrain w nodeDrain) = inl minutes
    /\ (e = AddUpgradePolicy (ID cl) (mkUpgradePolicy "manual" version nextRun)
        \/ e = UpdateCluster (ID cl)
                 (mkClusterSpec (mkValue (Some minutes) (Some "minutes")))).
Proof.
  unfold trace. intros Hin Hmut.
  assert (Hno : forall t, noMutation t -> In e t -> False).
  { intros t Ht Het. unfold noMutation in Ht. rewrite Forall_forall in Ht.
    apply Ht in Het. congruence. }
  destruct (upgrade_run_shape w a)
    as [(s & t & Hrun & Ht)
       | (arn & pre & tail & HT & Hpre & _ & _ & Harn & _ & Hrun)];
    rewrite Hrun in Hin.
  - exfalso. exact (Hno t Ht Hin).
  - destruct HT as (cl & avail & version & nextRun & nodeDrain & minutes
                    & Hcl & Hstate & Hsu & Havail & Hversion & HnextRun
                    & HnodeDrain & Hminutes & ->).
    exists arn, cl, avail, version, nextRun, nodeDrain, minutes.
    repeat (split; [assumption |]).
    unfold after in Hin. cbn [snd] in Hin. apply in_app_or in Hin.
    destruct Hin as [Hin | Hin]; [exfalso; exact (Hno pre Hpre Hin) |].
    pose proof (submit_cases w (UpgradeCluster.clusterKey a) cl
                  (mkUpgradePolicy "manual" version nextRun)
                  (mkClusterSpec (mkValue (Some minutes) (Some "minutes")))
                  ("Upgrade successfully scheduled for cluster '"
                   ++ UpgradeCluster.clusterKey a ++ "'")) as Hs.
    cbv zeta in Hs.
    destruct (sendAddUpgradePolicy w (ID cl) _) as [[] | e1].
    + destruct (sendUpdateCluster w (ID cl) _) as [[] | e2];
        rewrite Hs, defer_closeConnection in Hin; cbn [snd] in Hin.
      * apply in_app_or in Hin. destruct Hin as [Hin | Hin].
        -- cbn [In] in Hin.
           destruct Hin as [<- | [<- | [<- | []]]];
             [left; reflexivity | right; reflexivity | discriminate].
        -- exfalso. exact (Hno _ (noMutation_closeConnection w) Hin).
      * cbn [In] in Hin.
        destruct Hin as [<- | [<- | [<- | []]]];
          [left; reflexivity | right; reflexivity | discriminate].
    + rewrite Hs, defer_closeConnection in Hin. cbn [snd In] in Hin.
      destruct Hin as [<- | [<- | []]]; [left; reflexivity | discriminate].
Qed.

(** X4.  Every upgrade policy the command submits is a manual one, for
    the cluster the lookup returned, which is ready and has no upgrade
    scheduled, and to a version that is among the available upgrades
    of that cluster. *)
Theorem upgrade_submitted_policy w a id policy :
  In (AddUpgradePolicy id policy) (trace (UpgradeCluster.run w a)) ->
  ScheduleType policy = "manual"
  /\ exists arn cl avail,
       getCluster w (UpgradeCluster.clusterKey a) arn = Ok cl
       /\ id = ID cl
       /\ State cl = ClusterStateReady
       /\ getScheduledUpgrade w (ID cl) = Ok None
       /\ getAvailableUpgrades w (GetVersionID cl) = Ok avail
       /\ In (Version policy) avail.
Proof.
  intros Hin.
  destruct (upgrade_mutation_facts w a _ Hin eq_refl)
    as (arn & cl & avail & version & nextRun & nodeDrain & minutes
        & _ & Hcl & Hstate & Hsu & Havail & Hversion & _ & _ & _ & [He | He]);
    [| discriminate].
  injection He as -> ->. split; [reflexivity |].
  exists arn, cl, avail. repeat (split; [assumption || reflexivity |]).
  exact (resolveVersion_available w a avail version Hversion).
Qed.

Lemma In_bind_l {A B} e (m : M A) (k : A -> M B) :
  In e (snd m) -> In e (snd (bind m k)).
Proof.
  destruct m as [[a | s] t]; simpl; intros H; [| assumption].
  destruct (k a). simpl. apply in_or_app. left. assumption.
Qed.

Lemma In_after {A} e pre (m : M A) : In e (snd m) -> In e (snd (after pre m)).
Proof. intros H. unfold after. simpl. apply in_or_app. right. assumption. Qed.

Lemma In_defer_close {A} e w (body : M A) :
  In e (snd body) -> In e (snd (defer (closeConnection w) body)).
Proof.
  intros H. destruct body as [r t]. rewrite defer_closeConnection.
  destruct r as [x | [c | m]]; simpl in *; try assumption;
    apply in_or_app; left; assumption.
Qed.

(** Without a version the operator is asked for one, with the first
    available version as the default, whatever the mode. *)
Lemma resolveVersion_asks w a v0 rest :
  UpgradeCluster.version a = "" ->
  In (AskOption (mkInput "Version" UpgradeCluster.versionUsage (v0 :: rest)
                         v0 true))
     (snd (UpgradeCluster.resolveVersion w a (v0 :: rest))).
Proof.
  intros Hv. unfold UpgradeCluster.resolveVersion. rewrite Hv.
  cbn [String.eqb orb index nth_error].
  apply In_bind_l. unfold ret at 1. rewrite bind_ret_l.
  apply In_after. apply In_bind_l. left. reflexivity.
Qed.

(** ** The version prompt *)

Lemma resolveVersion_answer w a v0 rest version :
  UpgradeCluster.version a = "" ->
  fst (UpgradeCluster.resolveVersion w a (v0 :: rest)) = inl version ->
  getOption w (mkInput "Version" UpgradeCluster.versionUsage (v0 :: rest)
                       v0 true) = Ok version.
Proof.
  intros Hv. unfold UpgradeCluster.resolveVersion. rewrite Hv.
  cbn [String.eqb orb index nth_error]. unfold ret at 1. rewrite bind_ret_l.
  unfold call, emit, ret. cbn [bind app].
  destruct (getOption w _) as [x | e]; [| discriminate].
  cbn [orExit ret bind app after fst snd].
  destruct (existsb _ _); cbn; [| discriminate].
  intros H. injection H as <-. reflexivity.
Qed.

Lemma In_run_connected w a arn e :
  IsValidClusterKey (UpgradeCluster.clusterKey a) = true ->
  awsBuild w = Ok tt -> awsGetCreator w = Ok arn -> ocmBuild w = Ok tt ->
  In e (snd (UpgradeCluster.connected w a arn)) ->
  In e (trace (UpgradeCluster.run w a)).
Proof.
  intros Hkey Haws Harn Hocm Hin. unfold trace.
  rewrite (upgrade_run_connected w a arn Hkey Haws Harn Hocm).
  apply In_after, In_defer_close. assumption.
Qed.

(** X5.  Without [--version] the operator is asked for the version even
    when interactive mode is off: once the run has a list of available
    upgrades that is not empty, it puts the question with the whole
    list as options and its first element as the default, and the
    version of any policy it submits is the answer. *)
Theorem upgrade_asks_version_without_flag w a arn cl v0 rest :
  IsValidClusterKey (UpgradeCluster.clusterKey a) = true ->
  awsBuild w = Ok tt -> awsGetCreator w = Ok arn -> ocmBuild w = Ok tt ->
  getCluster w (UpgradeCluster.clusterKey a) arn = Ok cl ->
  State cl = ClusterStateReady ->
  getScheduledUpgrade w (ID cl) = Ok None ->
  getAvailableUpgrades w (GetVersionID cl) = Ok (v0 :: rest) ->
  UpgradeCluster.version a = "" ->
  In (AskOption (mkInput "Version" UpgradeCluster.versionUsage (v0 :: rest)
                         v0 true))
     (trace (UpgradeCluster.run w a))
  /\ forall id policy,
       In (AddUpgradePolicy id policy) (trace (UpgradeCluster.run w a)) ->
       getOption w (mkInput "Version" UpgradeCluster.versionUsage (v0 :: rest)
                            v0 true) = Ok (Version policy).
Proof.
  intros Hkey Haws Harn Hocm Hcl Hstate Hsu Havail Hv. split.
  - apply (In_run_connected w a arn _ Hkey Haws Harn Hocm).
    rewrite (connected_resolved w a arn cl (v0 :: rest) Hcl Hstate Hsu Havail)
      by discriminate.
    apply In_after. unfold resolved. apply In_bind_l.
    apply resolveVersion_asks. assumption.
  - intros id policy Hin.
    destruct (upgrade_mutation_facts w a _ Hin eq_refl)
      as (arn' & cl' & avail & version & nextRun & nodeDrain & minutes
          & Harn' & Hcl' & _ & _ & Havail' & Hversion & _ & _ & _ & [He | He]);
      [| discriminate].
    injection He as _ ->. cbn [Version].
    rewrite Harn in Harn'. injection Harn' as <-.
    rewrite Hcl in Hcl'. injection Hcl' as <-.
    rewrite Havail in Havail'. injection Havail' as <-.
    exact (resolveVersion_answer w a v0 rest version Hv Hversion).
Qed.

(** ** The version flag *)

(** In interactive mode with a version given, the version is the
    default of the question and the answer is what is checked. *)
Lemma resolveVersion_interactive w a avail :
  interactiveEnabled w = true ->
  UpgradeCluster.version a <> "" ->
  UpgradeCluster.resolveVersion w a avail =
  match getOption w (mkInput "Version" UpgradeCluster.versionUsage avail
                             (UpgradeCluster.version a) true) with
  | Ok answer =>
      if existsb (fun v => String.eqb v answer) avail then
        (inl answer,
         [AskOption (mkInput "Version" UpgradeCluster.versionUsage avail
                             (UpgradeCluster.version a) true)])
      else
        (inr (Exit 1),
         [AskOption (mkInput "Version" UpgradeCluster.versionUsage avail
                             (UpgradeCluster.version a) true);
          Report LError "Expected a valid version to upgrade to"])
  | Err e =>
      (inr (Exit 1),
       [AskOption (mkInput "Version" UpgradeCluster.versionUsage avail
                           (UpgradeCluster.version a) true);
        Report LError ("Expected a valid version to upgrade to: " ++ e)])
  end.
Proof.
  intros Hi Hv. apply String.eqb_neq in Hv.
  unfold UpgradeCluster.resolveVersion. rewrite Hi, Hv.
  rewrite orb_true_r. rewrite bind_ret.
  destruct (getOption w _) as [answer | e]; [| reflexivity].
  cbn [call emit ret bind orExit app].
  destruct (existsb (fun v => String.eqb v answer) avail); reflexivity.
Qed.

(** A run that gets to the version and is stopped there. *)
Lemma run_stops_resolving w a arn cl avail t :
  IsValidClusterKey (UpgradeCluster.clusterKey a) = true ->
  awsBuild w = Ok tt -> awsGetCreator w = Ok arn -> ocmBuild w = Ok tt ->
  getCluster w (UpgradeCluster.clusterKey a) arn = Ok cl ->
  State cl = ClusterStateReady ->
  getScheduledUpgrade w (ID cl) = Ok None ->
  getAvailableUpgrades w (GetVersionID cl) = Ok avail ->
  avail <> [] ->
  UpgradeCluster.resolveVersion w a avail = (inr (Exit 1), t) ->
  UpgradeCluster.run w a = (inr (Exit 1), prelude ++ lookups a arn cl ++ t)%list.
Proof.
  intros Hkey Haws Harn Hocm Hcl Hstate Hsu Havail Hne Hres.
  rewrite (upgrade_run_connected w a arn Hkey Haws Harn Hocm).
  rewrite (connected_resolved w a arn cl avail Hcl Hstate Hsu Havail Hne).
  unfold resolved. cbv zeta. rewrite Hres, bind_stop.
  rewrite defer_after, defer_closeConnection, after_after. reflexivity.
Qed.

(** C6, as amended.  Let the caller pass a version.  Without interactive
    mode, when that version is in no available-upgrades set the service
    returns, the command issues no mutation and does not complete; when
    the run gets to a set that is not empty, it ends there with the
    error report on the version and exit code 1.  In interactive mode,
    a run that gets to a set that is not empty asks for the version with
    the set as the options and the caller's version as the default, and
    the answer is the version that is checked: an answer in the set is
    the version the command goes on with, whatever the caller's version
    was; an answer that is not in the set ends the run with the same
    error report and exit code 1; a failed question ends it with exit
    code 1; and the version of every policy the run submits is the
    answer, a member of the set. *)
Theorem upgrade_unavailable_version w a :
  UpgradeCluster.version a <> "" ->
  (interactiveEnabled w = false ->
   (forall v avail, getAvailableUpgrades w v = Ok avail ->
                    ~ In (UpgradeCluster.version a) avail) ->
   noMutation (trace (UpgradeCluster.run w a))
   /\ (exists s, outcome (UpgradeCluster.run w a) = inr s)
   /\ (forall arn cl avail,
         IsValidClusterKey (UpgradeCluster.clusterKey a) = true ->
         awsBuild w = Ok tt -> awsGetCreator w = Ok arn -> ocmBuild w = Ok tt ->
         getCluster w (UpgradeCluster.clusterKey a) arn = Ok cl ->
         State cl = ClusterStateReady ->
         getScheduledUpgrade w (ID cl) = Ok None ->
         getAvailableUpgrades w (GetVersionID cl) = Ok avail ->
         avail <> [] ->
         UpgradeCluster.run w a =
         (inr (Exit 1),
          prelude ++
          [Report LDebug ("Loading cluster '" ++ UpgradeCluster.clusterKey a ++ "'");
           OcmGetCluster (UpgradeCluster.clusterKey a) arn;
           OcmGetScheduledUpgrade (ID cl);
           OcmGetAvailableUpgrades (GetVersionID cl);
           Report LError "Expected a valid version to upgrade to"])%list))
  /\ (interactiveEnabled w = true ->
      forall arn cl avail,
        IsValidClusterKey (UpgradeCluster.clusterKey a) = true ->
        awsBuild w = Ok tt -> awsGetCreator w = Ok arn -> ocmBuild w = Ok tt ->
        getCluster w (UpgradeCluster.clusterKey a) arn = Ok cl ->
        State cl = ClusterStateReady ->
        getScheduledUpgrade w (ID cl) = Ok None ->
        getAvailableUpgrades w (GetVersionID cl) = Ok avail ->
        avail <> [] ->
        let input := mkInput "Version" UpgradeCluster.versionUsage avail
                             (UpgradeCluster.version a) true in
        In (AskOption input) (trace (UpgradeCluster.run w a))
        /\ (forall answer,
              getOption w input = Ok answer -> In answer avail ->
              UpgradeCluster.resolveVersion w a avail =
              (inl answer, [AskOption input]))
        /\ (forall answer,
              getOption w input = Ok answer -> ~ In answer avail ->
              UpgradeCluster.run w a =
              (inr (Exit 1),
               prelude ++ lookups a arn cl
               ++ [AskOption input;
                   Report LError "Expected a valid version to upgrade to"])%list)
        /\ (forall e,
              getOption w input = Err e ->
              UpgradeCluster.run w a =
              (inr (Exit 1),
               prelude ++ lookups a arn cl
               ++ [AskOption input;
                   Report LError
                     ("Expected a valid version to upgrade to: " ++ e)])%list)
        /\ (forall id policy,
              In (AddUpgradePolicy id policy) (trace (UpgradeCluster.run w a)) ->
              getOption w input = Ok (Version policy)
              /\ In (Version policy) avail)).
Proof.
  intros Hv. split.
  - intros Hi Hnot. unfold trace, outcome.
    assert (Hshape : exists s t,
               UpgradeCluster.run w a = (inr s, t) /\ noMutation t).
    { destruct (upgrade_run_shape w a)
        as [H | (arn & pre & tail & HT & _)]; [assumption | exfalso].
      destruct HT as (cl & avail & version & nextRun & nodeDrain & minutes
                      & _ & _ & _ & Havail & Hversion & _).
      rewrite (resolveVersion_rejects w a avail Hi Hv (Hnot _ _ Havail))
        in Hversion.
      discriminate. }
    destruct Hshape as (s & t & Hrun & Ht).
    split; [rewrite Hrun; assumption |].
    split; [rewrite Hrun; exists s; reflexivity |].
    intros arn cl avail Hkey Haws Harn Hocm Hcl Hstate Hsu Havail Hne.
    exact (run_stops_resolving w a arn cl avail _ Hkey Haws Harn Hocm Hcl
             Hstate Hsu Havail Hne
             (resolveVersion_rejects w a avail Hi Hv (Hnot _ _ Havail))).
  - intros Hi arn cl avail Hkey Haws Harn Hocm Hcl Hstate Hsu Havail Hne input.
    pose proof (resolveVersion_interactive w a avail Hi Hv) as Hres.
    fold input in Hres.
    split; [| split; [| split; [| split]]].
    + apply (In_run_connected w a arn _ Hkey Haws Harn Hocm).
      rewrite (connected_resolved w a arn cl avail Hcl Hstate Hsu Havail Hne).
      apply In_after. unfold resolved. apply In_bind_l. rewrite Hres.
      destruct (getOption w input) as [answer | e]; [| left; reflexivity].
      destruct (existsb _ avail); left; reflexivity.
    + intros answer Hans Hin. rewrite Hres, Hans.
      destruct (existsb (fun v => String.eqb v answer) avail) eqn:Hex;
        [reflexivity |].
      exfalso. apply Bool.not_true_iff_false in Hex. apply Hex.
      apply existsb_exists. exists answer. split; [assumption |].
      apply String.eqb_refl.
    + intros answer Hans Hnot. rewrite Hans in Hres.
      rewrite (existsb_not_In _ _ Hnot) in Hres.
      exact (run_stops_resolving w a arn cl avail _ Hkey Haws Harn Hocm Hcl
               Hstate Hsu Havail Hne Hres).
    + intros e Hans. rewrite Hans in Hres.
      exact (run_stops_resolving w a arn cl avail _ Hkey Haws Harn Hocm Hcl
               Hstate Hsu Havail Hne Hres).
    + intros id policy Hin.
      destruct (upgrade_mutation_facts w a _ Hin eq_refl)
        as (arn' & cl' & avail' & version & nextRun & nodeDrain & minutes
            & Harn' & Hcl' & _ & _ & Havail' & Hversion & _ & _ & _ & [He | He]);
        [| discriminate].
      injection He as _ ->. cbn [Version].
      rewrite Harn in Harn'. injection Harn' as <-.
      rewrite Hcl in Hcl'. injection Hcl' as <-.
      rewrite Havail in Havail'. injection Havail' as <-.
      split; [| exact (resolveVersion_available w a avail version Hversion)].
      rewrite Hres in Hversion.
      destruct (getOption w input) as [answer | e]; [| discriminate].
      destruct (existsb _ avail); [| discriminate].
      cbn [fst] in Hversion. injection Hversion as ->. reflexivity.
Qed.

(** The version 9.9.9 is not available.  Without interactive mode the
    run ends at the check of the flag; with it, an operator who keeps
    the default is stopped by the check of the answer. *)
Lemma upgrade_unavailable_version_witness :
  UpgradeCluster.version Scenario.staleArgs <> ""
  /\ UpgradeCluster.run Scenario.world Scenario.staleArgs =
     (inr (Exit 1),
      [AwsNewClient; AwsGetCreator; OcmNewConnection;
       Report LDebug "Loading cluster 'mycluster'";
       OcmGetCluster "mycluster" Scenario.arn;
       OcmGetScheduledUpgrade "1a2b3c";
       OcmGetAvailableUpgrades "openshift-v4.5.19";
       Report LError "Expected a valid version to upgrade to"])
  /\ UpgradeCluster.run (Cases.keepingDefaults Scenario.world)
                        Scenario.staleArgs =
     (inr (Exit 1),
      [AwsNewClient; AwsGetCreator; OcmNewConnection;
       Report LDebug "Loading cluster 'mycluster'";
       OcmGetCluster "mycluster" Scenario.arn;
       OcmGetScheduledUpgrade "1a2b3c";
       OcmGetAvailableUpgrades "openshift-v4.5.19";
       AskOption (mkInput "Version" UpgradeCluster.versionUsage
                          ["4.5.20"; "4.5.21"] "9.9.9" true);
       Report LError "Expected a valid version to upgrade to"]).
Proof.
  assert (Hv : UpgradeCluster.version Scenario.staleArgs <> "")
    by (vm_compute; discriminate).
  split; [exact Hv |]. split.
  - destruct (proj1 (upgrade_unavailable_version Scenario.world
                       Scenario.staleArgs Hv)) as (_ & _ & Hrun).
    + reflexivity.
    + intros v avail Havail. injection Havail as <-.
      vm_compute. intuition discriminate.
    + apply (Hrun Scenario.arn Scenario.readyCluster ["4.5.20"; "4.5.21"]);
        try reflexivity.
      discriminate.
  - destruct (proj2 (upgrade_unavailable_version
                       (Cases.keepingDefaults Scenario.world)
                       Scenario.staleArgs Hv)
                eq_refl Scenario.arn Scenario.readyCluster ["4.5.20"; "4.5.21"]
                eq_refl eq_refl eq_refl eq_refl eq_refl eq_refl eq_refl eq_refl
                ltac:(discriminate))
      as (_ & _ & Hrun & _).
    apply (Hrun "9.9.9"); [reflexivity |].
    vm_compute. intuition discriminate.
Defined.

(** C6, as stated, fails in interactive mode.  The flag names the
    version 9.9.9, which is not among the available upgrades 4.5.20 and
    4.5.21.  The run puts the version question with 9.9.9 as its
    default, the operator answers 4.5.20, and the run completes with
    both requests submitted. *)
Lemma upgrade_interactive_version_counterexample :
  UpgradeCluster.version Scenario.staleArgs = "9.9.9"
  /\ interactiveEnabled (Scenario.interactiveWorld Scenario.world) = true
  /\ getAvailableUpgrades (Scenario.interactiveWorld Scenario.world)
       (GetVersionID Scenario.readyCluster) = Ok ["4.5.20"; "4.5.21"]
  /\ ~ In (UpgradeCluster.version Scenario.staleArgs) ["4.5.20"; "4.5.21"]
  /\ In (AskOption (mkInput "Version" UpgradeCluster.versionUsage
                            ["4.5.20"; "4.5.21"] "9.9.9" true))
        (trace (UpgradeCluster.run (Scenario.interactiveWorld Scenario.world)
                                   Scenario.staleArgs))
  /\ getOption (Scenario.interactiveWorld Scenario.world)
       (mkInput "Version" UpgradeCluster.versionUsage
                ["4.5.20"; "4.5.21"] "9.9.9" true) = Ok "4.5.20"
  /\ outcome (UpgradeCluster.run (Scenario.interactiveWorld Scenario.world)
                                 Scenario.staleArgs) = inl tt
  /\ mutations (trace (UpgradeCluster.run
                         (Scenario.interactiveWorld Scenario.world)
                         Scenario.staleArgs)) =
     [AddUpgradePolicy "1a2b3c"
        (mkUpgradePolicy "manual" "4.5.20" (mkTime 1606125060 0 "UTC" 0));
      UpdateCluster "1a2b3c"
        (mkClusterSpec (mkValue (Some (ofInt 15)) (Some "minutes")))].
Proof.
  split; [reflexivity |].
  split; [reflexivity |].
  split; [reflexivity |].
  split; [vm_compute; intuition discriminate |].
  split; [vm_compute; tauto |].
  split; [reflexivity |].
  split; vm_compute; reflexivity.
Qed.

(** ** The order of the submission *)

(** Once the four values are resolved, what is left of [resolved] is
    the submission step. *)
Lemma resolved_submits w a cl avail version nextRun nodeDrain minutes :
  fst (UpgradeCluster.resolveVersion w a avail) = inl version ->
  fst (UpgradeCluster.resolveSchedule w a) = inl nextRun ->
  fst (UpgradeCluster.resolveNodeDrain w a cl) = inl nodeDrain ->
  fst (UpgradeCluster.parseNodeDrain w nodeDrain) = inl minutes ->
  exists pre,
    noMutation pre /\
    resolved w a cl avail =
    after pre
      (bind (UpgradeCluster.submit w (UpgradeCluster.clusterKey a) cl
               (mkUpgradePolicy "manual" version nextRun)
               (mkClusterSpec (mkValue (Some minutes) (Some "minutes"))))
            (fun _ => Infof ("Upgrade successfully scheduled for cluster '"
                             ++ UpgradeCluster.clusterKey a ++ "'"))).
Proof.
  intros Hversion HnextRun HnodeDrain Hminutes. unfold resolved. cbv zeta.
  pose proof (noMutation_resolveVersion w a avail) as H1.
  pose proof (noMutation_resolveSchedule w a) as H2.
  pose proof (noMutation_resolveNodeDrain w a cl) as H3.
  pose proof (noMutation_parseNodeDrain w nodeDrain) as H4.
  destruct (UpgradeCluster.resolveVersion w a avail) as [r1 t1].
  cbn [fst snd] in Hversion, H1. subst r1.
  destruct (UpgradeCluster.resolveSchedule w a) as [r2 t2].
  cbn [fst snd] in HnextRun, H2. subst r2.
  destruct (UpgradeCluster.resolveNodeDrain w a cl) as [r3 t3].
  cbn [fst snd] in HnodeDrain, H3. subst r3.
  rewrite !bind_ret_l.
  destruct (UpgradeCluster.parseNodeDrain w nodeDrain) as [r4 t4].
  cbn [fst snd] in Hminutes, H4. subst r4.
  rewrite bind_ret_l.
  unfold UpgradeCluster.buildClusterSpec, UpgradeCluster.buildUpgradePolicy.
  cbn [orExit]. rewrite !bind_ret, !after_after.
  exists (((t1 ++ t2) ++ t3) ++ t4)%list.
  split; [repeat apply noMutation_app; assumption |].
  reflexivity.
Qed.

(** A run that is the submission step after [pre]. *)
Lemma run_submits w a pre cl policy spec :
  UpgradeCluster.run w a =
  after pre
    (defer (closeConnection w)
       (bind (UpgradeCluster.submit w (UpgradeCluster.clusterKey a) cl
                policy spec)
             (fun _ => Infof ("Upgrade successfully scheduled for cluster '"
                              ++ UpgradeCluster.clusterKey a ++ "'")))) ->
  match sendAddUpgradePolicy w (ID cl) policy with
  | Err e =>
      UpgradeCluster.run w a =
      (inr (Exit 1),
       pre ++ [AddUpgradePolicy (ID cl) policy;
               Report LError ("Failed to schedule upgrade for cluster '"
                              ++ UpgradeCluster.clusterKey a ++ "': " ++ e)])%list
  | Ok _ =>
      match sendUpdateCluster w (ID cl) spec with
      | Err e =>
          UpgradeCluster.run w a =
          (inr (Exit 1),
           pre ++ [AddUpgradePolicy (ID cl) policy;
                   UpdateCluster (ID cl) spec;
                   Report LError ("Failed to update cluster '"
                                  ++ UpgradeCluster.clusterKey a ++ "': " ++ e)])%list
      | Ok _ =>
          UpgradeCluster.run w a =
          (inl tt,
           pre ++ [AddUpgradePolicy (ID cl) policy;
                   UpdateCluster (ID cl) spec;
                   Report LInfo ("Upgrade successfully scheduled for cluster '"
                                 ++ UpgradeCluster.clusterKey a ++ "'")]
               ++ trace (closeConnection w))%list
      end
  end.
Proof.
  intros ->.
  pose proof (submit_cases w (UpgradeCluster.clusterKey a) cl policy spec
                ("Upgrade successfully scheduled for cluster '"
                 ++ UpgradeCluster.clusterKey a ++ "'")) as Hs.
  cbv zeta in Hs.
  destruct (sendAddUpgradePolicy w (ID cl) policy) as [[] | e].
  - destruct (sendUpdateCluster w (ID cl) spec) as [[] | e];
      rewrite Hs, defer_closeConnection; unfold after, trace; simpl;
      rewrite ?app_assoc; reflexivity.
  - rewrite Hs, defer_closeConnection. reflexivity.
Qed.

(** C7.  A run of the upgrade command either issues no mutation at all,
    or issues its mutations at the end, in this order: the policy
    creation first; when it fails, an error report and exit code 1, with
    no cluster update; when it succeeds, the cluster update; when that
    fails, an error report and exit code 1 with nothing after it, so the
    created policy stays; when both succeed, the success message and
    the deferred close.  And the submission step is reached: a run whose
    calls before it succeed, on a ready cluster with no upgrade
    scheduled, and that resolves the version, the next run and the grace
    period, is of the second kind, with the manual policy for that
    version and next run and the cluster update for that grace period
    in minutes. *)
Theorem upgrade_submission_order w a :
  (noMutation (trace (UpgradeCluster.run w a))
   \/ exists pre cl policy spec,
        noMutation pre /\
        match sendAddUpgradePolicy w (ID cl) policy with
        | Err e =>
            UpgradeCluster.run w a =
            (inr (Exit 1),
             pre ++ [AddUpgradePolicy (ID cl) policy;
                     Report LError ("Failed to schedule upgrade for cluster '"
                                    ++ UpgradeCluster.clusterKey a ++ "': " ++ e)])%list
        | Ok _ =>
            match sendUpdateCluster w (ID cl) spec with
            | Err e =>
                UpgradeCluster.run w a =
                (inr (Exit 1),
                 pre ++ [AddUpgradePolicy (ID cl) policy;
                         UpdateCluster (ID cl) spec;
                         Report LError ("Failed to update cluster '"
                                        ++ UpgradeCluster.clusterKey a ++ "': " ++ e)])%list
            | Ok _ =>
                UpgradeCluster.run w a =
                (inl tt,
                 pre ++ [AddUpgradePolicy (ID cl) policy;
                         UpdateCluster (ID cl) spec;
                         Report LInfo ("Upgrade successfully scheduled for cluster '"
                                       ++ UpgradeCluster.clusterKey a ++ "'")]
                     ++ trace (closeConnection w))%list
            end
        end)
  /\ forall arn cl avail version nextRun nodeDrain minutes,
       IsValidClusterKey (UpgradeCluster.clusterKey a) = true ->
       awsBuild w = Ok tt -> awsGetCreator w = Ok arn -> ocmBuild w = Ok tt ->
       getCluster w (UpgradeCluster.clusterKey a) arn = Ok cl ->
       State cl = ClusterStateReady ->
       getScheduledUpgrade w (ID cl) = Ok None ->
       getAvailableUpgrades w (GetVersionID cl) = Ok avail ->
       fst (UpgradeCluster.resolveVersion w a avail) = inl version ->
       fst (UpgradeCluster.resolveSchedule w a) = inl nextRun ->
       fst (UpgradeCluster.resolveNodeDrain w a cl) = inl nodeDrain ->
       fst (UpgradeCluster.parseNodeDrain w nodeDrain) = inl minutes ->
       let policy := mkUpgradePolicy "manual" version nextRun in
       let spec := mkClusterSpec (mkValue (Some minutes) (Some "minutes")) in
       exists pre,
         noMutation pre /\
         match sendAddUpgradePolicy w (ID cl) policy with
         | Err e =>
             UpgradeCluster.run w a =
             (inr (Exit 1),
              pre ++ [AddUpgradePolicy (ID cl) policy;
                      Report LError ("Failed to schedule upgrade for cluster '"
                                     ++ UpgradeCluster.clusterKey a ++ "': " ++ e)])%list
         | Ok _ =>
             match sendUpdateCluster w (ID cl) spec with
             | Err e =>
                 UpgradeCluster.run w a =
                 (inr (Exit 1),
                  pre ++ [AddUpgradePolicy (ID cl) policy;
                          UpdateCluster (ID cl) spec;
                          Report LError ("Failed to update cluster '"
                                         ++ UpgradeCluster.clusterKey a ++ "': " ++ e)])%list
             | Ok _ =>
                 UpgradeCluster.run w a =
                 (inl tt,
                  pre ++ [AddUpgradePolicy (ID cl) policy;
                          UpdateCluster (ID cl) spec;
                          Report LInfo ("Upgrade successfully scheduled for cluster '"
                                        ++ UpgradeCluster.clusterKey a ++ "'")]
                      ++ trace (closeConnection w))%list
             end
         end.
Proof.
  split.
  - destruct (upgrade_run_shape w a)
      as [(s & t & -> & Ht)
         | (arn & pre & tail & HT & Hpre & _ & _ & _ & _ & Hrun)].
    + left. assumption.
    + right.
      destruct HT as (cl & avail & version & nextRun & nodeDrain & minutes
                      & _ & _ & _ & _ & _ & _ & _ & _ & ->).
      exists pre, cl, (mkUpgradePolicy "manual" version nextRun),
        (mkClusterSpec (mkValue (Some minutes) (Some "minutes"))).
      split; [assumption |].
      exact (run_submits w a pre cl _ _ Hrun).
  - intros arn cl avail version nextRun nodeDrain minutes
      Hkey Haws Harn Hocm Hcl Hstate Hsu Havail
      Hversion HnextRun HnodeDrain Hminutes policy spec.
    assert (Hne : avail <> []).
    { intros ->.
      destruct (resolveVersion_available w a [] version Hversion). }
    destruct (resolved_submits w a cl avail version nextRun nodeDrain minutes
                Hversion HnextRun HnodeDrain Hminutes) as (pre & Hpre & Hres).
    exists (prelude ++ lookups a arn cl ++ pre)%list. split.
    { repeat apply noMutation_app;
        [repeat constructor | repeat constructor | assumption]. }
    apply run_submits.
    rewrite (upgrade_run_connected w a arn Hkey Haws Harn Hocm).
    rewrite (connected_resolved w a arn cl avail Hcl Hstate Hsu Havail Hne).
    rewrite Hres, !defer_after, !after_after.
    rewrite <- app_assoc. reflexivity.
Qed.

(** The policy goes through and the update of the cluster fails: the
    update was sent after the policy, its failure is reported, and
    nothing comes after the report. *)
Lemma upgrade_submission_order_witness :
  exists pre,
    noMutation pre /\
    UpgradeCluster.run
      (Scenario.withSubmission Scenario.world (Ok tt) (Err "status is 500"))
      Scenario.upgradeArgs =
    (inr (Exit 1),
     pre ++ [AddUpgradePolicy "1a2b3c"
               (mkUpgradePolicy "manual" "4.5.20" (mkTime 1606125060 0 "UTC" 0));
             UpdateCluster "1a2b3c"
               (mkClusterSpec (mkValue (Some (ofInt 60)) (Some "minutes")));
             Report LError
               "Failed to update cluster 'mycluster': status is 500"])%list.
Proof.
  exact (proj2 (upgrade_submission_order
                  (Scenario.withSubmission Scenario.world (Ok tt)
                                           (Err "status is 500"))
                  Scenario.upgradeArgs)
           Scenario.arn Scenario.readyCluster ["4.5.20"; "4.5.21"] "4.5.20"
           (mkTime 1606125060 0 "UTC" 0) "1 hour" (ofInt 60)
           eq_refl eq_refl eq_refl eq_refl eq_refl eq_refl eq_refl eq_refl
           eq_refl eq_refl eq_refl eq_refl).
Defined.

(** ** Runs without prompts *)

Lemma Only_defer_close {A} p w (body : M A) :
  p OcmClose = true -> (forall l msg, p (Report l msg) = true) ->
  Only p (snd body) -> Only p (snd (defer (closeConnection w) body)).
Proof.
  intros Hclose Hrep Hb. destruct body as [r t].
  rewrite defer_closeConnection, closeConnection_events. cbn [snd] in *.
  assert (Hc : Only p (closeEvents w)).
  { unfold closeEvents. destruct (ocmClose w); repeat constructor;
      try assumption; apply Hrep. }
  destruct r as [x | [c | m]]; cbn [snd]; try assumption;
    apply Only_app; assumption.
Qed.

Lemma noPrompt_resolveVersion w a avail :
  interactiveEnabled w = false -> UpgradeCluster.version a <> "" ->
  Only (fun e => negb (isPrompt e))
       (snd (UpgradeCluster.resolveVersion w a avail)).
Proof.
  intros Hi Hv. apply String.eqb_neq in Hv.
  unfold UpgradeCluster.resolveVersion, Errorf. rewrite Hi, Hv. cbn [orb].
  only_events.
Qed.

Lemma noPrompt_resolveSchedule w a :
  interactiveEnabled w = false ->
  Only (fun e => negb (isPrompt e)) (snd (UpgradeCluster.resolveSchedule w a)).
Proof.
  intros Hi. unfold UpgradeCluster.resolveSchedule, Errorf. rewrite Hi.
  only_events.
Qed.

Lemma noPrompt_resolveNodeDrain w a cl :
  interactiveEnabled w = false ->
  Only (fun e => negb (isPrompt e))
       (snd (UpgradeCluster.resolveNodeDrain w a cl)).
Proof.
  intros Hi. unfold UpgradeCluster.resolveNodeDrain. rewrite Hi. only_events.
Qed.

(** X6.  With interactive mode off and a version given, the upgrade
    command asks the operator nothing. *)
Theorem upgrade_without_prompts w a :
  interactiveEnabled w = false -> UpgradeCluster.version a <> "" ->
  Only (fun e => negb (isPrompt e)) (trace (UpgradeCluster.run w a)).
Proof.
  intros Hi Hv. unfold trace, UpgradeCluster.run, Errorf.
  do 7 (apply Only_bind; [only_events | intros ? ?]).
  apply Only_defer_close; [reflexivity | reflexivity |].
  unfold UpgradeCluster.connected, Errorf, Warnf, Infof, Debugf.
  do 10 (apply Only_bind; [only_events | intros ? ?]).
  apply Only_bind; [apply noPrompt_resolveVersion; assumption | intros ? ?].
  apply Only_bind; [apply noPrompt_resolveSchedule; assumption | intros ? ?].
  apply Only_bind; [apply noPrompt_resolveNodeDrain; assumption | intros ? ?].
  unfold UpgradeCluster.parseNodeDrain, UpgradeCluster.submit.
  only_events.
Qed.

(** ** The schedule *)

Lemma resolveSchedule_flags w a :
  interactiveEnabled w = false ->
  UpgradeCluster.resolveSchedule w a =
  let now := Add (UTC (timeNow w)) (Minute * 10) in
  let date := if String.eqb (UpgradeCluster.scheduleDate a) ""
              then Format now layoutDate else UpgradeCluster.scheduleDate a in
  let clock := if String.eqb (UpgradeCluster.scheduleTime a) ""
               then Format now layoutClock else UpgradeCluster.scheduleTime a in
  orExit (Parse layoutDateClock (date ++ " " ++ clock))
         (fun e => "Time format invalid: " ++ e).
Proof.
  intros Hi. unfold UpgradeCluster.resolveSchedule. rewrite Hi.
  cbv zeta. unfold ret. rewrite bind_ret_l, after_nil. reflexivity.
Qed.

Lemma upgrade_without_next_run w a :
  (forall nextRun, fst (UpgradeCluster.resolveSchedule w a) <> inl nextRun) ->
  noMutation (trace (UpgradeCluster.run w a)).
Proof.
  intros Hnone. unfold trace.
  destruct (upgrade_run_shape w a)
    as [(s & t & -> & Ht) | (arn & pre & tail & HT & _)]; [assumption |].
  destruct HT as (cl & avail & version & nextRun & nodeDrain & minutes
                  & _ & _ & _ & _ & _ & HnextRun & _).
  exfalso. exact (Hnone nextRun HnextRun).
Qed.

(** X7.  With interactive mode off, the next run is the parse of the
    date and the time joined by a space, each of them the flag or, when
    the flag is empty, the print of the clock reading plus ten minutes:
    when the text parses, every submitted policy carries that time;
    when it does not, the run issues no mutation. *)
Theorem upgrade_schedule_from_flags w a :
  interactiveEnabled w = false ->
  let now := Add (UTC (timeNow w)) (Minute * 10) in
  let date := if String.eqb (UpgradeCluster.scheduleDate a) ""
              then Format now layoutDate else UpgradeCluster.scheduleDate a in
  let clock := if String.eqb (UpgradeCluster.scheduleTime a) ""
               then Format now layoutClock else UpgradeCluster.scheduleTime a in
  match Parse layoutDateClock (date ++ " " ++ clock) with
  | Ok t =>
      forall id policy,
        In (AddUpgradePolicy id policy) (trace (UpgradeCluster.run w a)) ->
        NextRun policy = t
  | Err _ => noMutation (trace (UpgradeCluster.run w a))
  end.
Proof.
  intros Hi. pose proof (resolveSchedule_flags w a Hi) as Hr.
  cbv zeta in *.
  destruct (Parse layoutDateClock _) as [t | e].
  - intros id policy Hin.
    destruct (upgrade_mutation_facts w a _ Hin eq_refl)
      as (arn & cl & avail & version & nextRun & nodeDrain & minutes
          & _ & _ & _ & _ & _ & _ & HnextRun & _ & _ & [He | He]);
      [| discriminate].
    injection He as _ ->. cbn [NextRun].
    rewrite Hr in HnextRun. cbn in HnextRun. congruence.
  - apply upgrade_without_next_run. intros nextRun. rewrite Hr. discriminate.
Qed.



(** ** The grace period *)

Lemma resolveNodeDrain_flag w a cl s :
  interactiveEnabled w = false ->
  UpgradeCluster.nodeDrainGracePeriodFlag a = Some s ->
  UpgradeCluster.resolveNodeDrain w a cl = (inl s, []).
Proof.
  intros Hi Hflag. unfold UpgradeCluster.resolveNodeDrain,
    UpgradeCluster.nodeDrainGracePeriodChanged,
    UpgradeCluster.nodeDrainGracePeriod.
  rewrite Hi, Hflag, orb_true_r. reflexivity.
Qed.

Lemma resolveNodeDrain_default w a cl :
  interactiveEnabled w = false ->
  UpgradeCluster.nodeDrainGracePeriodFlag a = None ->
  snd (GetValue (NodeDrainGracePeriod cl)) = false ->
  UpgradeCluster.resolveNodeDrain w a cl = (inl "1 hour", []).
Proof.
  intros Hi Hflag Hnone. unfold UpgradeCluster.resolveNodeDrain,
    UpgradeCluster.nodeDrainGracePeriodChanged,
    UpgradeCluster.nodeDrainGracePeriod, UpgradeCluster.storedNodeDrain.
  rewrite Hi, Hflag, Hnone. reflexivity.
Qed.

(** X9.  With interactive mode off, a grace period passed on the
    command line wins over the one the cluster stores: every cluster
    update carries the minutes the text of the flag parses to, in the
    unit [minutes]. *)
Theorem upgrade_grace_period_flag_wins w a s id spec :
  interactiveEnabled w = false ->
  UpgradeCluster.nodeDrainGracePeriodFlag a = Some s ->
  In (UpdateCluster id spec) (trace (UpgradeCluster.run w a)) ->
  exists minutes,
    fst (UpgradeCluster.parseNodeDrain w s) = inl minutes
    /\ spec = mkClusterSpec (mkValue (Some minutes) (Some "minutes")).
Proof.
  intros Hi Hflag Hin.
  destruct (upgrade_mutation_facts w a _ Hin eq_refl)
    as (arn & cl & avail & version & nextRun & nodeDrain & minutes
        & _ & _ & _ & _ & _ & _ & _ & HnodeDrain & Hminutes & [He | He]);
    [discriminate |].
  injection He as _ ->.
  rewrite (resolveNodeDrain_flag w a cl s Hi Hflag) in HnodeDrain.
  injection HnodeDrain as <-.
  exists minutes. split; [assumption | reflexivity].
Qed.

(** X10.  With interactive mode off, no grace-period flag and a cluster
    that stores no grace period, the default of the flag, one hour, is
    what goes out: every cluster update carries 60 minutes. *)
Theorem upgrade_default_grace_period w a id spec :
  interactiveEnabled w = false ->
  UpgradeCluster.nodeDrainGracePeriodFlag a = None ->
  (forall key arn cl, getCluster w key arn = Ok cl ->
     snd (GetValue (NodeDrainGracePeriod cl)) = false) ->
  In (UpdateCluster id spec) (trace (UpgradeCluster.run w a)) ->
  spec = mkClusterSpec (mkValue (Some (ofInt 60)) (Some "minutes")).
Proof.
  intros Hi Hflag Hnone Hin.
  destruct (upgrade_mutation_facts w a _ Hin eq_refl)
    as (arn & cl & avail & version & nextRun & nodeDrain & minutes
        & _ & Hcl & _ & _ & _ & _ & _ & HnodeDrain & Hminutes & [He | He]);
    [discriminate |].
  injection He as _ ->.
  rewrite (resolveNodeDrain_default w a cl Hi Hflag (Hnone _ _ _ Hcl))
    in HnodeDrain.
  injection HnodeDrain as <-.
  change (UpgradeCluster.parseNodeDrain w "1 hour")
    with (@inl float64 Stop (ofInt 60), @nil Event) in Hminutes.
  injection Hminutes as <-. reflexivity.
Qed.

(** X11.  Each option of the grace-period question parses, without
    exit or panic, to a whole number of minutes, and a cluster that
    stores that number is shown with the very text of the option: on
    the offered values, storing and showing again loses nothing. *)
Theorem node_drain_options_round_trip w o :
  In o UpgradeCluster.nodeDrainOptions ->
  exists v,
    UpgradeCluster.parseNodeDrain w o = (inl (ofInt v), [])
    /\ forall cl,
         NodeDrainGracePeriod cl
         = Some (mkValue (Some (ofInt v)) (Some "minutes")) ->
         UpgradeCluster.storedNodeDrain cl = o.
Proof.
  intros Hin.
  assert (Hstored : forall v cl,
            - 2 ^ 53 < v < 2 ^ 53 ->
            NodeDrainGracePeriod cl
            = Some (mkValue (Some (ofInt v)) (Some "minutes")) ->
            UpgradeCluster.storedNodeDrain cl =
            if v <? 60 then FormatInt v ++ " minutes"
            else FormatInt (v / 60)
                 ++ (if v / 60 =? 1 then " hour" else " hours")).
  { intros v cl Hv Hnd. exact (storedNodeDrain_minutes cl v Hv Hnd). }
  unfold UpgradeCluster.nodeDrainOptions in Hin. cbn [In] in Hin.
  destruct Hin as [<- | [<- | [<- | [<- | [<- | [<- | [<- | []]]]]]]].
  - exists 15. split; [vm_compute; reflexivity |]. intros cl Hnd.
    rewrite (Hstored 15 cl) by (assumption || (vm_compute; split; reflexivity)).
    vm_compute. reflexivity.
  - exists 30. split; [vm_compute; reflexivity |]. intros cl Hnd.
    rewrite (Hstored 30 cl) by (assumption || (vm_compute; split; reflexivity)).
    vm_compute. reflexivity.
  - exists 45. split; [vm_compute; reflexivity |]. intros cl Hnd.
    rewrite (Hstored 45 cl) by (assumption || (vm_compute; split; reflexivity)).
    vm_compute. reflexivity.
  - exists 60. split; [vm_compute; reflexivity |]. intros cl Hnd.
    rewrite (Hstored 60 cl) by (assumption || (vm_compute; split; reflexivity)).
    vm_compute. reflexivity.
  - exists 120. split; [vm_compute; reflexivity |]. intros cl Hnd.
    rewrite (Hstored 120 cl) by (assumption || (vm_compute; split; reflexivity)).
    vm_compute. reflexivity.
  - exists 240. split; [vm_compute; reflexivity |]. intros cl Hnd.
    rewrite (Hstored 240 cl) by (assumption || (vm_compute; split; reflexivity)).
    vm_compute. reflexivity.
  - exists 480. split; [vm_compute; reflexivity |]. intros cl Hnd.
    rewrite (Hstored 480 cl) by (assumption || (vm_compute; split; reflexivity)).
    vm_compute. reflexivity.
Qed.

(** ** Exits *)

Lemma ExitsReported_ret {A} (a : A) : ExitsReported (ret (E:=Event) a).
Proof. intros c H. discriminate. Qed.

Lemma ExitsReported_emit e : ExitsReported (emit e).
Proof. intros c H. discriminate. Qed.

Lemma ExitsReported_call {A} e (x : A) : ExitsReported (call e x).
Proof. intros c H. discriminate. Qed.

Lemma ExitsReported_index l i : ExitsReported (index (E:=Event) l i).
Proof. intros c H. unfold index in H. destruct (nth_error l i); discriminate. Qed.

Lemma ExitsReported_error_exit msg :
  ExitsReported (A:=unit) (bind (emit (Report LError msg)) (fun _ => os_Exit 1)).
Proof.
  intros c H. injection H as <-. split; [right; reflexivity |].
  exists [], msg. reflexivity.
Qed.

Lemma ExitsReported_warn_exit msg :
  ExitsReported (A:=unit) (bind (emit (Report LWarn msg)) (fun _ => os_Exit 0)).
Proof.
  intros c H. injection H as <-. split; [left; reflexivity |].
  exists [], msg. reflexivity.
Qed.

Lemma ExitsReported_orExit {A} (r : result A) f : ExitsReported (orExit r f).
Proof.
  destruct r as [x | e]; intros c H; [discriminate |].
  injection H as <-. split; [right; reflexivity |].
  exists [], (f e). reflexivity.
Qed.

Lemma ExitsReported_bind {A B} (m : M A) (k : A -> M B) :
  ExitsReported m -> (forall a, fst m = inl a -> ExitsReported (k a)) ->
  ExitsReported (bind m k).
Proof.
  unfold ExitsReported. destruct m as [[a | s] t]; simpl; intros Hm Hk c H.
  - specialize (Hk a eq_refl c). destruct (k a) as [r t']. simpl in *.
    destruct (Hk H) as (Hc & t0 & msg & ->).
    split; [assumption |]. exists (t ++ t0)%list, msg.
    rewrite app_assoc. reflexivity.
  - apply Hm. injection H as ->. reflexivity.
Qed.

Lemma ExitsReported_when b (m : M unit) :
  ExitsReported m -> ExitsReported (when b m).
Proof. destruct b; [trivial | intros _ c H; discriminate]. Qed.

Lemma ExitsReported_defer_close {A} w (body : M A) :
  ExitsReported body -> ExitsReported (defer (closeConnection w) body).
Proof.
  intros Hb c H. destruct body as [r t].
  rewrite defer_closeConnection in H |- *.
  destruct r as [x | [c' | m]]; try discriminate.
  apply Hb. exact H.
Qed.

(** Walks a command and checks that each of its exits follows a
    report. *)
Ltac exits_reported :=
  repeat first
    [ apply ExitsReported_ret
    | apply ExitsReported_emit
    | apply ExitsReported_call
    | apply ExitsReported_index
    | apply ExitsReported_orExit
    | apply ExitsReported_error_exit
    | apply ExitsReported_warn_exit
    | apply ExitsReported_when
    | apply ExitsReported_bind; [| intros ? ?]
    | progress cbv zeta
    | match goal with
      | |- ExitsReported (if ?b then _ else _) => destruct b
      | |- ExitsReported (match ?x with _ => _ end) => is_var x; destruct x
      end ].

Lemma ExitsReported_upgrade_connected w a arn :
  ExitsReported (UpgradeCluster.connected w a arn).
Proof.
  unfold UpgradeCluster.connected, UpgradeCluster.resolveVersion,
    UpgradeCluster.resolveSchedule, UpgradeCluster.resolveNodeDrain,
    UpgradeCluster.parseNodeDrain, UpgradeCluster.submit,
    Errorf, Warnf, Infof, Debugf.
  exits_reported.
Qed.

(** X12.  The upgrade command exits with code 0 or 1 only, and every
    exit comes right after a report: a warning before code 0, an error
    before code 1. *)
Theorem upgrade_exit_reported w a code :
  outcome (UpgradeCluster.run w a) = inr (Exit code) ->
  (code = 0 \/ code = 1)
  /\ exists t msg,
       trace (UpgradeCluster.run w a)
       = (t ++ [Report (exitLevel code) msg])%list.
Proof.
  unfold outcome, trace. revert code.
  change (ExitsReported (UpgradeCluster.run w a)).
  unfold UpgradeCluster.run, Errorf.
  do 7 (apply ExitsReported_bind; [exits_reported | intros ? ?]).
  apply ExitsReported_defer_close. apply ExitsReported_upgrade_connected.
Qed.

(** X13.  The upgrade command returns normally only after both requests
    were accepted: its trace then ends with the policy creation, the
    cluster update, the success message and the deferred close, with no
    mutation before them. *)
Theorem upgrade_return_means_both_sent w a :
  outcome (UpgradeCluster.run w a) = inl tt ->
  exists pre cl policy spec,
    noMutation pre
    /\ sendAddUpgradePolicy w (ID cl) policy = Ok tt
    /\ sendUpdateCluster w (ID cl) spec = Ok tt
    /\ trace (UpgradeCluster.run w a) =
       (pre ++ [AddUpgradePolicy (ID cl) policy;
                UpdateCluster (ID cl) spec;
                Report LInfo ("Upgrade successfully scheduled for cluster '"
                              ++ UpgradeCluster.clusterKey a ++ "'")]
            ++ closeEvents w)%list.
Proof.
  unfold outcome, trace.
  destruct (upgrade_run_shape w a)
    as [(s & t & -> & Ht) | (arn & pre & tail & HT & Hpre & _ & _ & _ & _ & ->)];
    [discriminate |].
  destruct HT as (cl & avail & version & nextRun & nodeDrain & minutes
                  & _ & _ & _ & _ & _ & _ & _ & _ & ->).
  pose proof (submit_cases w (UpgradeCluster.clusterKey a) cl
                (mkUpgradePolicy "manual" version nextRun)
                (mkClusterSpec (mkValue (Some minutes) (Some "minutes")))
                ("Upgrade successfully scheduled for cluster '"
                 ++ UpgradeCluster.clusterKey a ++ "'")) as Hs.
  cbv zeta in Hs.
  destruct (sendAddUpgradePolicy w (ID cl) _) as [[] | e1] eqn:Hadd.
  - destruct (sendUpdateCluster w (ID cl) _) as [[] | e2] eqn:Hupd;
      rewrite Hs, defer_closeConnection; unfold after; cbn [fst snd];
      [| discriminate].
    intros _. exists pre, cl, (mkUpgradePolicy "manual" version nextRun),
      (mkClusterSpec (mkValue (Some minutes) (Some "minutes"))).
    repeat (split; [assumption |]).
    rewrite closeConnection_events. cbn [snd]. reflexivity.
  - rewrite Hs, defer_closeConnection. discriminate.
Qed.

(** ** The revoke command *)

Lemma revoke_connected_cases w a role arn :
  RevokeUser.connected w a role arn =
  match getCluster w (RevokeUser.clusterKey a) arn with
  | Err e =>
      (inr (Exit 1),
       [Report LDebug ("Loading cluster '" ++ RevokeUser.clusterKey a ++ "'");
        OcmGetCluster (RevokeUser.clusterKey a) arn;
        Report LError ("Failed to get cluster '" ++ RevokeUser.clusterKey a
                       ++ "': " ++ e)])
  | Ok cl =>
      if confirm w (revokePrompt a role) then
        match sendDeleteGroupUser w (ID cl) role (RevokeUser.username a) with
        | None =>
            (inl tt, (revokeLookup a arn role ++ revokeRequest a cl role)%list)
        | Some (err, reason) =>
            (inr (Exit 1),
             (revokeLookup a arn role ++ revokeRequest a cl role
              ++ [Report LDebug err;
                  Report LError ("Failed to revoke '" ++ role
                                 ++ "' from user '" ++ RevokeUser.username a
                                 ++ "' in cluster '" ++ RevokeUser.clusterKey a
                                 ++ "': " ++ reason)])%list)
        end
      else (inr (Exit 0), revokeLookup a arn role)
  end.
Proof.
  unfold RevokeUser.connected, revokeLookup, revokeRequest, revokePrompt.
  cbv zeta.
  destruct (getCluster w (RevokeUser.clusterKey a) arn) as [cl | e];
    [| reflexivity].
  cbn [bind call emit ret orExit fst snd app Debugf].
  destruct (confirm w _); [| reflexivity].
  cbn [negb when bind call emit ret orExit fst snd app Debugf].
  destruct (sendDeleteGroupUser w (ID cl) role (RevokeUser.username a))
    as [[err reason] |]; reflexivity.
Qed.

(** The checks of the arguments, in their order. *)
Lemma revoke_run_invalid w a argv :
  IsValidClusterKey (RevokeUser.clusterKey a)
  && IsValidUsername (RevokeUser.username a)
  && Nat.eqb (List.length argv) 1 = false ->
  RevokeUser.run w a argv =
  (inr (Exit 1),
   [Report LError
      (if negb (IsValidClusterKey (RevokeUser.clusterKey a)) then
         "Cluster name, identifier or external identifier '"
         ++ RevokeUser.clusterKey a ++ "' isn't valid: it "
         ++ "must contain only letters, digits, dashes and underscores"
       else if negb (IsValidUsername (RevokeUser.username a)) then
         "username '" ++ RevokeUser.username a ++ "' isn't valid: it must contain "
         ++ "only letters, digits, dashes and underscores"
       else
         "Expected exactly one command line argument or flag containing the name "
         ++ "of the group or role to grant the user.")]).
Proof.
  intros H. unfold RevokeUser.run.
  destruct (IsValidClusterKey (RevokeUser.clusterKey a)); [| reflexivity].
  destruct (IsValidUsername (RevokeUser.username a)); [| reflexivity].
  cbn [andb] in H. rewrite H. reflexivity.
Qed.

Lemma revoke_run_valid w a role0 :
  IsValidClusterKey (RevokeUser.clusterKey a) = true ->
  IsValidUsername (RevokeUser.username a) = true ->
  (exists msg t,
      RevokeUser.run w a [role0] =
      (inr (Exit 1), (t ++ [Report LError msg])%list)
      /\ Only isOpening t)
  \/ (exists arn,
        awsGetCreator w = Ok arn /\
        RevokeUser.run w a [role0] =
        after (roleReport (RevokeUser.canonicalRole role0) ++ prelude)
              (defer (closeConnection w)
                 (RevokeUser.connected w a (RevokeUser.canonicalRole role0)
                                       arn))).
Proof.
  intros Hkey Huser. unfold RevokeUser.run. rewrite Hkey, Huser.
  cbn [negb when List.length Nat.eqb index nth_error].
  rewrite !bind_ret. cbv beta.
  assert (Hrole : Only isOpening
                    (roleReport (RevokeUser.canonicalRole role0))).
  { unfold roleReport. destruct (RevokeUser.isRoleValid _); repeat constructor. }
  assert (Hwhen : when (negb (RevokeUser.isRoleValid
                                (RevokeUser.canonicalRole role0)))
                    (Errorf ("Expected at least one of "
                             ++ FormatStrings RevokeUser.validRoles))
                  = (inl tt, roleReport (RevokeUser.canonicalRole role0))).
  { unfold roleReport. destruct (RevokeUser.isRoleValid _); reflexivity. }
  rewrite Hwhen, bind_ret_l.
  set (rr := roleReport (RevokeUser.canonicalRole role0)) in *.
  destruct (awsBuild w) as [[] | e1].
  2:{ left. exists ("Failed to create AWS client: " ++ e1),
        (rr ++ [AwsNewClient])%list.
      split; [unfold after; cbn; rewrite <- app_assoc; reflexivity |].
      apply Only_app; [assumption | repeat constructor]. }
  destruct (awsGetCreator w) as [arn | e2].
  2:{ left. exists ("Failed to get AWS creator: " ++ e2),
        (rr ++ [AwsNewClient; AwsGetCreator])%list.
      split; [unfold after; cbn; rewrite <- app_assoc; reflexivity |].
      apply Only_app; [assumption | repeat constructor]. }
  destruct (ocmBuild w) as [[] | e3].
  2:{ left. exists ("Failed to create OCM connection: " ++ e3),
        (rr ++ prelude)%list.
      split; [unfold after; cbn; rewrite <- app_assoc; reflexivity |].
      apply Only_app; [assumption | repeat constructor]. }
  right. exists arn. split; [reflexivity |].
  unfold after. cbn [bind call emit ret orExit fst snd app].
  destruct (defer _ _) as [r t]. cbn [fst snd].
  rewrite <- app_assoc. reflexivity.
Qed.

Lemma argv_cases (argv : list string) :
  Nat.eqb (List.length argv) 1 = false \/ exists role0, argv = [role0].
Proof.
  destruct argv as [| role0 [| ? ?]];
    [left; reflexivity | right; exists role0; reflexivity | left; reflexivity].
Qed.

(** Every run of the revoke command, by cases. *)
Lemma revoke_run_cases w a argv :
  (exists msg t,
      RevokeUser.run w a argv = (inr (Exit 1), (t ++ [Report LError msg])%list)
      /\ Only isOpening t)
  \/ (exists role0 arn,
        argv = [role0] /\ awsGetCreator w = Ok arn /\
        RevokeUser.run w a argv =
        after (roleReport (RevokeUser.canonicalRole role0) ++ prelude)
              (defer (closeConnection w)
                 (RevokeUser.connected w a (RevokeUser.canonicalRole role0)
                                       arn))).
Proof.
  destruct (IsValidClusterKey (RevokeUser.clusterKey a)
            && IsValidUsername (RevokeUser.username a)
            && Nat.eqb (List.length argv) 1) eqn:Hvalid.
  - apply andb_prop in Hvalid. destruct Hvalid as [Hvalid Hlen].
    apply andb_prop in Hvalid. destruct Hvalid as [Hkey Huser].
    destruct (argv_cases argv) as [Hno | [role0 ->]]; [congruence |].
    destruct (revoke_run_valid w a role0 Hkey Huser)
      as [Hfail | (arn & Harn & Hrun)]; [left; assumption |].
    right. exists role0, arn. repeat split; assumption.
  - left. rewrite (revoke_run_invalid w a argv Hvalid).
    eexists _, []. split; [reflexivity | constructor].
Qed.

(** X14.  The revoke command checks its arguments before it calls
    anything: when the cluster key, the user name or the number of
    positional arguments is wrong, the run is a single error report
    followed by exit code 1, and the report is the one of the first
    failed check, in the order key, user name, arguments. *)
Theorem revoke_validation_order w a argv :
  IsValidClusterKey (RevokeUser.clusterKey a)
  && IsValidUsername (RevokeUser.username a)
  && Nat.eqb (List.length argv) 1 = false ->
  RevokeUser.run w a argv =
  (inr (Exit 1),
   [Report LError
      (if negb (IsValidClusterKey (RevokeUser.clusterKey a)) then
         "Cluster name, identifier or external identifier '"
         ++ RevokeUser.clusterKey a ++ "' isn't valid: it "
         ++ "must contain only letters, digits, dashes and underscores"
       else if negb (IsValidUsername (RevokeUser.username a)) then
         "username '" ++ RevokeUser.username a ++ "' isn't valid: it must contain "
         ++ "only letters, digits, dashes and underscores"
       else
         "Expected exactly one command line argument or flag containing the name "
         ++ "of the group or role to grant the user.")]).
Proof. exact (revoke_run_invalid w a argv). Qed.

(** X15.  The role given to the revoke command gets an [s] appended
    exactly when it is one of the two aliases, and the role that
    results is a valid one exactly when the given role is one of the
    two valid roles or one of the two aliases. *)
Theorem revoke_role_aliases role :
  RevokeUser.canonicalRole role =
    (if existsb (String.eqb role) RevokeUser.validRolesAliases
     then role ++ "s" else role)
  /\ (RevokeUser.isRoleValid (RevokeUser.canonicalRole role) = true
      <-> In role (RevokeUser.validRoles ++ RevokeUser.validRolesAliases)).
Proof.
  unfold RevokeUser.canonicalRole, RevokeUser.isRoleValid,
    RevokeUser.validRolesAliases, RevokeUser.validRoles.
  cbn [fold_left existsb app In].
  destruct (String.eqb_spec role "cluster-admin") as [-> | H1].
  { split; [reflexivity |]. split; [intros _ | reflexivity]. tauto. }
  destruct (String.eqb_spec role "dedicated-admin") as [-> | H2].
  { split; [reflexivity |]. split; [intros _ | reflexivity]. tauto. }
  cbn [orb]. split; [reflexivity |].
  destruct (String.eqb_spec role "cluster-admins") as [-> | H3].
  { split; [intros _ | reflexivity]. tauto. }
  destruct (String.eqb_spec role "dedicated-admins") as [-> | H4].
  { split; [intros _ | reflexivity]. tauto. }
  split; [discriminate |].
  intros [E | [E | [E | [E | []]]]]; congruence.
Qed.

Lemma Only_isOpening_noMutation t : Only isOpening t -> noMutation t.
Proof.
  unfold Only, noMutation. apply Forall_impl.
  intros [] H; try reflexivity; discriminate.
Qed.

Lemma Only_isOpening_not_closed t : Only isOpening t -> ~ In OcmClose t.
Proof. intros Ht Hin. apply (Only_In _ _ _ Ht) in Hin. discriminate. Qed.

Lemma Only_isOpening_roleReport role : Only isOpening (roleReport role).
Proof.
  unfold roleReport. destruct (RevokeUser.isRoleValid _); repeat constructor.
Qed.

Lemma Only_isOpening_prelude : Only isOpening prelude.
Proof. repeat constructor. Qed.

(** X16.  The revoke command never panics: the read of the first
    argument is guarded by the check of their number.  It returns
    normally only after a delete request that was accepted, followed by
    the deferred close, with no mutation before the request.  It exits
    with code 1 right after an error report (the failed delete request
    is then in the trace, when that is the error).  It exits with
    code 0 right after a confirmation the operator declined, and in
    that case the trace holds no mutation.  There is no other exit
    code. *)
Theorem revoke_outcomes w a argv :
  match outcome (RevokeUser.run w a argv) with
  | inl _ =>
      exists t cl role,
        trace (RevokeUser.run w a argv)
        = (t ++ revokeRequest a cl role ++ closeEvents w)%list
        /\ noMutation t
        /\ sendDeleteGroupUser w (ID cl) role (RevokeUser.username a) = None
  | inr (Exit code) =>
      (code = 1
       /\ exists t msg,
            trace (RevokeUser.run w a argv) = (t ++ [Report LError msg])%list)
      \/ (code = 0
          /\ exists t prompt,
               trace (RevokeUser.run w a argv) = (t ++ [AskConfirm prompt])%list
               /\ confirm w prompt = false
               /\ noMutation t)
  | inr (Panic _) => False
  end.
Proof.
  unfold outcome, trace.
  destruct (revoke_run_cases w a argv)
    as [(msg & t & -> & Ht) | (role0 & arn & -> & Harn & ->)].
  - cbn [fst snd]. left. split; [reflexivity |]. exists t, msg. reflexivity.
  - rewrite revoke_connected_cases.
    set (role := RevokeUser.canonicalRole role0).
    assert (Hpre : noMutation (roleReport role ++ prelude)).
    { apply Only_isOpening_noMutation, Only_app;
        [apply Only_isOpening_roleReport | apply Only_isOpening_prelude]. }
    destruct (getCluster w (RevokeUser.clusterKey a) arn) as [cl | e].
    + destruct (confirm w (revokePrompt a role)) eqn:Hyes.
      * destruct (sendDeleteGroupUser w (ID cl) role (RevokeUser.username a))
          as [[err reason] |] eqn:Hsend;
          rewrite defer_closeConnection; unfold after; cbn [fst snd].
        -- left. split; [reflexivity |].
           exists ((roleReport role ++ prelude) ++ revokeLookup a arn role
                   ++ revokeRequest a cl role ++ [Report LDebug err])%list,
             ("Failed to revoke '" ++ role ++ "' from user '"
              ++ RevokeUser.username a ++ "' in cluster '"
              ++ RevokeUser.clusterKey a ++ "': " ++ reason).
           rewrite <- !app_assoc. reflexivity.
        -- rewrite closeConnection_events. cbn [snd].
           exists ((roleReport role ++ prelude) ++ revokeLookup a arn role)%list,
             cl, role.
           split; [rewrite <- !app_assoc; reflexivity |].
           split; [| assumption].
           apply noMutation_app; [assumption | repeat constructor].
      * rewrite defer_closeConnection. unfold after. cbn [fst snd].
        right. split; [reflexivity |].
        exists ((roleReport role ++ prelude)
                ++ [Report LDebug ("Loading cluster '"
                                   ++ RevokeUser.clusterKey a ++ "'");
                    OcmGetCluster (RevokeUser.clusterKey a) arn])%list,
          (revokePrompt a role).
        split; [unfold revokeLookup; rewrite <- !app_assoc; reflexivity |].
        split; [assumption |].
        apply noMutation_app; [assumption | repeat constructor].
    + rewrite defer_closeConnection. unfold after. cbn [fst snd].
      left. split; [reflexivity |].
      exists ((roleReport role ++ prelude)
              ++ [Report LDebug ("Loading cluster '"
                                 ++ RevokeUser.clusterKey a ++ "'");
                  OcmGetCluster (RevokeUser.clusterKey a) arn])%list,
        ("Failed to get cluster '" ++ RevokeUser.clusterKey a ++ "': " ++ e).
      rewrite <- !app_assoc. reflexivity.
Qed.

Lemma mutations_app t1 t2 :
  mutations (t1 ++ t2) = (mutations t1 ++ mutations t2)%list.
Proof. apply filter_app. Qed.

Lemma mutations_noMutation t : noMutation t -> mutations t = [].
Proof.
  unfold noMutation, mutations. induction 1 as [| e t He _ IH]; [reflexivity |].
  cbn [filter]. rewrite He. assumption.
Qed.

Lemma noMutation_In t e : noMutation t -> In e t -> isMutation e = false.
Proof. unfold noMutation. rewrite Forall_forall. auto. Qed.

(** X17.  A delete request of the revoke command is for the cluster the
    lookup returned, for the group named by the role after the aliases
    are resolved, whether or not that role is valid, and for the user
    of the flag; it is sent only after the operator confirmed, and it
    is the only mutation of the run. *)
Theorem revoke_delete_request w a argv id group user :
  In (DeleteGroupUser id group user) (trace (RevokeUser.run w a argv)) ->
  exists role arn cl,
    argv = [role] /\ group = RevokeUser.canonicalRole role
    /\ user = RevokeUser.username a
    /\ awsGetCreator w = Ok arn
    /\ getCluster w (RevokeUser.clusterKey a) arn = Ok cl /\ id = ID cl
    /\ confirm w (revokePrompt a group) = true
    /\ mutations (trace (RevokeUser.run w a argv))
       = [DeleteGroupUser id group user].
Proof.
  unfold trace.
  destruct (revoke_run_cases w a argv)
    as [(msg & t & -> & Ht) | (role0 & arn & -> & Harn & ->)].
  - cbn [snd]. intros Hin. exfalso.
    assert (Hno : noMutation (t ++ [Report LError msg])).
    { apply noMutation_app;
        [apply Only_isOpening_noMutation; assumption | repeat constructor]. }
    pose proof (noMutation_In _ _ Hno Hin). discriminate.
  - rewrite revoke_connected_cases.
    set (role := RevokeUser.canonicalRole role0).
    assert (Hpre : noMutation (roleReport role ++ prelude)).
    { apply Only_isOpening_noMutation, Only_app;
        [apply Only_isOpening_roleReport | apply Only_isOpening_prelude]. }
    assert (Hlook : noMutation (revokeLookup a arn role))
      by (repeat constructor).
    assert (Hclose : noMutation (closeEvents w)).
    { unfold closeEvents. destruct (ocmClose w); repeat constructor. }
    assert (Hcut : forall post,
              noMutation post ->
              forall cl,
              In (DeleteGroupUser id group user)
                 ((roleReport role ++ prelude)
                  ++ revokeLookup a arn role ++ revokeRequest a cl role
                  ++ post) ->
              group = role /\ user = RevokeUser.username a /\ id = ID cl
              /\ mutations ((roleReport role ++ prelude)
                            ++ revokeLookup a arn role
                            ++ revokeRequest a cl role ++ post)
                 = [DeleteGroupUser id group user]).
    { intros post Hpost cl Hin.
      rewrite (mutations_app (roleReport role ++ prelude)),
        (mutations_app (revokeLookup a arn role)),
        (mutations_app (revokeRequest a cl role)).
      rewrite (mutations_noMutation _ Hpre), (mutations_noMutation _ Hlook),
        (mutations_noMutation _ Hpost).
      apply in_app_or in Hin. destruct Hin as [Hin | Hin];
        [pose proof (noMutation_In _ _ Hpre Hin); discriminate |].
      apply in_app_or in Hin. destruct Hin as [Hin | Hin];
        [pose proof (noMutation_In _ _ Hlook Hin); discriminate |].
      apply in_app_or in Hin. destruct Hin as [Hin | Hin];
        [| pose proof (noMutation_In _ _ Hpost Hin); discriminate].
      unfold revokeRequest in Hin. cbn [In] in Hin.
      destruct Hin as [Hin | [Hin | []]]; [discriminate |].
      injection Hin as <- <- <-. repeat split; reflexivity. }
    destruct (getCluster w (RevokeUser.clusterKey a) arn) as [cl | e] eqn:Hcl.
    + destruct (confirm w (revokePrompt a role)) eqn:Hyes.
      * destruct (sendDeleteGroupUser w (ID cl) role (RevokeUser.username a))
          as [[err reason] |] eqn:Hsend;
          rewrite defer_closeConnection; unfold after; cbn [fst snd];
          intros Hin.
        -- pose proof (fun H => Hcut _ H cl Hin) as Hm.
           destruct Hm as (-> & -> & -> & Hm); [repeat constructor |].
           exists role0, arn, cl. repeat (split; [reflexivity || assumption |]).
           exact Hm.
        -- rewrite closeConnection_events in Hin |- *. cbn [snd] in Hin |- *.
           rewrite <- (app_assoc _ _ (closeEvents w)) in Hin |- *.
           destruct (Hcut _ Hclose cl Hin) as (-> & -> & -> & Hm).
           exists role0, arn, cl. repeat (split; [reflexivity || assumption |]).
           exact Hm.
      * rewrite defer_closeConnection. unfold after. cbn [fst snd].
        intros Hin. exfalso.
        assert (Hno : noMutation ((roleReport role ++ prelude)
                                  ++ revokeLookup a arn role))
          by (apply noMutation_app; assumption).
        pose proof (noMutation_In _ _ Hno Hin). discriminate.
    + rewrite defer_closeConnection. unfold after. cbn [fst snd].
      intros Hin. exfalso.
      assert (Hno : noMutation
                      ((roleReport role ++ prelude)
                       ++ [Report LDebug ("Loading cluster '"
                                          ++ RevokeUser.clusterKey a ++ "'");
                           OcmGetCluster (RevokeUser.clusterKey a) arn;
                           Report LError ("Failed to get cluster '"
                                          ++ RevokeUser.clusterKey a
                                          ++ "': " ++ e)]))
        by (apply noMutation_app; [assumption | repeat constructor]).
      pose proof (noMutation_In _ _ Hno Hin). discriminate.
Qed.

(** X18.  The connection of the revoke command is closed exactly when
    the command does not leave through [os.Exit]: a run that exits
    holds no close; a run that returns opened the connection and ends
    with the deferred close, and holds no other close. *)
Theorem revoke_connection_lifecycle w a argv :
  match outcome (RevokeUser.run w a argv) with
  | inr (Exit _) => ~ In OcmClose (trace (RevokeUser.run w a argv))
  | _ =>
      exists t,
        trace (RevokeUser.run w a argv) = (t ++ closeEvents w)%list
        /\ In OcmNewConnection t /\ ~ In OcmClose t
  end.
Proof.
  unfold outcome, trace.
  assert (Hno : forall t, Only (fun e => negb (isClose e)) t -> ~ In OcmClose t).
  { intros t Ht Hin. apply (Only_In _ _ _ Ht) in Hin. discriminate. }
  destruct (revoke_run_cases w a argv)
    as [(msg & t & -> & Ht) | (role0 & arn & -> & Harn & ->)].
  - cbn [fst snd]. intros Hin. apply in_app_or in Hin.
    destruct Hin as [Hin | Hin].
    + exact (Only_isOpening_not_closed t Ht Hin).
    + simpl in Hin. intuition discriminate.
  - set (role := RevokeUser.canonicalRole role0).
    assert (Hc : Only (fun e => negb (isClose e))
                      (snd (RevokeUser.connected w a role arn))).
    { rewrite revoke_connected_cases.
      destruct (getCluster w (RevokeUser.clusterKey a) arn) as [cl | e];
        [| repeat constructor].
      destruct (confirm w (revokePrompt a role)); [| repeat constructor].
      destruct (sendDeleteGroupUser w (ID cl) role (RevokeUser.username a))
        as [[err reason] |]; repeat constructor. }
    destruct (RevokeUser.connected w a role arn) as [r t]. cbn [snd] in Hc.
    rewrite defer_closeConnection.
    assert (Hpre : ~ In OcmClose ((roleReport role ++ prelude) ++ t)).
    { intros Hin. apply in_app_or in Hin. destruct Hin as [Hin | Hin].
      - revert Hin. apply Only_isOpening_not_closed, Only_app;
          [apply Only_isOpening_roleReport | apply Only_isOpening_prelude].
      - exact (Hno t Hc Hin). }
    assert (Hopen : In OcmNewConnection ((roleReport role ++ prelude) ++ t)).
    { apply in_or_app. left. apply in_or_app. right. simpl. tauto. }
    rewrite closeConnection_events. unfold after.
    destruct r as [[] | [c | msg]]; cbn [fst snd].
    + exists ((roleReport role ++ prelude) ++ t)%list.
      rewrite app_assoc. split; [reflexivity |]. split; assumption.
    + assumption.
    + exists ((roleReport role ++ prelude) ++ t)%list.
      rewrite app_assoc. split; [reflexivity |]. split; assumption.
Qed.

(** ** Runs on the scenarios *)

Lemma upgrade_only_panic_witness :
  outcome (UpgradeCluster.run Scenario.world Scenario.bareNumberArgs)
  = inr (Panic "runtime error: index out of range [1] with length 1")
  /\ "runtime error: index out of range [1] with length 1" = indexPanic.
Proof.
  assert (H : outcome (UpgradeCluster.run Scenario.world
                                          Scenario.bareNumberArgs)
              = inr (Panic "runtime error: index out of range [1] with length 1"))
    by (vm_compute; reflexivity).
  split; [exact H |].
  exact (upgrade_only_panic Scenario.world Scenario.bareNumberArgs
           "runtime error: index out of range [1] with length 1" H).
Defined.

Lemma upgrade_no_available_upgrades_witness :
  UpgradeCluster.run (Cases.withAvailable Scenario.world (Ok []))
                     Scenario.upgradeArgs =
  (inr (Exit 0),
   [AwsNewClient; AwsGetCreator; OcmNewConnection;
    Report LDebug "Loading cluster 'mycluster'";
    OcmGetCluster "mycluster" Scenario.arn;
    OcmGetScheduledUpgrade "1a2b3c";
    OcmGetAvailableUpgrades "openshift-v4.5.19";
    Report LWarn "There are no available upgrades"]).
Proof.
  rewrite (upgrade_no_available_upgrades
             (Cases.withAvailable Scenario.world (Ok []))
             Scenario.upgradeArgs Scenario.arn Scenario.readyCluster
             eq_refl eq_refl eq_refl eq_refl eq_refl eq_refl eq_refl eq_refl).
  vm_compute. reflexivity.
Defined.

Lemma upgrade_submitted_policy_witness :
  In (AddUpgradePolicy "1a2b3c"
        (mkUpgradePolicy "manual" "4.5.20" (mkTime 1606125060 0 "UTC" 0)))
     (trace (UpgradeCluster.run Scenario.world Scenario.upgradeArgs))
  /\ exists arn cl avail,
       getCluster Scenario.world "mycluster" arn = Ok cl
       /\ "1a2b3c" = ID cl
       /\ State cl = ClusterStateReady
       /\ getScheduledUpgrade Scenario.world (ID cl) = Ok None
       /\ getAvailableUpgrades Scenario.world (GetVersionID cl) = Ok avail
       /\ In "4.5.20" avail.
Proof.
  assert (Hin : In (AddUpgradePolicy "1a2b3c"
                      (mkUpgradePolicy "manual" "4.5.20"
                                       (mkTime 1606125060 0 "UTC" 0)))
                   (trace (UpgradeCluster.run Scenario.world
                                              Scenario.upgradeArgs)))
    by (vm_compute; tauto).
  split; [exact Hin |].
  exact (proj2 (upgrade_submitted_policy Scenario.world Scenario.upgradeArgs
                  "1a2b3c"
                  (mkUpgradePolicy "manual" "4.5.20"
                                   (mkTime 1606125060 0 "UTC" 0)) Hin)).
Defined.

Lemma upgrade_asks_version_without_flag_witness :
  In (AskOption (mkInput "Version" UpgradeCluster.versionUsage
                         ["4.5.20"; "4.5.21"] "4.5.20" true))
     (trace (UpgradeCluster.run Scenario.world Cases.noVersionArgs)).
Proof.
  exact (proj1 (upgrade_asks_version_without_flag
                  Scenario.world Cases.noVersionArgs Scenario.arn
                  Scenario.readyCluster "4.5.20" ["4.5.21"]
                  eq_refl eq_refl eq_refl eq_refl eq_refl eq_refl eq_refl
                  eq_refl eq_refl)).
Defined.

Lemma upgrade_without_prompts_witness :
  Only (fun e => negb (isPrompt e))
       (trace (UpgradeCluster.run Scenario.world Scenario.upgradeArgs)).
Proof.
  assert (Hv : UpgradeCluster.version Scenario.upgradeArgs <> "")
    by (vm_compute; discriminate).
  exact (upgrade_without_prompts Scenario.world Scenario.upgradeArgs
           eq_refl Hv).
Defined.

Lemma upgrade_schedule_from_flags_witness :
  In (AddUpgradePolicy "1a2b3c"
        (mkUpgradePolicy "manual" "4.5.20" (mkTime 1608780600 0 "UTC" 0)))
     (trace (UpgradeCluster.run Scenario.world
               (Cases.scheduledArgs "2020-12-24" "03:30")))
  /\ NextRun (mkUpgradePolicy "manual" "4.5.20" (mkTime 1608780600 0 "UTC" 0))
     = mkTime 1608780600 0 "UTC" 0.
Proof.
  assert (Hin : In (AddUpgradePolicy "1a2b3c"
                      (mkUpgradePolicy "manual" "4.5.20"
                                       (mkTime 1608780600 0 "UTC" 0)))
                   (trace (UpgradeCluster.run Scenario.world
                             (Cases.scheduledArgs "2020-12-24" "03:30"))))
    by (vm_compute; tauto).
  split; [exact Hin |].
  exact (upgrade_schedule_from_flags Scenario.world
           (Cases.scheduledArgs "2020-12-24" "03:30") eq_refl
           "1a2b3c"
           (mkUpgradePolicy "manual" "4.5.20" (mkTime 1608780600 0 "UTC" 0))
           Hin).
Defined.


Lemma upgrade_grace_period_flag_wins_witness :
  In (UpdateCluster "1a2b3c"
        (mkClusterSpec (mkValue (Some (ofInt 120)) (Some "minutes"))))
     (trace (UpgradeCluster.run
               (Scenario.withCluster Scenario.world
                                     (Ok (Scenario.drainingCluster 30)))
               (Cases.graceArgs "2 hours")))
  /\ exists minutes,
       fst (UpgradeCluster.parseNodeDrain
              (Scenario.withCluster Scenario.world
                                    (Ok (Scenario.drainingCluster 30)))
              "2 hours") = inl minutes
       /\ mkClusterSpec (mkValue (Some (ofInt 120)) (Some "minutes"))
          = mkClusterSpec (mkValue (Some minutes) (Some "minutes")).
Proof.
  assert (Hin : In (UpdateCluster "1a2b3c"
                      (mkClusterSpec
                         (mkValue (Some (ofInt 120)) (Some "minutes"))))
                   (trace (UpgradeCluster.run
                             (Scenario.withCluster Scenario.world
                                (Ok (Scenario.drainingCluster 30)))
                             (Cases.graceArgs "2 hours"))))
    by (vm_compute; tauto).
  split; [exact Hin |].
  exact (upgrade_grace_period_flag_wins
           (Scenario.withCluster Scenario.world
                                 (Ok (Scenario.drainingCluster 30)))
           (Cases.graceArgs "2 hours") "2 hours" "1a2b3c"
           (mkClusterSpec (mkValue (Some (ofInt 120)) (Some "minutes")))
           eq_refl eq_refl Hin).
Defined.

Lemma upgrade_default_grace_period_witness :
  In (UpdateCluster "1a2b3c"
        (mkClusterSpec (mkValue (Some (ofInt 60)) (Some "minutes"))))
     (trace (UpgradeCluster.run Scenario.world Scenario.upgradeArgs))
  /\ (forall spec,
        In (UpdateCluster "1a2b3c" spec)
           (trace (UpgradeCluster.run Scenario.world Scenario.upgradeArgs)) ->
        spec = mkClusterSpec (mkValue (Some (ofInt 60)) (Some "minutes"))).
Proof.
  assert (Hin : In (UpdateCluster "1a2b3c"
                      (mkClusterSpec
                         (mkValue (Some (ofInt 60)) (Some "minutes"))))
                   (trace (UpgradeCluster.run Scenario.world
                                              Scenario.upgradeArgs)))
    by (vm_compute; tauto).
  assert (Hnone : forall key arn cl,
            getCluster Scenario.world key arn = Ok cl ->
            snd (GetValue (NodeDrainGracePeriod cl)) = false).
  { intros key arn cl Hcl. injection Hcl as <-. reflexivity. }
  split; [exact Hin |].
  intros spec Hspec.
  exact (upgrade_default_grace_period Scenario.world Scenario.upgradeArgs
           "1a2b3c" spec eq_refl eq_refl Hnone Hspec).
Defined.

Lemma node_drain_options_round_trip_witness :
  exists v,
    UpgradeCluster.parseNodeDrain Scenario.world "4 hours"
    = (inl (ofInt v), [])
    /\ forall cl,
         NodeDrainGracePeriod cl
         = Some (mkValue (Some (ofInt v)) (Some "minutes")) ->
         UpgradeCluster.storedNodeDrain cl = "4 hours".
Proof.
  assert (Hin : In "4 hours" UpgradeCluster.nodeDrainOptions)
    by (simpl; tauto).
  exact (node_drain_options_round_trip Scenario.world "4 hours" Hin).
Defined.

Lemma upgrade_exit_reported_witness :
  exists t msg,
    trace (UpgradeCluster.run Scenario.world Scenario.staleArgs)
    = (t ++ [Report LError msg])%list.
Proof.
  assert (H : outcome (UpgradeCluster.run Scenario.world Scenario.staleArgs)
              = inr (Exit 1)) by (vm_compute; reflexivity).
  exact (proj2 (upgrade_exit_reported Scenario.world Scenario.staleArgs 1 H)).
Defined.

Lemma upgrade_return_means_both_sent_witness :
  exists pre cl policy spec,
    noMutation pre
    /\ sendAddUpgradePolicy Scenario.world (ID cl) policy = Ok tt
    /\ sendUpdateCluster Scenario.world (ID cl) spec = Ok tt
    /\ trace (UpgradeCluster.run Scenario.world Scenario.upgradeArgs) =
       (pre ++ [AddUpgradePolicy (ID cl) policy;
                UpdateCluster (ID cl) spec;
                Report LInfo "Upgrade successfully scheduled for cluster 'mycluster'"]
            ++ closeEvents Scenario.world)%list.
Proof.
  assert (H : outcome (UpgradeCluster.run Scenario.world Scenario.upgradeArgs)
              = inl tt) by (vm_compute; reflexivity).
  exact (upgrade_return_means_both_sent Scenario.world Scenario.upgradeArgs H).
Defined.

Lemma revoke_validation_order_witness :
  RevokeUser.run Scenario.world (RevokeUser.mkArgs "my cluster" "my user") [] =
  (inr (Exit 1),
   [Report LError
      "Cluster name, identifier or external identifier 'my cluster' isn't valid: it must contain only letters, digits, dashes and underscores"]).
Proof.
  exact (revoke_validation_order Scenario.world
           (RevokeUser.mkArgs "my cluster" "my user") [] eq_refl).
Defined.

Lemma revoke_delete_request_witness :
  In (DeleteGroupUser "1a2b3c" "cluster-admins" "myusername")
     (trace (RevokeUser.run Scenario.world Scenario.revokeArgs
                            ["cluster-admin"]))
  /\ mutations (trace (RevokeUser.run Scenario.world Scenario.revokeArgs
                                      ["cluster-admin"]))
     = [DeleteGroupUser "1a2b3c" "cluster-admins" "myusername"].
Proof.
  assert (Hin : In (DeleteGroupUser "1a2b3c" "cluster-admins" "myusername")
                   (trace (RevokeUser.run Scenario.world Scenario.revokeArgs
                                          ["cluster-admin"])))
    by (vm_compute; tauto).
  split; [exact Hin |].
  destruct (revoke_delete_request Scenario.world Scenario.revokeArgs
              ["cluster-admin"] "1a2b3c" "cluster-admins" "myusername" Hin)
    as (role & arn & cl & _ & _ & _ & _ & _ & _ & _ & Hm).
  exact Hm.
Defined.
